(** * The model registry store of mlflow, [SqlAlchemyStore]

    A shallow embedding of
    [mlflow/store/model_registry/sqlalchemy_store.py]: the two tables
    behind the store, a SQLAlchemy session as an explicit state, the
    managed session scope, and the operations of the store written in a
    small state-and-exception monad that follows the Python text line by
    line. *)

From Stdlib Require Import List String Ascii ZArith Bool Arith Lia.
From Stdlib Require Import DecimalString.
Import ListNotations.
Local Open Scope string_scope.
Local Open Scope Z_scope.
Local Open Scope list_scope.

Set Implicit Arguments.

(* ================================================================= *)
(** ** Python values *)

(** [str(n)] for an integer. *)
Definition py_str (n : Z) : string := NilZero.string_of_int (Z.to_int n).

(** [str(x)] where [x] is a string or [None]. *)
Definition py_str_opt (x : option string) : string :=
  match x with
  | Some s => s
  | None => "None"
  end.

(** The double quote character, as a string. *)
Definition dquote : string := String (ascii_of_nat 34) EmptyString.

(** [len(l)] as a Python integer. *)
Definition len {A} (l : list A) : Z := Z.of_nat (List.length l).

(* ================================================================= *)
(** ** Errors *)

(** The error codes the store imports from
    [mlflow.protos.databricks_pb2]. *)
Inductive ErrorCode :=
| INVALID_PARAMETER_VALUE
| RESOURCE_ALREADY_EXISTS
| INVALID_STATE
| RESOURCE_DOES_NOT_EXIST.

(** The exceptions the store handles or raises. [MlflowException] keeps
    its message and the [error_code] argument it was raised with, [None]
    when the raiser passed none. [IntegrityError] is
    [sqlalchemy.exc.IntegrityError]; its text comes from the database
    driver. [InvalidRequestError] is
    [sqlalchemy.exc.InvalidRequestError], which a session raises when it
    is used in a state that does not allow it. [IndexError] is what
    indexing an empty list raises. *)
Inductive Exn :=
| MlflowException (message : string) (error_code : option ErrorCode)
| IntegrityError (text : string)
| InvalidRequestError (text : string)
| IndexError.

Inductive Exc (A : Type) :=
| Ok (a : A)
| Raise (e : Exn).
Arguments Ok {A} a.
Arguments Raise {A} e.

Definition code_of (e : Exn) : option ErrorCode :=
  match e with
  | MlflowException _ c => c
  | IntegrityError _ => None
  | InvalidRequestError _ => None
  | IndexError => None
  end.

Definition message_of (e : Exn) : string :=
  match e with
  | MlflowException m _ => m
  | IntegrityError t => t
  | InvalidRequestError t => t
  | IndexError => "list index out of range"
  end.

(** The spec's names for the error kinds. *)
Definition is_InvalidArgument (e : Exn) : Prop :=
  exists m, e = MlflowException m (Some INVALID_PARAMETER_VALUE).
Definition is_NotFound (e : Exn) : Prop :=
  exists m, e = MlflowException m (Some RESOURCE_DOES_NOT_EXIST).
Definition is_InvalidState (e : Exn) : Prop :=
  exists m, e = MlflowException m (Some INVALID_STATE).
Definition is_AlreadyExists (e : Exn) : Prop :=
  exists m, e = MlflowException m (Some RESOURCE_ALREADY_EXISTS).

(* ================================================================= *)
(** ** Rows and entities *)

(** Modelled from the spec: the mapped classes [SqlRegisteredModel] and
    [SqlModelVersion] of [mlflow.store.model_registry.dbmodels.models]
    are not part of the sources at hand; their columns are the
    attributes section 3 of the spec lists. *)
Record SqlRegisteredModel := mkSqlRegisteredModel {
  rm_name : string;
  rm_creation_time : Z;
  rm_last_updated_time : Z;
  rm_description : option string
}.

(** Modelled from the spec: the columns of [SqlModelVersion], by
    section 3. *)
Record SqlModelVersion := mkSqlModelVersion {
  mv_name : string;
  mv_version : Z;
  mv_creation_time : Z;
  mv_last_updated_time : Z;
  mv_description : option string;
  mv_current_stage : string;
  mv_source : string;
  mv_run_id : string
}.

(** Modelled from the spec: the default of the [current_stage] column,
    by section 3. *)
Definition STAGE_NONE : string := "None".

(** Modelled from the spec: the entities of
    [mlflow.entities.model_registry] are not part of the sources at
    hand. They are plain data handed back to the caller: a registered
    model is known by its name, a version by its model and number. *)
Record RegisteredModel := mkRegisteredModel {
  name : string
}.

(** Modelled from the spec: the entity [ModelVersion]. *)
Record ModelVersion := mkModelVersion {
  registered_model : RegisteredModel;
  version : Z
}.

(** [ModelVersion.get_name] *)
Definition get_name (model_version : ModelVersion) : string :=
  name (registered_model model_version).

(** Modelled from the spec: the entity [ModelVersionDetailed], a
    snapshot of every attribute of a version row. *)
Record ModelVersionDetailed := mkModelVersionDetailed {
  mvd_registered_model : RegisteredModel;
  mvd_version : Z;
  mvd_creation_timestamp : Z;
  mvd_last_updated_timestamp : Z;
  mvd_description : option string;
  mvd_current_stage : string;
  mvd_source : string;
  mvd_run_id : string
}.

(** Modelled from the spec: the entity [RegisteredModelDetailed], a
    snapshot of a registered model with its latest versions. *)
Record RegisteredModelDetailed := mkRegisteredModelDetailed {
  rmd_name : string;
  rmd_creation_timestamp : Z;
  rmd_last_updated_timestamp : Z;
  rmd_description : option string;
  latest_versions : list ModelVersionDetailed
}.

(** Modelled from the spec: [PagedList(items, token)] of
    [mlflow.store.entities.paged_list], a list with a continuation
    token. *)
Record PagedList (A : Type) := mkPagedList {
  items : list A;
  token : option string
}.

(* ================================================================= *)
(** ** The backing store *)

(** The two tables. They are lists: [.all()] returns rows in table
    order, and the lookups of the store count the rows that match, so a
    table that breaks the uniqueness of its key must be expressible. *)
Record Database := mkDatabase {
  registered_models : list SqlRegisteredModel;
  model_versions : list SqlModelVersion
}.

Definition VersionKey : Type := (string * Z)%type.

Definition version_key (v : SqlModelVersion) : VersionKey :=
  (mv_name v, mv_version v).

Definition key_eqb (k1 k2 : VersionKey) : bool :=
  (fst k1 =? fst k2)%string && (snd k1 =? snd k2).

Definition mem_name (n : string) (l : list string) : bool :=
  existsb (String.eqb n) l.

Definition mem_key (k : VersionKey) (l : list VersionKey) : bool :=
  existsb (key_eqb k) l.

(** Keys that transactions running at the same time have taken and that
    this session does not see: inserting one of them violates the
    uniqueness constraint of the table. The model follows one session at
    a time: what the other transactions write never shows in the tables
    an operation returns, which are the tables as this operation has
    changed them. A schedule with a conflict thus describes a flush that
    the database refuses, not a store shared with the other writers. *)
Record Concurrent := mkConcurrent {
  taken_models : list string;
  taken_versions : list VersionKey
}.

Definition nobody : Concurrent := mkConcurrent [] [].

(** What a flush sends to the database. A persistent object is written
    back under the key it was loaded with. *)
Inductive Write :=
| InsertModel (r : SqlRegisteredModel)
| InsertVersion (v : SqlModelVersion)
| UpdateModel (id : string) (r : SqlRegisteredModel)
| UpdateVersion (id : VersionKey) (v : SqlModelVersion)
| DeleteModel (id : string)
| DeleteVersion (id : VersionKey).

(** Modelled from the spec: the relationship between the two mapped
    classes cascades, so deleting a registered model removes the model
    and its versions (section 4.1). *)
Definition delete_model_rows (id : string) (db : Database) : Database :=
  mkDatabase
    (filter (fun x => negb (rm_name x =? id)%string) (registered_models db))
    (filter (fun x => negb (mv_name x =? id)%string) (model_versions db)).

(** One statement against the tables; [None] is a violated uniqueness
    constraint. *)
Definition apply_write (c : Concurrent) (db : Database) (w : Write)
  : option Database :=
  match w with
  | InsertModel r =>
      if mem_name (rm_name r) (map rm_name (registered_models db))
         || mem_name (rm_name r) (taken_models c)
      then None
      else Some (mkDatabase (registered_models db ++ [r]) (model_versions db))
  | InsertVersion v =>
      if mem_key (version_key v) (map version_key (model_versions db))
         || mem_key (version_key v) (taken_versions c)
      then None
      else Some (mkDatabase (registered_models db) (model_versions db ++ [v]))
  | UpdateModel id r =>
      if negb (rm_name r =? id)%string
         && (mem_name (rm_name r) (map rm_name (registered_models db))
             || mem_name (rm_name r) (taken_models c))
      then None
      else Some (mkDatabase
                   (map (fun x => if (rm_name x =? id)%string then r else x)
                        (registered_models db))
                   (model_versions db))
  | UpdateVersion id v =>
      if negb (key_eqb (version_key v) id)
         && (mem_key (version_key v) (map version_key (model_versions db))
             || mem_key (version_key v) (taken_versions c))
      then None
      else Some (mkDatabase
                   (registered_models db)
                   (map (fun x => if key_eqb (version_key x) id then v else x)
                        (model_versions db)))
  | DeleteModel id => Some (delete_model_rows id db)
  | DeleteVersion id =>
      Some (mkDatabase
              (registered_models db)
              (filter (fun x => negb (key_eqb (version_key x) id))
                      (model_versions db)))
  end.

Fixpoint apply_writes (c : Concurrent) (db : Database) (ws : list Write)
  : option Database :=
  match ws with
  | [] => Some db
  | w :: ws' =>
      match apply_write c db w with
      | Some db' => apply_writes c db' ws'
      | None => None
      end
  end.

(* ================================================================= *)
(** ** Sessions *)

(** What the code does with or next to its session, in program order. *)
Inductive Effect :=
| Query_registered_models
| Query_model_versions
| Add
| Add_all (n : nat)
| Flush
| Delete
| Log_info (message : string).

(** A session: the tables as this transaction sees them, the writes not
    yet flushed, what concurrent transactions will have taken at each
    coming flush, and the effects so far. *)
Record Session := mkSession {
  view : Database;
  pending : list Write;
  schedule : list Concurrent;
  effects : list Effect
}.

(** Whether the transaction of a session can still be used. When a flush
    fails, SQLAlchemy rolls the transaction back and leaves the session
    inactive: until the code calls [session.rollback()], a query, the
    load of a relationship, a flush and a commit raise
    [InvalidRequestError]. [session.add] and [session.delete] only
    register the object and still work. The store never calls
    [session.rollback()] itself; only leaving the scope of
    [ManagedSessionMaker] does. *)
Inductive SessionState :=
| Active (s : Session)
| Inactive (s : Session).

Coercion Active : Session >-> SessionState.

Definition session_of (t : SessionState) : Session :=
  match t with
  | Active s => s
  | Inactive s => s
  end.

Definition is_active (t : SessionState) : bool :=
  match t with
  | Active _ => true
  | Inactive _ => false
  end.

Definition on_session (f : Session -> Session) (t : SessionState)
  : SessionState :=
  match t with
  | Active s => Active (f s)
  | Inactive s => Inactive (f s)
  end.

(** The text of the error an inactive session raises. *)
Definition inactive_text : string :=
  "This Session's transaction has been rolled back due to a previous exception during flush. To begin a new transaction with this Session, first issue Session.rollback().".

(** A mapped object in the hands of the code: the key it was loaded
    with ([None] for an object the code has just built) and its current
    attributes. *)
Record Mapped (K R : Type) := mkMapped {
  identity : option K;
  attrs : R
}.

Notation "'SqlRM'" := (Mapped string SqlRegisteredModel).
Notation "'SqlMV'" := (Mapped VersionKey SqlModelVersion).

Definition loaded_model (r : SqlRegisteredModel) : SqlRM :=
  mkMapped (Some (rm_name r)) r.
Definition loaded_version (v : SqlModelVersion) : SqlMV :=
  mkMapped (Some (version_key v)) v.
Definition fresh_model (r : SqlRegisteredModel) : SqlRM :=
  mkMapped None r.
Definition fresh_version (v : SqlModelVersion) : SqlMV :=
  mkMapped None v.

(** The monad of code running against a session. *)
Definition M (A : Type) : Type := SessionState -> Exc A * SessionState.

Definition ret {A} (a : A) : M A := fun s => (Ok a, s).

Definition bind {A B} (m : M A) (f : A -> M B) : M B :=
  fun s =>
    match m s with
    | (Ok a, s') => f a s'
    | (Raise e, s') => (Raise e, s')
    end.

Definition raise {A} (e : Exn) : M A := fun s => (Raise e, s).

(** [try: body  except IntegrityError as e: handler(e)]: any other
    exception passes through. *)
Definition try_except_IntegrityError {A} (body : M A) (handler : string -> M A)
  : M A :=
  fun s =>
    match body s with
    | (Ok a, s') => (Ok a, s')
    | (Raise (IntegrityError t), s') => handler t s'
    | (Raise e, s') => (Raise e, s')
    end.

(** A helper that fails or returns without touching the session. *)
Definition lift {A} (r : Exc A) : M A := fun s => (r, s).

Declare Scope store_scope.
Delimit Scope store_scope with store.
Notation "x <- m ;; k" := (bind m (fun x => k))
  (at level 61, m at next level, right associativity) : store_scope.
Notation "m ;; k" := (bind m (fun _ => k))
  (at level 61, right associativity) : store_scope.
Local Open Scope store_scope.

Definition effect (e : Effect) : M unit :=
  fun t =>
    (Ok tt,
     on_session
       (fun s => mkSession (view s) (pending s) (schedule s) (effects s ++ [e]))
       t).

Definition stage_write (w : Write) : M unit :=
  fun t =>
    (Ok tt,
     on_session
       (fun s => mkSession (view s) (pending s ++ [w]) (schedule s) (effects s))
       t).

(** A statement that goes to the database: on an inactive session it
    raises instead. *)
Definition needs_transaction {A} (m : Session -> Exc A * SessionState)
  : M A :=
  fun t =>
    match t with
    | Active s => m s
    | Inactive _ => (Raise (InvalidRequestError inactive_text), t)
    end.

(** [session.query(SqlRegisteredModel).filter(p).all()] *)
Definition query_registered_models (p : SqlRegisteredModel -> bool)
  : M (list SqlRM) :=
  effect Query_registered_models ;;
  needs_transaction
    (fun s =>
       (Ok (map loaded_model (filter p (registered_models (view s)))),
        Active s)).

(** [session.query(SqlModelVersion).filter(p).all()] *)
Definition query_model_versions (p : SqlModelVersion -> bool)
  : M (list SqlMV) :=
  effect Query_model_versions ;;
  needs_transaction
    (fun s =>
       (Ok (map loaded_version (filter p (model_versions (view s)))),
        Active s)).

Definition write_of_model (o : SqlRM) : Write :=
  match identity o with
  | Some id => UpdateModel id (attrs o)
  | None => InsertModel (attrs o)
  end.

Definition write_of_version (o : SqlMV) : Write :=
  match identity o with
  | Some id => UpdateVersion id (attrs o)
  | None => InsertVersion (attrs o)
  end.

(** The objects the store passes to [session.add], [add_all] and
    [delete]. *)
Inductive Obj :=
| ObjModel (o : SqlRM)
| ObjVersion (o : SqlMV).

Definition write_of (o : Obj) : Write :=
  match o with
  | ObjModel m => write_of_model m
  | ObjVersion v => write_of_version v
  end.

Fixpoint stage_writes (ws : list Write) : M unit :=
  match ws with
  | [] => ret tt
  | w :: ws' => stage_write w ;; stage_writes ws'
  end.

(** [session.add(obj)] *)
Definition session_add (o : Obj) : M unit :=
  effect Add ;; stage_write (write_of o).

(** [session.add_all(objs)] *)
Definition session_add_all (os : list Obj) : M unit :=
  effect (Add_all (List.length os)) ;; stage_writes (map write_of os).

(** [session.delete(obj)]: only loaded objects are ever deleted. *)
Definition session_delete (o : Obj) : M unit :=
  effect Delete ;;
  match o with
  | ObjModel m =>
      match identity m with
      | Some id => stage_write (DeleteModel id)
      | None => ret tt
      end
  | ObjVersion v =>
      match identity v with
      | Some id => stage_write (DeleteVersion id)
      | None => ret tt
      end
  end.

(** The text of the driver's integrity error. *)
Definition integrity_text : string := "IntegrityError".

(** Sending the pending writes: all of them reach the tables, or a
    constraint is violated and none does. Either way nothing stays
    pending. *)
Definition send_pending (s : Session) : option Database * Session :=
  let c := hd nobody (schedule s) in
  let rest := tl (schedule s) in
  match apply_writes c (view s) (pending s) with
  | Some db' => (Some db', mkSession db' [] rest (effects s))
  | None => (None, mkSession (view s) [] rest (effects s))
  end.

(** [session.flush()]: a flush that violates a constraint raises
    [IntegrityError] and leaves the session inactive. *)
Definition session_flush : M unit :=
  effect Flush ;;
  needs_transaction
    (fun s =>
       match send_pending s with
       | (Some _, s') => (Ok tt, Active s')
       | (None, s') => (Raise (IntegrityError integrity_text), Inactive s')
       end).

(** The steps of a managed session scope, around the effects of its
    body. *)
Inductive ScopeEvent :=
| Open
| Within (e : Effect)
| Commit
| Rollback
| Close.

(** Modelled from the spec: [ManagedSessionMaker] comes from
    [mlflow.store.db.utils], which is not part of the sources at hand.
    Section 4.3: on normal exit, commit; on any exception, roll back;
    the session is always released. A commit first sends what is still
    pending; on an inactive session it raises like any other statement
    that goes to the database, and the scope rolls back. *)
Definition ManagedSessionMaker {A} (body : M A)
    (sched : list Concurrent) (db : Database)
  : Exc A * Database * list ScopeEvent :=
  match body (Active (mkSession db [] sched [])) with
  | (Ok a, Active s) =>
      match send_pending s with
      | (Some db', _) =>
          (Ok a, db', Open :: map Within (effects s) ++ [Commit; Close])
      | (None, _) =>
          (Raise (IntegrityError integrity_text), db,
           Open :: map Within (effects s) ++ [Commit; Rollback; Close])
      end
  | (Ok a, Inactive s) =>
      (Raise (InvalidRequestError inactive_text), db,
       Open :: map Within (effects s) ++ [Commit; Rollback; Close])
  | (Raise e, t) =>
      (Raise e, db,
       Open :: map Within (effects (session_of t)) ++ [Rollback; Close])
  end.

(** A store operation: given what concurrent transactions will have
    taken at each flush and the committed tables, its outcome, the
    tables afterwards, and the steps of the session scopes it opened. *)
Definition Op (A : Type) : Type :=
  list Concurrent -> Database -> Exc A * Database * list ScopeEvent.

(** An exception raised before any session is opened. *)
Definition fail_early {A} (e : Exn) : Op A := fun _ db => (Raise e, db, []).

Definition outcome {A} (r : Exc A * Database * list ScopeEvent) : Exc A :=
  fst (fst r).
Definition tables_after {A} (r : Exc A * Database * list ScopeEvent)
  : Database := snd (fst r).
Definition trace {A} (r : Exc A * Database * list ScopeEvent)
  : list ScopeEvent := snd r.

(* ================================================================= *)
(** ** Mapped classes *)

(** Modelled from the spec: [SqlRegisteredModel.to_mlflow_entity], the
    row as a plain entity. *)
Definition rm_to_mlflow_entity (o : SqlRM) : RegisteredModel :=
  mkRegisteredModel (rm_name (attrs o)).

(** Modelled from the spec: [SqlModelVersion.to_mlflow_entity]. *)
Definition mv_to_mlflow_entity (o : SqlMV) : ModelVersion :=
  mkModelVersion (mkRegisteredModel (mv_name (attrs o))) (mv_version (attrs o)).

(** Modelled from the spec: the snapshot of a version row. *)
Definition detailed (v : SqlModelVersion) : ModelVersionDetailed :=
  mkModelVersionDetailed
    (mkRegisteredModel (mv_name v)) (mv_version v)
    (mv_creation_time v) (mv_last_updated_time v) (mv_description v)
    (mv_current_stage v) (mv_source v) (mv_run_id v).

(** Modelled from the spec: [SqlModelVersion.to_mlflow_detailed_entity]. *)
Definition mv_to_mlflow_detailed_entity (o : SqlMV) : ModelVersionDetailed :=
  detailed (attrs o).

(** The rows of the version table that belong to the model stored under
    [id]. *)
Definition owned_by (id : string) (db : Database) : list SqlModelVersion :=
  filter (fun v => (mv_name v =? id)%string) (model_versions db).

(** Modelled from the spec: the relationship
    [SqlRegisteredModel.model_versions] is declared in the absent
    [dbmodels.models]. A registered model owns the version rows that
    carry its name; the collection is loaded through the key the model
    is stored under. *)
Definition rm_model_versions (o : SqlRM) : M (list SqlMV) :=
  match identity o with
  | Some id =>
      needs_transaction
        (fun s => (Ok (map loaded_version (owned_by id (view s))), Active s))
  | None => ret []
  end.

(** First occurrences, in order. *)
Fixpoint distinct (l : list string) : list string :=
  match l with
  | [] => []
  | x :: r => x :: filter (fun y => negb (y =? x)%string) (distinct r)
  end.

(** The row with the highest version number, the earliest of them when
    several share it. *)
Fixpoint highest (vs : list SqlModelVersion) : option SqlModelVersion :=
  match vs with
  | [] => None
  | v :: r =>
      match highest r with
      | Some w => if mv_version v <? mv_version w then Some w else Some v
      | None => Some v
      end
  end.

Definition in_stage (stage : string) (vs : list SqlModelVersion)
  : list SqlModelVersion :=
  filter (fun v => (mv_current_stage v =? stage)%string) vs.

Definition opt_list {A} (o : option A) : list A :=
  match o with
  | Some a => [a]
  | None => []
  end.

(** Modelled from the spec: [latest_versions] is computed by
    [SqlRegisteredModel.to_mlflow_detailed_entity] in the absent
    [dbmodels.models]. Section 4.1: per stage, the version with the
    highest version number currently in that stage. *)
Definition latest_per_stage (vs : list SqlModelVersion)
  : list SqlModelVersion :=
  flat_map (fun stage => opt_list (highest (in_stage stage vs)))
           (distinct (map mv_current_stage vs)).

(** Modelled from the spec:
    [SqlRegisteredModel.to_mlflow_detailed_entity], the row with the
    latest versions of its stages. *)
Definition rm_to_mlflow_detailed_entity (o : SqlRM) : M RegisteredModelDetailed :=
  vs <- rm_model_versions o ;;
  ret (mkRegisteredModelDetailed
         (rm_name (attrs o)) (rm_creation_time (attrs o))
         (rm_last_updated_time (attrs o)) (rm_description (attrs o))
         (map detailed (latest_per_stage (map (@attrs _ _) vs)))).

(** Attribute assignment on mapped objects. *)
Definition set_rm_name (n : string) (o : SqlRM) : SqlRM :=
  mkMapped (identity o)
    (mkSqlRegisteredModel n (rm_creation_time (attrs o))
       (rm_last_updated_time (attrs o)) (rm_description (attrs o))).

Definition set_rm_description (d : string) (o : SqlRM) : SqlRM :=
  mkMapped (identity o)
    (mkSqlRegisteredModel (rm_name (attrs o)) (rm_creation_time (attrs o))
       (rm_last_updated_time (attrs o)) (Some d)).

Definition with_name (n : string) (v : SqlModelVersion) : SqlModelVersion :=
  mkSqlModelVersion n (mv_version v) (mv_creation_time v)
    (mv_last_updated_time v) (mv_description v) (mv_current_stage v)
    (mv_source v) (mv_run_id v).

Definition with_stage (st : string) (v : SqlModelVersion) : SqlModelVersion :=
  mkSqlModelVersion (mv_name v) (mv_version v) (mv_creation_time v)
    (mv_last_updated_time v) (mv_description v) st
    (mv_source v) (mv_run_id v).

Definition with_description (d : string) (v : SqlModelVersion)
  : SqlModelVersion :=
  mkSqlModelVersion (mv_name v) (mv_version v) (mv_creation_time v)
    (mv_last_updated_time v) (Some d) (mv_current_stage v)
    (mv_source v) (mv_run_id v).

Definition set_mv_name (n : string) (o : SqlMV) : SqlMV :=
  mkMapped (identity o) (with_name n (attrs o)).
Definition set_mv_current_stage (st : string) (o : SqlMV) : SqlMV :=
  mkMapped (identity o) (with_stage st (attrs o)).
Definition set_mv_description (d : string) (o : SqlMV) : SqlMV :=
  mkMapped (identity o) (with_description d (attrs o)).

(* ================================================================= *)
(** ** Collaborators outside the sources *)

(** One comparison of a parsed filter: the dictionary with the keys
    ["key"], ["comparator"] and ["value"]. *)
Record Comparison := mkComparison {
  key : string;
  comparator : string;
  value : string
}.

Definition lower_ascii (c : ascii) : ascii :=
  let n := nat_of_ascii c in
  if ((65 <=? n) && (n <=? 90))%nat then ascii_of_nat (n + 32) else c.

Fixpoint lower (s : string) : string :=
  match s with
  | EmptyString => EmptyString
  | String c r => String (lower_ascii c) (lower r)
  end.

Definition STAGE_STAGING : string := "Staging".
Definition STAGE_PRODUCTION : string := "Production".
Definition STAGE_ARCHIVED : string := "Archived".

Definition ALL_STAGES : list string :=
  [STAGE_NONE; STAGE_STAGING; STAGE_PRODUCTION; STAGE_ARCHIVED].

(** Modelled from the spec: [get_canonical_stage] of the absent
    [model_version_stages]. Section 3 and the glossary: a stage is one
    of a small canonical set (None, Staging, Production, Archived),
    normalised over letter case; unrecognised text is rejected as an
    invalid argument. *)
Definition spec_get_canonical_stage (stage : string) : Exc string :=
  match find (fun c => (lower c =? lower stage)%string) ALL_STAGES with
  | Some c => Ok c
  | None =>
      Raise (MlflowException
               ("Invalid Model Version stage " ++ stage ++ ".")%string
               (Some INVALID_PARAMETER_VALUE))
  end.

(** Modelled from the spec: [DEFAULT_STAGES_FOR_GET_LATEST_VERSIONS] of
    the absent [model_version_stages]. Section 4.1: the two canonical
    stages that denote pre-production and production. *)
Definition spec_DEFAULT_STAGES_FOR_GET_LATEST_VERSIONS : list string :=
  [STAGE_STAGING; STAGE_PRODUCTION].

(** Modelled from the spec: [SearchUtils.parse_filter_for_model_registry]
    is not part of the sources at hand. Section 4.2 has an empty or
    absent filter string carry no predicate, and section 7 has
    malformed input fail with InvalidArgument. The stand-in knows a
    fixed table of well-formed filter strings with their comparisons
    and rejects every other string as malformed. *)
Definition table_parser (table : list (string * list Comparison))
    (filter_string : option string) : Exc (list Comparison) :=
  match filter_string with
  | None => Ok []
  | Some EmptyString => Ok []
  | Some f =>
      match find (fun e => (fst e =? f)%string) table with
      | Some e => Ok (snd e)
      | None =>
          Raise (MlflowException ("Error while parsing filter " ++ f)%string
                   (Some INVALID_PARAMETER_VALUE))
      end
  end.

(* ================================================================= *)
(** ** SqlAlchemyStore *)

Definition CREATE_MODEL_VERSION_RETRIES : Z := 3.

(** [range(n)] *)
Definition range (n : Z) : list Z :=
  map Z.of_nat (seq 0 (Z.to_nat n)).

(** [_save_to_db(session, objs)]: a list goes to [add_all], a single
    object to [add]. *)
Definition _save_to_db (objs : Obj + list Obj) : M unit :=
  match objs with
  | inr l => session_add_all l
  | inl o => session_add o
  end.

Definition _get_registered_model (name : string) : M SqlRM :=
  rms <- query_registered_models (fun r => (rm_name r =? name)%string) ;;
  if len rms =? 0 then
    raise (MlflowException
             ("Registered Model with name=" ++ name ++ " not found")%string
             (Some RESOURCE_DOES_NOT_EXIST))
  else if len rms >? 1 then
    raise (MlflowException
             ("Expected only 1 registered model with name=" ++ name
              ++ ". Found " ++ py_str (len rms) ++ ".")%string
             (Some INVALID_STATE))
  else
    match rms with
    | rm :: _ => ret rm
    | [] => raise IndexError
    end.

Definition _get_sql_model_version (model_version : ModelVersion) : M SqlMV :=
  let name := get_name model_version in
  let version := version model_version in
  versions <- query_model_versions
                (fun v => (mv_name v =? name)%string && (mv_version v =? version)) ;;
  if len versions =? 0 then
    raise (MlflowException
             ("Model Version (name=" ++ name ++ ", version" ++ py_str version
              ++ ") not found")%string
             (Some RESOURCE_DOES_NOT_EXIST))
  else if len versions >? 1 then
    raise (MlflowException
             ("Expected only 1 model version with (name=" ++ name
              ++ ", version" ++ py_str version ++ "). Found "
              ++ py_str (len versions) ++ ".")%string
             (Some INVALID_STATE))
  else
    match versions with
    | v :: _ => ret v
    | [] => raise IndexError
    end.

Definition create_registered_model (name : option string) (now : Z)
  : Op RegisteredModel :=
  match name with
  | None =>
      fail_early (MlflowException "Registered model name cannot be empty."
                    (Some INVALID_PARAMETER_VALUE))
  | Some name =>
      if (name =? EmptyString)%string then
        fail_early (MlflowException "Registered model name cannot be empty."
                      (Some INVALID_PARAMETER_VALUE))
      else
        ManagedSessionMaker
          (try_except_IntegrityError
             (let registered_model :=
                fresh_model (mkSqlRegisteredModel name now now None) in
              _save_to_db (inl (ObjModel registered_model)) ;;
              session_flush ;;
              ret (rm_to_mlflow_entity registered_model))
             (fun e =>
                raise (MlflowException
                         ("Registered Model (name=" ++ name
                          ++ ") already exists. Error: " ++ e)%string
                         (Some RESOURCE_ALREADY_EXISTS))))
  end.

Definition update_registered_model (registered_model : RegisteredModel)
    (new_name description : option string) : Op RegisteredModel :=
  ManagedSessionMaker
    (sql_registered_model <- _get_registered_model (name registered_model) ;;
     try_except_IntegrityError
       (model_versions <- rm_model_versions sql_registered_model ;;
        let '(sql_registered_model, model_versions) :=
          match new_name with
          | Some n => (set_rm_name n sql_registered_model,
                       map (set_mv_name n) model_versions)
          | None => (sql_registered_model, model_versions)
          end in
        let sql_registered_model :=
          match description with
          | Some d => set_rm_description d sql_registered_model
          | None => sql_registered_model
          end in
        _save_to_db (inr (ObjModel sql_registered_model
                          :: map ObjVersion model_versions)) ;;
        session_flush ;;
        ret (rm_to_mlflow_entity sql_registered_model))
       (fun e =>
          raise (MlflowException
                   ("Registered Model (name=" ++ py_str_opt new_name
                    ++ ") already exists. Error: " ++ e)%string
                   (Some RESOURCE_ALREADY_EXISTS)))).

Definition delete_registered_model (registered_model : RegisteredModel)
  : Op unit :=
  ManagedSessionMaker
    (sql_registered_model <- _get_registered_model (name registered_model) ;;
     session_delete (ObjModel sql_registered_model)).

(** [[f(x) for x in l]] where [f] may raise. *)
Fixpoint for_each {A B} (f : A -> M B) (l : list A) : M (list B) :=
  match l with
  | [] => ret []
  | x :: r => y <- f x ;; ys <- for_each f r ;; ret (y :: ys)
  end.

Definition list_registered_models : Op (list RegisteredModelDetailed) :=
  ManagedSessionMaker
    (all <- query_registered_models (fun _ => true) ;;
     for_each rm_to_mlflow_detailed_entity all).

Definition get_registered_model_details (registered_model : RegisteredModel)
  : Op RegisteredModelDetailed :=
  ManagedSessionMaker
    (sql_registered_model <- _get_registered_model (name registered_model) ;;
     rm_to_mlflow_detailed_entity sql_registered_model).

(** [next_version], local to [create_model_version]. *)
Definition next_version (model_versions : list SqlMV) : Z :=
  match map (fun mv => mv_version (attrs mv)) model_versions with
  | v :: vs => fold_left Z.max vs v + 1
  | [] => 1
  end.

Definition retrying_message (name : string) (more_retries : Z) : string :=
  ("Model Version creation error (name=" ++ name ++ ") Retrying "
   ++ py_str more_retries ++ " more time"
   ++ (if more_retries >? 1 then "s" else EmptyString) ++ ".")%string.

Definition giving_up_message (name : string) : string :=
  ("Model Version creation error (name=" ++ name ++ "). Giving up after "
   ++ py_str CREATE_MODEL_VERSION_RETRIES ++ " attempts.")%string.

(** The [try] block inside the loop of [create_model_version]: look the
    model up, number the new version, add it, flush, and [return]. *)
Definition create_model_version_try (name source run_id : string) (now : Z)
  : M (option ModelVersion) :=
  sql_registered_model <- _get_registered_model name ;;
  model_versions <- rm_model_versions sql_registered_model ;;
  let model_version :=
    fresh_version
      (mkSqlModelVersion name (next_version model_versions)
         now now None STAGE_NONE source run_id) in
  session_add (ObjVersion model_version) ;;
  session_flush ;;
  ret (Some (mv_to_mlflow_entity model_version)).

(** The [for attempt in ...] loop of [create_model_version]: [Some] is
    the [return] inside the loop, [None] is the loop running out. *)
Fixpoint create_model_version_loop (name source run_id : string) (now : Z)
    (attempts : list Z) : M (option ModelVersion) :=
  match attempts with
  | [] => ret None
  | attempt :: rest =>
      returned <-
        try_except_IntegrityError
          (create_model_version_try name source run_id now)
          (fun _ =>
             let more_retries := CREATE_MODEL_VERSION_RETRIES - attempt - 1 in
             effect (Log_info (retrying_message name more_retries)) ;;
             ret None) ;;
      match returned with
      | Some mv => ret (Some mv)
      | None => create_model_version_loop name source run_id now rest
      end
  end.

Definition create_model_version (name source run_id : string) (now : Z)
  : Op ModelVersion :=
  fun sched db =>
    match ManagedSessionMaker
            (create_model_version_loop name source run_id now
               (range CREATE_MODEL_VERSION_RETRIES)) sched db with
    | (Ok (Some mv), db', t) => (Ok mv, db', t)
    | (Ok None, db', t) =>
        (Raise (MlflowException (giving_up_message name) None), db', t)
    | (Raise e, db', t) => (Raise e, db', t)
    end.

Definition delete_model_version (model_version : ModelVersion) : Op unit :=
  ManagedSessionMaker
    (sql_model_version <- _get_sql_model_version model_version ;;
     session_delete (ObjVersion sql_model_version)).

Definition get_model_version_details (model_version : ModelVersion)
  : Op ModelVersionDetailed :=
  ManagedSessionMaker
    (sql_model_version <- _get_sql_model_version model_version ;;
     ret (mv_to_mlflow_detailed_entity sql_model_version)).

Definition get_model_version_download_uri (model_version : ModelVersion)
  : Op string :=
  ManagedSessionMaker
    (sql_model_version <- _get_sql_model_version model_version ;;
     ret (mv_source (attrs sql_model_version))).

(** [_verify_registry_tables_exist(engine)], on the table names the
    engine reports. The two expected names are the [__tablename__] of
    the mapped classes, declared outside the sources at hand. *)
Definition _verify_registry_tables_exist
    (registered_models_tablename model_versions_tablename : string)
    (table_names : list string) : Exc unit :=
  let inspected_tables := table_names in
  let expected_tables :=
    [registered_models_tablename; model_versions_tablename] in
  if existsb (fun table => negb (mem_name table inspected_tables))
             expected_tables
  then Raise (MlflowException
                "Database migration in unexpected state. Run manual upgrade."
                None)
  else Ok tt.

Section Collaborators.

(** The helpers the store imports from modules outside the sources at
    hand: the operations are defined for whatever they compute. *)
Variable get_canonical_stage : string -> Exc string.
Variable DEFAULT_STAGES_FOR_GET_LATEST_VERSIONS : list string.
Variable parse_filter_for_model_registry :
  option string -> Exc (list Comparison).

Definition is_empty_stages (stages : option (list string)) : bool :=
  match stages with
  | None => true
  | Some l => len l =? 0
  end.

Definition get_latest_versions (registered_model : RegisteredModel)
    (stages : option (list string)) : Op (list ModelVersionDetailed) :=
  ManagedSessionMaker
    (sql_registered_model <- _get_registered_model (name registered_model) ;;
     detailed_entity <- rm_to_mlflow_detailed_entity sql_registered_model ;;
     let latest_versions := latest_versions detailed_entity in
     expected_stages <-
       (if is_empty_stages stages then
          for_each (fun stage => lift (get_canonical_stage stage))
                   DEFAULT_STAGES_FOR_GET_LATEST_VERSIONS
        else
          for_each (fun stage => lift (get_canonical_stage stage))
                   (match stages with Some l => l | None => [] end)) ;;
     ret (filter (fun mv => mem_name (mvd_current_stage mv) expected_stages)
                 latest_versions)).

Definition update_model_version (model_version : ModelVersion)
    (stage description : option string) : Op unit :=
  ManagedSessionMaker
    (sql_model_version <- _get_sql_model_version model_version ;;
     sql_model_version <-
       match stage with
       | Some st =>
           canonical <- lift (get_canonical_stage st) ;;
           ret (set_mv_current_stage canonical sql_model_version)
       | None => ret sql_model_version
       end ;;
     let sql_model_version :=
       match description with
       | Some d => set_mv_description d sql_model_version
       | None => sql_model_version
       end in
     _save_to_db (inl (ObjVersion sql_model_version))).

Definition unsupported_comparator_message (filter_string : option string)
  : string :=
  ("Model Registry search filter only supports equality(=) "
   ++ "comparator. Input filter string: " ++ py_str_opt filter_string)%string.

Definition invalid_filter_message (filter_string : option string) : string :=
  ("Invalid filter string: " ++ py_str_opt filter_string)%string.

Definition unsupported_shape_message (filter_string : option string)
  : string :=
  ("Model Registry expects filter to be one of "
   ++ dquote ++ "name = '<model_name>'" ++ dquote ++ " or "
   ++ dquote ++ "source_path = '<source_path>'" ++ dquote ++ " or "
   ++ dquote ++ "run_id = '<run_id>'."
   ++ "Input filter string: " ++ py_str_opt filter_string ++ ". ")%string.

(** The [conditions] of [search_model_versions] for a parsed filter,
    each a predicate on version rows. *)
Definition conditions_of (filter_string : option string)
    (parsed_filter : list Comparison)
  : Exc (list (SqlModelVersion -> bool)) :=
  if len parsed_filter =? 0 then Ok []
  else if len parsed_filter =? 1 then
    match parsed_filter with
    | filter_dict :: _ =>
        if negb (comparator filter_dict =? "=")%string then
          Raise (MlflowException
                   (unsupported_comparator_message filter_string)
                   (Some INVALID_PARAMETER_VALUE))
        else if (key filter_dict =? "name")%string then
          Ok [fun v => (mv_name v =? value filter_dict)%string]
        else if (key filter_dict =? "source_path")%string then
          Ok [fun v => (mv_source v =? value filter_dict)%string]
        else if (key filter_dict =? "run_id")%string then
          Ok [fun v => (mv_run_id v =? value filter_dict)%string]
        else
          Raise (MlflowException (invalid_filter_message filter_string)
                   (Some INVALID_PARAMETER_VALUE))
    | [] => Raise IndexError
    end
  else
    Raise (MlflowException (unsupported_shape_message filter_string)
             (Some INVALID_PARAMETER_VALUE)).

Definition search_model_versions (filter_string : option string)
  : Op (PagedList ModelVersionDetailed) :=
  match parse_filter_for_model_registry filter_string with
  | Raise e => fail_early e
  | Ok parsed_filter =>
      match conditions_of filter_string parsed_filter with
      | Raise e => fail_early e
      | Ok conditions =>
          ManagedSessionMaker
            (sql_model_version <-
               query_model_versions
                 (fun v => forallb (fun c => c v) conditions) ;;
             let model_versions_detailed :=
               map mv_to_mlflow_detailed_entity sql_model_version in
             ret (mkPagedList model_versions_detailed None))
      end
  end.

End Collaborators.

(* ================================================================= *)
(** ** The operations of the store as one interface *)

Inductive Request :=
| Create_registered_model (name : option string) (now : Z)
| Update_registered_model (registered_model : RegisteredModel)
    (new_name description : option string)
| Delete_registered_model (registered_model : RegisteredModel)
| List_registered_models
| Get_registered_model_details (registered_model : RegisteredModel)
| Get_latest_versions (registered_model : RegisteredModel)
    (stages : option (list string))
| Create_model_version (name source run_id : string) (now : Z)
| Update_model_version (model_version : ModelVersion)
    (stage description : option string)
| Delete_model_version (model_version : ModelVersion)
| Get_model_version_details (model_version : ModelVersion)
| Get_model_version_download_uri (model_version : ModelVersion)
| Search_model_versions (filter_string : option string).

Inductive Response :=
| A_registered_model (r : RegisteredModel)
| A_registered_model_detailed (r : RegisteredModelDetailed)
| The_registered_models (l : list RegisteredModelDetailed)
| A_model_version (v : ModelVersion)
| A_model_version_detailed (v : ModelVersionDetailed)
| The_model_versions (l : list ModelVersionDetailed)
| A_page (p : PagedList ModelVersionDetailed)
| An_uri (u : string)
| Nothing.

Definition answer {A} (f : A -> Response) (op : Op A) : Op Response :=
  fun sched db =>
    match op sched db with
    | (Ok a, db', t) => (Ok (f a), db', t)
    | (Raise e, db', t) => (Raise e, db', t)
    end.

(** The helpers from outside the sources, together. *)
Record Helpers := mkHelpers {
  h_get_canonical_stage : string -> Exc string;
  h_DEFAULT_STAGES : list string;
  h_parse_filter : option string -> Exc (list Comparison)
}.

Definition call (h : Helpers) (r : Request) : Op Response :=
  match r with
  | Create_registered_model n now =>
      answer A_registered_model (create_registered_model n now)
  | Update_registered_model rm new_name description =>
      answer A_registered_model (update_registered_model rm new_name description)
  | Delete_registered_model rm =>
      answer (fun _ => Nothing) (delete_registered_model rm)
  | List_registered_models =>
      answer The_registered_models list_registered_models
  | Get_registered_model_details rm =>
      answer A_registered_model_detailed (get_registered_model_details rm)
  | Get_latest_versions rm stages =>
      answer The_model_versions
        (get_latest_versions (h_get_canonical_stage h) (h_DEFAULT_STAGES h)
           rm stages)
  | Create_model_version n source run_id now =>
      answer A_model_version (create_model_version n source run_id now)
  | Update_model_version mv stage description =>
      answer (fun _ => Nothing)
        (update_model_version (h_get_canonical_stage h) mv stage description)
  | Delete_model_version mv =>
      answer (fun _ => Nothing) (delete_model_version mv)
  | Get_model_version_details mv =>
      answer A_model_version_detailed (get_model_version_details mv)
  | Get_model_version_download_uri mv =>
      answer An_uri (get_model_version_download_uri mv)
  | Search_model_versions filter_string =>
      answer (@A_page) (search_model_versions (h_parse_filter h) filter_string)
  end.

(** The operations that only read. *)
Definition read_only (r : Request) : bool :=
  match r with
  | List_registered_models
  | Get_registered_model_details _
  | Get_latest_versions _ _
  | Get_model_version_details _
  | Get_model_version_download_uri _
  | Search_model_versions _ => true
  | _ => false
  end.

(** Calls made one after the other, with no transaction in between or
    alongside: each sees the tables the one before left. *)
Fixpoint in_sequence {A} (ops : list (Op A)) (db : Database)
  : list (Exc A) * Database :=
  match ops with
  | [] => ([], db)
  | op :: rest =>
      let '(r, db', _) := op [] db in
      let '(rs, db'') := in_sequence rest db' in
      (r :: rs, db'')
  end.

(* ================================================================= *)
(** ** Sample data *)

Definition spec_helpers (table : list (string * list Comparison)) : Helpers :=
  mkHelpers spec_get_canonical_stage
    spec_DEFAULT_STAGES_FOR_GET_LATEST_VERSIONS (table_parser table).

Definition sample_version (n : string) (v : Z) (stage : string)
  : SqlModelVersion :=
  mkSqlModelVersion n v 100 100 None stage "s3://bucket/model" "run".

(** A model [M] with versions 1 to 4 in the stages None, Staging,
    Production, Staging, and a model [Other] without versions. *)
Definition sample_db : Database :=
  mkDatabase
    [ mkSqlRegisteredModel "M" 10 10 None;
      mkSqlRegisteredModel "Other" 20 20 None ]
    [ sample_version "M" 1 "None";
      sample_version "M" 2 "Staging";
      sample_version "M" 3 "Production";
      sample_version "M" 4 "Staging" ].

(** A table that breaks the uniqueness of both keys. *)
Definition broken_db : Database :=
  mkDatabase
    [ mkSqlRegisteredModel "M" 10 10 None;
      mkSqlRegisteredModel "M" 11 11 None ]
    [ sample_version "M" 1 "None";
      sample_version "M" 1 "Staging" ].

(** A concurrent transaction that has taken version [v] of model [M]. *)
Definition took (v : Z) : Concurrent := mkConcurrent [] [("M", v)].

(* ================================================================= *)
(** ** Vocabulary of the properties *)

(** The rows a lookup by name, or by name and version, matches. *)
Definition matching_models (n : string) (db : Database)
  : list SqlRegisteredModel :=
  filter (fun r => (rm_name r =? n)%string) (registered_models db).

Definition matching_versions (mv : ModelVersion) (db : Database)
  : list SqlModelVersion :=
  filter (fun v => (mv_name v =? get_name mv)%string
                   && (mv_version v =? version mv))
         (model_versions db).

(** The session after one more effect. *)
Definition after (e : Effect) (t : SessionState) : SessionState :=
  on_session
    (fun s => mkSession (view s) (pending s) (schedule s) (effects s ++ [e]))
    t.

Definition is_Open (e : ScopeEvent) : bool :=
  match e with Open => true | _ => false end.

Definition is_lookup_of_model (e : ScopeEvent) : bool :=
  match e with Within Query_registered_models => true | _ => false end.

(** How many session scopes a trace opens. *)
Definition scopes_opened (t : list ScopeEvent) : nat :=
  List.length (filter is_Open t).

(** How many attempts [create_model_version] makes: each one starts by
    looking the registered model up. *)
Definition attempts_made (t : list ScopeEvent) : nat :=
  List.length (filter is_lookup_of_model t).

(** A trace that is one session scope, from its opening to its release,
    with nothing but the effects of the operation inside. *)
Definition one_scope (t : list ScopeEvent) : Prop :=
  exists es ending,
    t = Open :: map Within es ++ ending /\
    (ending = [Commit; Close] \/ ending = [Rollback; Close]
     \/ ending = [Commit; Rollback; Close]).

(** Every version row carries the name of a registered model. *)
Definition references_hold (db : Database) : Prop :=
  forall v, In v (model_versions db) ->
    exists r, In r (registered_models db) /\ rm_name r = mv_name v.

(** The key of the version table is unique. *)
Definition version_keys_unique (db : Database) : Prop :=
  NoDup (map version_key (model_versions db)).

(** What each operation looks up first, if anything. *)
Definition model_looked_up (r : Request) : option string :=
  match r with
  | Update_registered_model rm _ _
  | Delete_registered_model rm
  | Get_registered_model_details rm
  | Get_latest_versions rm _ => Some (name rm)
  | Create_model_version n _ _ _ => Some n
  | _ => None
  end.

Definition version_looked_up (r : Request) : option ModelVersion :=
  match r with
  | Update_model_version mv _ _
  | Delete_model_version mv
  | Get_model_version_details mv
  | Get_model_version_download_uri mv => Some mv
  | _ => None
  end.

(** The column a recognised filter key stands for. *)
Definition column_of (k : string) : option (SqlModelVersion -> string) :=
  if (k =? "name")%string then Some mv_name
  else if (k =? "source_path")%string then Some mv_source
  else if (k =? "run_id")%string then Some mv_run_id
  else None.

(** The row [create_model_version] inserts. *)
Definition new_version_row (n source run_id : string) (now v : Z)
  : SqlModelVersion :=
  mkSqlModelVersion n v now now None STAGE_NONE source run_id.

(** Code that only reads: whatever it returns, the view and the pending
    writes of the session are as before, and the session is as usable
    as it was. *)
Definition reads_only {A} (m : M A) : Prop :=
  forall t,
    view (session_of (snd (m t))) = view (session_of t) /\
    pending (session_of (snd (m t))) = pending (session_of t) /\
    is_active (snd (m t)) = is_active t.

(** The row [update_model_version] writes back. *)
Definition updated_version (stage description : option string)
    (v : SqlModelVersion) : SqlModelVersion :=
  let v := match stage with Some st => with_stage st v | None => v end in
  match description with Some d => with_description d v | None => v end.

(** The stages [get_latest_versions] answers for: the default ones when
    [stages] is [None] or empty. *)
Definition requested_stages (dflt : list string)
    (stages : option (list string)) : list string :=
  match stages with
  | None => dflt
  | Some [] => dflt
  | Some l => l
  end.

(** The tables with the new version of model [n] added. *)
Definition with_new_version (n source run_id : string) (now : Z)
    (db : Database) : Database :=
  mkDatabase (registered_models db)
    (model_versions db
     ++ [new_version_row n source run_id now
           (next_version (map loaded_version (owned_by n db)))]).

(** The effects of one attempt of [create_model_version] up to its
    flush. *)
Definition attempt_effects : list Effect :=
  [Query_registered_models; Add; Flush].

(** Whether the [i]-th coming flush of a session finds the next version
    of model [n] taken by a concurrent transaction. *)
Definition conflict (n : string) (db : Database) (sched : list Concurrent)
    (i : nat) : bool :=
  mem_key (n, next_version (map loaded_version (owned_by n db)))
          (taken_versions (nth i sched nobody)).

(** The effects of an attempt that ends in a conflict. *)
Definition failed_attempt (n : string) (attempt : Z) : list Effect :=
  attempt_effects
  ++ [Log_info (retrying_message n
                  (CREATE_MODEL_VERSION_RETRIES - attempt - 1))].

(** One call of [create_model_version] for model [n], with its source,
    run id and clock reading. *)
Definition creation (n : string) (c : string * string * Z) : Op ModelVersion :=
  create_model_version n (fst (fst c)) (snd (fst c)) (snd c).

(** The row of the registered model after [update_registered_model]. *)
Definition updated_model (new_name description : option string)
    (r : SqlRegisteredModel) : SqlRegisteredModel :=
  mkSqlRegisteredModel
    (match new_name with Some n => n | None => rm_name r end)
    (rm_creation_time r) (rm_last_updated_time r)
    (match description with Some d => Some d | None => rm_description r end).

(** What [update_registered_model] with a new name sends at its flush. *)
Definition rename_writes (old new : string) (description : option string)
    (r : SqlRegisteredModel) (db : Database) : list Write :=
  UpdateModel old (updated_model (Some new) description r)
  :: map (fun v => UpdateVersion (version_key v) (with_name new v))
         (owned_by old db).

(** One update of a version row, seen from a row of the table. *)
Definition renamed_by (new : string) (acc x : SqlModelVersion)
  : SqlModelVersion :=
  if key_eqb (version_key acc) (version_key x) then with_name new x else acc.

(** An exception of the store's own kind. *)
Definition is_MlflowException (e : Exn) : Prop :=
  exists m c, e = MlflowException m c.

(** Helpers that raise nothing but [MlflowException]. *)
Definition helpers_raise_MlflowException (h : Helpers) : Prop :=
  (forall stage e, h_get_canonical_stage h stage = Raise e ->
                   is_MlflowException e) /\
  (forall filter_string e, h_parse_filter h filter_string = Raise e ->
                           is_MlflowException e).

(** The key of the table of registered models is unique. *)
Definition model_names_unique (db : Database) : Prop :=
  NoDup (map rm_name (registered_models db)).

(** The constraints of the schema: the key of each table is unique and
    every version row belongs to a registered model. *)
Definition well_formed (db : Database) : Prop :=
  model_names_unique db /\ version_keys_unique db /\ references_hold db.

(** The tables after a series of calls, each with the transactions that
    run beside it, made one after the other. *)
Definition run (h : Helpers) (steps : list (Request * list Concurrent))
    (db : Database) : Database :=
  fold_left (fun d step => tables_after (call h (fst step) (snd step) d))
            steps db.

(** The store before anything is registered. *)
Definition empty_db : Database := mkDatabase [] [].

(** The row [create_registered_model] inserts. *)
Definition new_model_row (n : string) (now : Z) : SqlRegisteredModel :=
  mkSqlRegisteredModel n now now None.

(** What [update_registered_model] sends at its flush. *)
Definition update_writes (old : string) (new_name description : option string)
    (r : SqlRegisteredModel) (db : Database) : list Write :=
  UpdateModel old (updated_model new_name description r)
  :: map (fun v =>
            UpdateVersion (version_key v)
              (match new_name with Some n => with_name n v | None => v end))
         (owned_by old db).

(** The version table without the rows of one key. *)
Definition without_version (k : VersionKey) (db : Database) : Database :=
  mkDatabase (registered_models db)
    (filter (fun x => negb (key_eqb (version_key x) k)) (model_versions db)).

(* ================================================================= *)
(** ** The monad *)

Lemma bind_ok {A B} (m : M A) (f : A -> M B) s a s' :
  m s = (Ok a, s') -> bind m f s = f a s'.
Proof. intros H. unfold bind. now rewrite H. Qed.

Lemma bind_raise {A B} (m : M A) (f : A -> M B) s e s' :
  m s = (Raise e, s') -> bind m f s = (Raise e, s').
Proof. intros H. unfold bind. now rewrite H. Qed.

Lemma none_one_many {A} (l : list A) :
  l = [] \/ (exists x, l = [x]) \/ (1 < List.length l)%nat.
Proof.
  destruct l as [|x [|y l]]; [now left | right; left; now exists x |].
  right. right. cbn. lia.
Qed.

Lemma len_map {A B} (f : A -> B) l : len (map f l) = len l.
Proof. unfold len. now rewrite length_map. Qed.

(* ================================================================= *)
(** ** The two lookups *)

Lemma get_registered_model_none n s :
  matching_models n (view s) = [] ->
  _get_registered_model n s =
    (Raise (MlflowException
              ("Registered Model with name=" ++ n ++ " not found")%string
              (Some RESOURCE_DOES_NOT_EXIST)),
     after Query_registered_models s).
Proof.
  unfold matching_models, _get_registered_model, query_registered_models.
  intros H. cbn. rewrite H. reflexivity.
Qed.

Lemma get_registered_model_one n s r :
  matching_models n (view s) = [r] ->
  _get_registered_model n s =
    (Ok (loaded_model r), after Query_registered_models s).
Proof.
  unfold matching_models, _get_registered_model, query_registered_models.
  intros H. cbn. rewrite H. reflexivity.
Qed.

Lemma get_registered_model_many n s :
  (1 < List.length (matching_models n (view s)))%nat ->
  _get_registered_model n s =
    (Raise (MlflowException
              ("Expected only 1 registered model with name=" ++ n
               ++ ". Found " ++ py_str (len (matching_models n (view s)))
               ++ ".")%string
              (Some INVALID_STATE)),
     after Query_registered_models s).
Proof.
  unfold matching_models, _get_registered_model, query_registered_models.
  intros H. cbn.
  set (l := filter _ _) in *.
  rewrite len_map.
  assert (E0 : (len l =? 0) = false) by (apply Z.eqb_neq; unfold len; lia).
  assert (E1 : (len l >? 1) = true)
    by (rewrite Z.gtb_ltb; apply Z.ltb_lt; unfold len; lia).
  rewrite E0, E1. reflexivity.
Qed.

Lemma get_sql_model_version_none mv s :
  matching_versions mv (view s) = [] ->
  _get_sql_model_version mv s =
    (Raise (MlflowException
              ("Model Version (name=" ++ get_name mv ++ ", version"
               ++ py_str (version mv) ++ ") not found")%string
              (Some RESOURCE_DOES_NOT_EXIST)),
     after Query_model_versions s).
Proof.
  unfold matching_versions, _get_sql_model_version, query_model_versions.
  intros H. cbn. rewrite H. reflexivity.
Qed.

Lemma get_sql_model_version_one mv s v :
  matching_versions mv (view s) = [v] ->
  _get_sql_model_version mv s =
    (Ok (loaded_version v), after Query_model_versions s).
Proof.
  unfold matching_versions, _get_sql_model_version, query_model_versions.
  intros H. cbn. rewrite H. reflexivity.
Qed.

Lemma get_sql_model_version_many mv s :
  (1 < List.length (matching_versions mv (view s)))%nat ->
  _get_sql_model_version mv s =
    (Raise (MlflowException
              ("Expected only 1 model version with (name=" ++ get_name mv
               ++ ", version" ++ py_str (version mv) ++ "). Found "
               ++ py_str (len (matching_versions mv (view s))) ++ ".")%string
              (Some INVALID_STATE)),
     after Query_model_versions s).
Proof.
  unfold matching_versions, _get_sql_model_version, query_model_versions.
  intros H. cbn.
  set (l := filter _ _) in *.
  rewrite len_map.
  assert (E0 : (len l =? 0) = false) by (apply Z.eqb_neq; unfold len; lia).
  assert (E1 : (len l >? 1) = true)
    by (rewrite Z.gtb_ltb; apply Z.ltb_lt; unfold len; lia).
  rewrite E0, E1. reflexivity.
Qed.

(* ================================================================= *)
(** ** The managed scope *)

Lemma send_nothing s :
  pending s = [] ->
  send_pending s =
    (Some (view s), mkSession (view s) [] (tl (schedule s)) (effects s)).
Proof. unfold send_pending. intros ->. reflexivity. Qed.

Lemma managed_raise {A} (body : M A) sched db e t :
  body (mkSession db [] sched []) = (Raise e, t) ->
  ManagedSessionMaker body sched db =
    (Raise e, db,
     Open :: map Within (effects (session_of t)) ++ [Rollback; Close]).
Proof. unfold ManagedSessionMaker. intros ->. reflexivity. Qed.

Lemma managed_ok_reader {A} (body : M A) sched db a t :
  body (mkSession db [] sched []) = (Ok a, t) ->
  is_active t = true ->
  view (session_of t) = db -> pending (session_of t) = [] ->
  ManagedSessionMaker body sched db =
    (Ok a, db,
     Open :: map Within (effects (session_of t)) ++ [Commit; Close]).
Proof.
  unfold ManagedSessionMaker. intros -> Ha Hv Hp.
  destruct t as [s|s]; [|discriminate Ha]. cbn [session_of] in *.
  rewrite send_nothing by assumption. now rewrite Hv.
Qed.

Lemma managed_one_scope {A} (body : M A) sched db :
  one_scope (trace (ManagedSessionMaker body sched db)).
Proof.
  unfold ManagedSessionMaker, one_scope, trace.
  destruct (body _) as [[a|e] [s|s]].
  - destruct (send_pending s) as [[db'|] s']; cbn;
      exists (effects s); eexists; split; eauto.
  - cbn. exists (effects s); eexists; split; eauto.
  - cbn. exists (effects s); eexists; split; eauto.
  - cbn. exists (effects s); eexists; split; eauto.
Qed.

Lemma managed_tables_on_raise {A} (body : M A) sched db e :
  outcome (ManagedSessionMaker body sched db) = Raise e ->
  tables_after (ManagedSessionMaker body sched db) = db.
Proof.
  unfold ManagedSessionMaker, outcome, tables_after.
  destruct (body _) as [[a|e'] [s|s]]; try reflexivity.
  destruct (send_pending s) as [[db'|] s']; cbn; [discriminate|reflexivity].
Qed.

Lemma filter_Within_Open es :
  filter is_Open (map Within es) = [].
Proof. induction es; cbn; auto. Qed.

Lemma one_scope_opened t : one_scope t -> scopes_opened t = 1%nat.
Proof.
  intros (es & ending & -> & H). unfold scopes_opened. cbn.
  rewrite filter_app, filter_Within_Open. cbn.
  destruct H as [-> | [-> | ->]]; reflexivity.
Qed.

Lemma reads_only_ret {A} (a : A) : reads_only (ret a).
Proof. intros t. cbn. auto. Qed.

Lemma reads_only_raise {A} e : reads_only (@raise A e).
Proof. intros t. cbn. auto. Qed.

Lemma reads_only_lift {A} (r : Exc A) : reads_only (lift r).
Proof. intros t. cbn. auto. Qed.

Lemma reads_only_effect e : reads_only (effect e).
Proof. intros [s|s]; cbn; auto. Qed.

Lemma reads_only_bind {A B} (m : M A) (f : A -> M B) :
  reads_only m -> (forall a, reads_only (f a)) -> reads_only (bind m f).
Proof.
  intros Hm Hf t. unfold bind. specialize (Hm t).
  destruct (m t) as [[a|e] t1]; cbn [snd] in *.
  - destruct (Hf a t1) as (H1 & H2 & H3). destruct Hm as (H4 & H5 & H6).
    repeat split; congruence.
  - assumption.
Qed.

Lemma reads_only_query_registered_models p :
  reads_only (query_registered_models p).
Proof. intros [s|s]; cbn; auto. Qed.

Lemma reads_only_query_model_versions p :
  reads_only (query_model_versions p).
Proof. intros [s|s]; cbn; auto. Qed.

Lemma reads_only_rm_model_versions o : reads_only (rm_model_versions o).
Proof.
  unfold rm_model_versions. destruct (identity o) as [id|].
  - intros [s|s]; cbn; auto.
  - apply reads_only_ret.
Qed.

Lemma reads_only_get_registered_model n : reads_only (_get_registered_model n).
Proof.
  unfold _get_registered_model.
  apply reads_only_bind; [apply reads_only_query_registered_models|].
  intros rms.
  destruct (len rms =? 0); [apply reads_only_raise|].
  destruct (len rms >? 1); [apply reads_only_raise|].
  destruct rms; [apply reads_only_raise | apply reads_only_ret].
Qed.

Lemma reads_only_get_sql_model_version mv :
  reads_only (_get_sql_model_version mv).
Proof.
  unfold _get_sql_model_version.
  apply reads_only_bind; [apply reads_only_query_model_versions|].
  intros vs. cbv zeta.
  destruct (len vs =? 0); [apply reads_only_raise|].
  destruct (len vs >? 1); [apply reads_only_raise|].
  destruct vs; [apply reads_only_raise | apply reads_only_ret].
Qed.

Lemma reads_only_rm_to_mlflow_detailed_entity o :
  reads_only (rm_to_mlflow_detailed_entity o).
Proof.
  unfold rm_to_mlflow_detailed_entity.
  apply reads_only_bind; [apply reads_only_rm_model_versions|].
  intros. apply reads_only_ret.
Qed.

Lemma reads_only_for_each {A B} (f : A -> M B) l :
  (forall a, reads_only (f a)) -> reads_only (for_each f l).
Proof.
  intros Hf. induction l as [|x r IH]; cbn [for_each].
  - apply reads_only_ret.
  - apply reads_only_bind; [apply Hf|]. intros y.
    apply reads_only_bind; [apply IH|]. intros ys. apply reads_only_ret.
Qed.

Create HintDb readers.

#[local] Hint Resolve reads_only_ret reads_only_raise reads_only_lift
  reads_only_effect reads_only_query_registered_models
  reads_only_query_model_versions reads_only_rm_model_versions
  reads_only_get_registered_model reads_only_get_sql_model_version
  reads_only_rm_to_mlflow_detailed_entity : readers.

(** A scope around code that only reads commits nothing new. *)
Lemma managed_reader {A} (body : M A) sched db :
  reads_only body ->
  tables_after (ManagedSessionMaker body sched db) = db.
Proof.
  intros H. unfold ManagedSessionMaker, tables_after.
  specialize (H (Active (mkSession db [] sched []))).
  destruct (body _) as [[a|e] [s|s]]; cbn in *; try reflexivity.
  destruct H as (Hv & Hp & _). rewrite send_nothing by assumption.
  cbn. assumption.
Qed.

Lemma answer_tables {A} (f : A -> Response) (op : Op A) sched db :
  tables_after (answer f op sched db) = tables_after (op sched db).
Proof.
  unfold answer, tables_after.
  destruct (op sched db) as [[[a|e] db'] t]; reflexivity.
Qed.

Lemma answer_raise {A} (f : A -> Response) (op : Op A) sched db e :
  outcome (op sched db) = Raise e ->
  outcome (answer f op sched db) = Raise e.
Proof.
  unfold answer, outcome.
  destruct (op sched db) as [[[a|e'] db'] t]; cbn; congruence.
Qed.

(* ================================================================= *)
(** ** Lookups: none, one, or several rows *)

Lemma is_NotFound_intro m :
  is_NotFound (MlflowException m (Some RESOURCE_DOES_NOT_EXIST)).
Proof. now exists m. Qed.

Lemma is_InvalidState_intro m :
  is_InvalidState (MlflowException m (Some INVALID_STATE)).
Proof. now exists m. Qed.

Lemma is_InvalidArgument_intro m :
  is_InvalidArgument (MlflowException m (Some INVALID_PARAMETER_VALUE)).
Proof. now exists m. Qed.

#[local] Hint Resolve is_NotFound_intro is_InvalidState_intro
  is_InvalidArgument_intro : core.

(** A lookup that raises ends the operation around it: the scope rolls
    back and the exception reaches the caller. *)
Lemma managed_lookup_raises {A B} (lookup : M A) (rest : A -> M B)
    sched db e t :
  lookup (mkSession db [] sched []) = (Raise e, t) ->
  outcome (ManagedSessionMaker (bind lookup rest) sched db) = Raise e /\
  tables_after (ManagedSessionMaker (bind lookup rest) sched db) = db.
Proof.
  intros H.
  rewrite (managed_raise (bind lookup rest) sched db (e := e) (t := t)).
  - split; reflexivity.
  - now apply bind_raise.
Qed.

Lemma create_model_version_lookup_raises n source run_id now sched db e c s :
  _get_registered_model n (mkSession db [] sched []) =
    (Raise (MlflowException e (Some c)), s) ->
  c = RESOURCE_DOES_NOT_EXIST \/ c = INVALID_STATE ->
  outcome (create_model_version n source run_id now sched db) =
    Raise (MlflowException e (Some c)) /\
  tables_after (create_model_version n source run_id now sched db) = db.
Proof.
  intros H Hc. unfold create_model_version.
  assert (L : create_model_version_loop n source run_id now
                (range CREATE_MODEL_VERSION_RETRIES) (mkSession db [] sched [])
              = (Raise (MlflowException e (Some c)), s)).
  { change (range CREATE_MODEL_VERSION_RETRIES) with [0; 1; 2].
    cbn [create_model_version_loop]. unfold bind at 1.
    unfold try_except_IntegrityError, create_model_version_try.
    rewrite (bind_raise _ _ _ H). reflexivity. }
  rewrite (managed_raise _ sched db L). split; reflexivity.
Qed.

(** What the operations that start with a lookup by name do when the
    lookup raises. *)
Lemma call_model_lookup_raises h r n sched db e c s :
  model_looked_up r = Some n ->
  _get_registered_model n (mkSession db [] sched []) =
    (Raise (MlflowException e (Some c)), s) ->
  c = RESOURCE_DOES_NOT_EXIST \/ c = INVALID_STATE ->
  outcome (call h r sched db) = Raise (MlflowException e (Some c)) /\
  tables_after (call h r sched db) = db.
Proof.
  intros Hr H Hc.
  destruct r; cbn in Hr; try discriminate; injection Hr as <-;
    cbn [call]; rewrite answer_tables;
    match goal with
    | |- outcome (answer ?f ?op _ _) = _ /\ _ =>
        cut (outcome (op sched db) = Raise (MlflowException e (Some c))
             /\ tables_after (op sched db) = db);
        [intros [? ?]; split; [now apply answer_raise | assumption]|]
    end;
    try (apply (managed_lookup_raises _ _ _ _ H)).
  eapply create_model_version_lookup_raises; eauto.
Qed.

Lemma call_version_lookup_raises h r mv sched db e s :
  version_looked_up r = Some mv ->
  _get_sql_model_version mv (mkSession db [] sched []) = (Raise e, s) ->
  outcome (call h r sched db) = Raise e /\
  tables_after (call h r sched db) = db.
Proof.
  intros Hr H.
  destruct r; cbn in Hr; try discriminate; injection Hr as <-;
    cbn [call]; rewrite answer_tables;
    match goal with
    | |- outcome (answer ?f ?op _ _) = _ /\ _ =>
        cut (outcome (op sched db) = Raise e
             /\ tables_after (op sched db) = db);
        [intros [? ?]; split; [now apply answer_raise | assumption]|]
    end;
    apply (managed_lookup_raises _ _ _ _ H).
Qed.

(** C8. Every lookup by name, and by name and version, raises NotFound
    ([RESOURCE_DOES_NOT_EXIST]) when no row matches, returns the row
    when exactly one matches, and raises InvalidState ([INVALID_STATE])
    when more than one matches; an operation that starts with such a
    lookup fails with the same error, leaving the tables as they
    were. *)
Theorem lookups_none_one_many :
  forall (h : Helpers) (n : string) (mv : ModelVersion),
    (forall s,
       (matching_models n (view s) = [] ->
        exists e, fst (_get_registered_model n s) = Raise e /\ is_NotFound e) /\
       (forall r, matching_models n (view s) = [r] ->
        fst (_get_registered_model n s) = Ok (loaded_model r)) /\
       ((1 < List.length (matching_models n (view s)))%nat ->
        exists e, fst (_get_registered_model n s) = Raise e
                  /\ is_InvalidState e)) /\
    (forall s,
       (matching_versions mv (view s) = [] ->
        exists e, fst (_get_sql_model_version mv s) = Raise e
                  /\ is_NotFound e) /\
       (forall v, matching_versions mv (view s) = [v] ->
        fst (_get_sql_model_version mv s) = Ok (loaded_version v)) /\
       ((1 < List.length (matching_versions mv (view s)))%nat ->
        exists e, fst (_get_sql_model_version mv s) = Raise e
                  /\ is_InvalidState e)) /\
    (forall r sched db,
       model_looked_up r = Some n ->
       (matching_models n db = [] ->
        exists e, outcome (call h r sched db) = Raise e /\ is_NotFound e
                  /\ tables_after (call h r sched db) = db) /\
       ((1 < List.length (matching_models n db))%nat ->
        exists e, outcome (call h r sched db) = Raise e /\ is_InvalidState e
                  /\ tables_after (call h r sched db) = db)) /\
    (forall r sched db,
       version_looked_up r = Some mv ->
       (matching_versions mv db = [] ->
        exists e, outcome (call h r sched db) = Raise e /\ is_NotFound e
                  /\ tables_after (call h r sched db) = db) /\
       ((1 < List.length (matching_versions mv db))%nat ->
        exists e, outcome (call h r sched db) = Raise e /\ is_InvalidState e
                  /\ tables_after (call h r sched db) = db)).
Proof.
  intros h n mv. repeat split.
  - intros H. rewrite (get_registered_model_none _ _ H). cbn [fst]. eauto.
  - intros r H. now rewrite (get_registered_model_one _ _ H).
  - intros H. rewrite (get_registered_model_many _ _ H). cbn [fst]. eauto.
  - intros H. rewrite (get_sql_model_version_none _ _ H). cbn [fst]. eauto.
  - intros v H. now rewrite (get_sql_model_version_one _ _ H).
  - intros H. rewrite (get_sql_model_version_many _ _ H). cbn [fst]. eauto.
  - intros Hm.
    pose proof (get_registered_model_none n (mkSession db [] sched []) Hm) as L.
    destruct (call_model_lookup_raises h r sched db H L) as [Ho Ht]; eauto.
  - intros Hm.
    pose proof (get_registered_model_many n (mkSession db [] sched []) Hm) as L.
    destruct (call_model_lookup_raises h r sched db H L) as [Ho Ht]; eauto.
  - intros Hm.
    pose proof (get_sql_model_version_none mv (mkSession db [] sched []) Hm) as L.
    destruct (call_version_lookup_raises h r sched db H L) as [Ho Ht]; eauto.
  - intros Hm.
    pose proof (get_sql_model_version_many mv (mkSession db [] sched []) Hm) as L.
    destruct (call_version_lookup_raises h r sched db H L) as [Ho Ht]; eauto.
Qed.

Lemma lookups_none_one_many_witness :
  fst (_get_registered_model "Other" (mkSession sample_db [] [] []))
    = Ok (loaded_model (mkSqlRegisteredModel "Other" 20 20 None)) /\
  (exists e,
     outcome (call (spec_helpers [])
                (Delete_registered_model (mkRegisteredModel "M")) [] broken_db)
       = Raise e /\ is_InvalidState e
     /\ tables_after (call (spec_helpers [])
                        (Delete_registered_model (mkRegisteredModel "M"))
                        [] broken_db) = broken_db) /\
  (exists e,
     outcome (call (spec_helpers [])
                (Get_model_version_details
                   (mkModelVersion (mkRegisteredModel "M") 9)) [] sample_db)
       = Raise e /\ is_NotFound e
     /\ tables_after (call (spec_helpers [])
                        (Get_model_version_details
                           (mkModelVersion (mkRegisteredModel "M") 9))
                        [] sample_db) = sample_db).
Proof.
  destruct (lookups_none_one_many (spec_helpers []) "Other"
              (mkModelVersion (mkRegisteredModel "M") 9))
    as (Hm & _ & _ & Hv).
  destruct (lookups_none_one_many (spec_helpers []) "M"
              (mkModelVersion (mkRegisteredModel "M") 9))
    as (_ & _ & Hc & _).
  split; [|split].
  - apply (Hm (mkSession sample_db [] [] [])). reflexivity.
  - apply (Hc (Delete_registered_model (mkRegisteredModel "M")) [] broken_db).
    + reflexivity.
    + cbn. lia.
  - apply (Hv (Get_model_version_details
                 (mkModelVersion (mkRegisteredModel "M") 9)) [] sample_db).
    + reflexivity.
    + reflexivity.
Defined.

(* ================================================================= *)
(** ** Reading operations *)

Lemma search_model_versions_reads parse filter_string sched db :
  tables_after (search_model_versions parse filter_string sched db) = db.
Proof.
  unfold search_model_versions.
  destruct (parse filter_string) as [parsed|e]; [|reflexivity].
  destruct (conditions_of filter_string parsed) as [conds|e]; [|reflexivity].
  apply managed_reader.
  apply reads_only_bind; auto with readers.
Qed.

Lemma get_latest_versions_reads gcs dflt rm stages sched db :
  tables_after (get_latest_versions gcs dflt rm stages sched db) = db.
Proof.
  unfold get_latest_versions. apply managed_reader.
  apply reads_only_bind; auto with readers. intros o.
  apply reads_only_bind; auto with readers. intros d.
  apply reads_only_bind; auto with readers.
  destruct (is_empty_stages stages);
    apply reads_only_for_each; auto with readers.
Qed.

(** C10. The operations that only read ([list_registered_models],
    [get_registered_model_details], [get_latest_versions],
    [get_model_version_details], [get_model_version_download_uri],
    [search_model_versions]) leave both tables exactly as they were,
    whether they return or raise. *)
Theorem read_only_operations_change_nothing :
  forall (h : Helpers) (r : Request) (sched : list Concurrent) (db : Database),
    read_only r = true ->
    tables_after (call h r sched db) = db.
Proof.
  intros h r sched db Hr.
  destruct r; try discriminate Hr; cbn [call]; rewrite answer_tables.
  - unfold list_registered_models. apply managed_reader.
    apply reads_only_bind; auto with readers. intros.
    apply reads_only_for_each; auto with readers.
  - unfold get_registered_model_details. apply managed_reader.
    apply reads_only_bind; auto with readers.
  - apply get_latest_versions_reads.
  - unfold get_model_version_details. apply managed_reader.
    apply reads_only_bind; auto with readers.
  - unfold get_model_version_download_uri. apply managed_reader.
    apply reads_only_bind; auto with readers.
  - apply search_model_versions_reads.
Qed.

Lemma read_only_operations_change_nothing_witness :
  tables_after
    (call (spec_helpers [])
       (Get_latest_versions (mkRegisteredModel "M") None) [] sample_db)
  = sample_db.
Proof.
  apply (read_only_operations_change_nothing (spec_helpers [])
           (Get_latest_versions (mkRegisteredModel "M") None) [] sample_db).
  reflexivity.
Defined.

(** C9. Whenever [search_model_versions] returns, the paged list it
    returns has no continuation token. *)
Theorem search_model_versions_single_page :
  forall (parse : option string -> Exc (list Comparison))
         (filter_string : option string) (sched : list Concurrent)
         (db : Database) (page : PagedList ModelVersionDetailed),
    outcome (search_model_versions parse filter_string sched db) = Ok page ->
    token page = None.
Proof.
  intros parse fs sched db page. unfold search_model_versions.
  destruct (parse fs) as [parsed|e]; [|discriminate].
  destruct (conditions_of fs parsed) as [conds|e]; [|discriminate].
  unfold ManagedSessionMaker, outcome. cbn.
  intros H. injection H as <-. reflexivity.
Qed.

Lemma search_model_versions_single_page_witness :
  token (mkPagedList (map detailed (model_versions sample_db)) None) = None.
Proof.
  apply (search_model_versions_single_page
           (table_parser []) None [] sample_db).
  reflexivity.
Defined.

(* ================================================================= *)
(** ** Session scopes *)

(** C2. The [with] of [create_model_version] encloses its whole loop, so
    the attempts share one scope and one session, and nothing is rolled
    back between them. For model M of the sample tables, whose next
    version 5 a concurrent transaction has taken: the first attempt
    looks the model up, adds the version and fails at its flush; the
    conflict is logged; the second attempt starts on the same, now
    inactive, session, and its lookup raises [InvalidRequestError],
    which leaves the one scope through its rollback. One scope is
    opened for two attempts, and the only rollback is the one that ends
    the call. *)
Theorem retry_loop_shares_one_scope :
  create_model_version "M" "s3://new" "run9" 7 [took 5] sample_db =
    (Raise (InvalidRequestError inactive_text), sample_db,
     [Open;
      Within Query_registered_models; Within Add; Within Flush;
      Within (Log_info
                "Model Version creation error (name=M) Retrying 2 more times.");
      Within Query_registered_models;
      Rollback; Close])
  /\ scopes_opened
       (trace (create_model_version "M" "s3://new" "run9" 7 [took 5] sample_db))
     = 1%nat
  /\ attempts_made
       (trace (create_model_version "M" "s3://new" "run9" 7 [took 5] sample_db))
     = 2%nat.
Proof. repeat split; vm_compute; reflexivity. Qed.

(* ================================================================= *)
(** ** Searching versions *)

Lemma detailed_of_loaded l :
  map mv_to_mlflow_detailed_entity (map loaded_version l) = map detailed l.
Proof. rewrite map_map. reflexivity. Qed.

Lemma search_with_conditions conds sched db :
  outcome
    (ManagedSessionMaker
       (sql_model_version <-
          query_model_versions (fun v => forallb (fun c => c v) conds) ;;
        let model_versions_detailed :=
          map mv_to_mlflow_detailed_entity sql_model_version in
        ret (mkPagedList model_versions_detailed None)) sched db)
  = Ok (mkPagedList
          (map detailed
             (filter (fun v => forallb (fun c => c v) conds)
                     (model_versions db))) None).
Proof.
  unfold ManagedSessionMaker, outcome. cbn.
  now rewrite detailed_of_loaded.
Qed.

Lemma conditions_of_nil fs : conditions_of fs [] = Ok [].
Proof. reflexivity. Qed.

Lemma conditions_of_one fs c :
  conditions_of fs [c] =
    if negb (comparator c =? "=")%string then
      Raise (MlflowException (unsupported_comparator_message fs)
               (Some INVALID_PARAMETER_VALUE))
    else
      match column_of (key c) with
      | Some col => Ok [fun v => (col v =? value c)%string]
      | None => Raise (MlflowException (invalid_filter_message fs)
                         (Some INVALID_PARAMETER_VALUE))
      end.
Proof.
  unfold conditions_of, column_of. cbn.
  destruct (comparator c =? "=")%string; cbn; [|reflexivity].
  destruct (key c =? "name")%string; [reflexivity|].
  destruct (key c =? "source_path")%string; [reflexivity|].
  destruct (key c =? "run_id")%string; reflexivity.
Qed.

Lemma conditions_of_many fs parsed :
  (1 < List.length parsed)%nat ->
  conditions_of fs parsed =
    Raise (MlflowException (unsupported_shape_message fs)
             (Some INVALID_PARAMETER_VALUE)).
Proof.
  intros H. unfold conditions_of.
  assert (E0 : (len parsed =? 0) = false)
    by (apply Z.eqb_neq; unfold len; lia).
  assert (E1 : (len parsed =? 1) = false)
    by (apply Z.eqb_neq; unfold len; lia).
  now rewrite E0, E1.
Qed.

Lemma search_outcome parse fs sched db parsed :
  parse fs = Ok parsed ->
  outcome (search_model_versions parse fs sched db) =
    match conditions_of fs parsed with
    | Ok conds =>
        Ok (mkPagedList
              (map detailed
                 (filter (fun v => forallb (fun c => c v) conds)
                         (model_versions db))) None)
    | Raise e => Raise e
    end.
Proof.
  intros H. unfold search_model_versions. rewrite H.
  destruct (conditions_of fs parsed) as [conds|e]; [|reflexivity].
  apply search_with_conditions.
Qed.

(** C6, amended. [search_model_versions] hands the filter string to the
    filter parser and raises whatever the parser raises. On the
    comparisons the parser returns, it matches every version when there
    is none, which is what the spec has the parser return for an empty
    or absent filter string; with exactly one comparison whose
    comparator is [=] and whose key is [name], [source_path] or
    [run_id] it returns exactly the versions whose column equals the
    value, in table order; and it fails, always with InvalidArgument
    ([INVALID_PARAMETER_VALUE]), if and only if the single comparison
    has another comparator or an unrecognised key, or there is more
    than one comparison. So a search fails exactly when the parser
    rejects the string or one of these three holds of what it
    returned. *)
Theorem search_model_versions_by_filter :
  forall (parse : option string -> Exc (list Comparison))
         (filter_string : option string) (sched : list Concurrent)
         (db : Database),
    (forall e,
       parse filter_string = Raise e ->
       outcome (search_model_versions parse filter_string sched db)
         = Raise e) /\
    (forall parsed,
       parse filter_string = Ok parsed ->
       (parsed = [] ->
        outcome (search_model_versions parse filter_string sched db)
          = Ok (mkPagedList (map detailed (model_versions db)) None)) /\
       (forall c col,
          parsed = [c] -> comparator c = "=" -> column_of (key c) = Some col ->
          outcome (search_model_versions parse filter_string sched db)
            = Ok (mkPagedList
                    (map detailed
                       (filter (fun v => (col v =? value c)%string)
                               (model_versions db))) None)) /\
       ((exists e,
           outcome (search_model_versions parse filter_string sched db)
             = Raise e)
        <->
        ((exists c, parsed = [c]
                    /\ (comparator c <> "=" \/ column_of (key c) = None))
         \/ (1 < List.length parsed)%nat)) /\
       (forall e,
          outcome (search_model_versions parse filter_string sched db)
            = Raise e ->
          is_InvalidArgument e)) /\
    (parse None = Ok [] ->
     outcome (search_model_versions parse None sched db)
       = Ok (mkPagedList (map detailed (model_versions db)) None)) /\
    (parse (Some EmptyString) = Ok [] ->
     outcome (search_model_versions parse (Some EmptyString) sched db)
       = Ok (mkPagedList (map detailed (model_versions db)) None)) /\
    ((exists e,
        outcome (search_model_versions parse filter_string sched db) = Raise e)
     <->
     ((exists e, parse filter_string = Raise e)
      \/ (exists parsed,
            parse filter_string = Ok parsed /\
            ((exists c, parsed = [c]
                        /\ (comparator c <> "=" \/ column_of (key c) = None))
             \/ (1 < List.length parsed)%nat)))).
Proof.
  intros parse fs sched db.
  assert (Hall : forall fs',
             parse fs' = Ok [] ->
             outcome (search_model_versions parse fs' sched db)
             = Ok (mkPagedList (map detailed (model_versions db)) None)).
  { intros fs' Hp. rewrite (search_outcome parse fs' sched db Hp).
    rewrite conditions_of_nil. cbn [forallb]. now rewrite filter_true. }
  assert (Hparsed : forall parsed,
             parse fs = Ok parsed ->
             (parsed = [] ->
              outcome (search_model_versions parse fs sched db)
              = Ok (mkPagedList (map detailed (model_versions db)) None)) /\
             (forall c col,
                parsed = [c] -> comparator c = "=" ->
                column_of (key c) = Some col ->
                outcome (search_model_versions parse fs sched db)
                = Ok (mkPagedList
                        (map detailed
                           (filter (fun v => (col v =? value c)%string)
                                   (model_versions db))) None)) /\
             ((exists e,
                 outcome (search_model_versions parse fs sched db) = Raise e)
              <->
              ((exists c, parsed = [c]
                          /\ (comparator c <> "="
                              \/ column_of (key c) = None))
               \/ (1 < List.length parsed)%nat)) /\
             (forall e,
                outcome (search_model_versions parse fs sched db) = Raise e ->
                is_InvalidArgument e)).
  { intros parsed Hp.
    rewrite (search_outcome parse fs sched db Hp).
    destruct parsed as [|c [|c' rest]].
    - (* no comparison *)
      rewrite conditions_of_nil. cbn [forallb]. rewrite filter_true.
      repeat split; try discriminate; auto.
      + intros [e He]. discriminate.
      + intros [(c & Hc & _) | Hl]; [discriminate | cbn in Hl; lia].
    - (* one comparison *)
      rewrite conditions_of_one.
      destruct (comparator c =? "=")%string eqn:Ec; cbn [negb].
      + apply String.eqb_eq in Ec.
        destruct (column_of (key c)) as [col|] eqn:Ek.
        * repeat split; try discriminate.
          -- intros c0 col0 Hc _ Hcol. injection Hc as <-.
             rewrite Ek in Hcol. injection Hcol as <-.
             do 3 f_equal. apply filter_ext. intros v. cbn.
             now rewrite andb_true_r.
          -- intros [e He]. discriminate.
          -- intros [(c0 & Hc & [Hn | Hn]) | Hl].
             ++ injection Hc as <-. contradiction.
             ++ injection Hc as <-. congruence.
             ++ cbn in Hl. lia.
        * repeat split; try discriminate.
          -- intros c0 col0 Hc _ Hcol. injection Hc as <-. congruence.
          -- intros _. left. exists c. auto.
          -- intros _. eauto.
          -- intros e He. injection He as <-. auto.
      + apply String.eqb_neq in Ec.
        repeat split; try discriminate.
        * intros c0 col0 Hc Heq _. injection Hc as <-. contradiction.
        * intros _. left. exists c. auto.
        * intros _. eauto.
        * intros e He. injection He as <-. auto.
    - (* several comparisons *)
      rewrite conditions_of_many by (cbn; lia).
      repeat split; try discriminate.
      + intros _. right. cbn. lia.
      + intros _. eauto.
      + intros e He. injection He as <-. auto. }
  split; [|split; [exact Hparsed|split; [apply Hall|split; [apply Hall|]]]].
  - intros e Hp. unfold search_model_versions. now rewrite Hp.
  - destruct (parse fs) as [parsed|e] eqn:Hp.
    + destruct (Hparsed parsed eq_refl) as (_ & _ & Hiff & _).
      rewrite Hiff. split.
      * intros H. right. exists parsed. auto.
      * intros [[e He]|(parsed' & Hp' & H)]; [discriminate|].
        now injection Hp' as <-.
    + split; [intros _; left; eauto|].
      intros _. exists e. unfold search_model_versions. now rewrite Hp.
Qed.

Lemma search_model_versions_by_filter_witness :
  outcome
    (search_model_versions
       (table_parser [("run_id = 'run'", [mkComparison "run_id" "=" "run"])])
       (Some "run_id = 'run'") [] sample_db)
  = Ok (mkPagedList (map detailed (model_versions sample_db)) None).
Proof.
  destruct (search_model_versions_by_filter
              (table_parser
                 [("run_id = 'run'", [mkComparison "run_id" "=" "run"])])
              (Some "run_id = 'run'") [] sample_db)
    as (_ & H & _).
  destruct (H [mkComparison "run_id" "=" "run"] eq_refl) as (_ & H1 & _).
  apply (H1 (mkComparison "run_id" "=" "run") mv_run_id);
    reflexivity.
Defined.

(** C6 as stated fails: a filter string the parser rejects makes the
    search fail with InvalidArgument, although no comparison with
    another comparator or an unrecognised key, and no second
    comparison, has come back from the parser. *)
Lemma rejected_filter_fails_the_search :
  exists e,
    outcome (search_model_versions (table_parser []) (Some "foo") []
               sample_db) = Raise e /\
    is_InvalidArgument e /\
    ~ (exists parsed,
         table_parser [] (Some "foo") = Ok parsed /\
         ((exists c, parsed = [c]
                     /\ (comparator c <> "=" \/ column_of (key c) = None))
          \/ (1 < List.length parsed)%nat)).
Proof.
  eexists. split; [reflexivity|]. split; [apply is_InvalidArgument_intro|].
  intros (parsed & Hp & _). discriminate Hp.
Qed.

(* ================================================================= *)
(** ** Updating a version *)

Lemma key_eqb_refl k : key_eqb k k = true.
Proof.
  unfold key_eqb. now rewrite String.eqb_refl, Z.eqb_refl.
Qed.

Lemma key_eqb_eq k1 k2 : key_eqb k1 k2 = true <-> k1 = k2.
Proof.
  unfold key_eqb. destruct k1 as [n1 v1], k2 as [n2 v2]. cbn.
  rewrite andb_true_iff, String.eqb_eq, Z.eqb_eq.
  split; [intros [-> ->]; reflexivity | intros H; injection H; auto].
Qed.

Lemma updated_version_key stage description v :
  version_key (updated_version stage description v) = version_key v.
Proof. destruct stage, description; reflexivity. Qed.

Lemma update_model_version_raises gcs mv st description sched db v e :
  matching_versions mv db = [v] ->
  gcs st = Raise e ->
  update_model_version gcs mv (Some st) description sched db =
    (Raise e, db, [Open; Within Query_model_versions; Rollback; Close]).
Proof.
  intros Hv Hg. unfold update_model_version.
  match goal with
  | |- ManagedSessionMaker ?body _ _ = _ =>
      assert (B : body (mkSession db [] sched []) =
                    (Raise e, after Query_model_versions
                                (mkSession db [] sched [])))
  end.
  { rewrite (bind_ok _ _ _
               (get_sql_model_version_one mv (mkSession db [] sched []) Hv)).
    unfold bind, lift. rewrite Hg. reflexivity. }
  rewrite (managed_raise _ sched db B). reflexivity.
Qed.

Lemma update_model_version_stores gcs mv stage canonical description
    sched db v :
  matching_versions mv db = [v] ->
  match stage with
  | Some st => gcs st = Ok canonical
  | None => True
  end ->
  update_model_version gcs mv stage description sched db =
    (Ok tt,
     mkDatabase
       (registered_models db)
       (map (fun x =>
               if key_eqb (version_key x) (version_key v)
               then updated_version
                      (match stage with Some _ => Some canonical | None => None end)
                      description v
               else x)
            (model_versions db)),
     [Open; Within Query_model_versions; Within Add; Commit; Close]).
Proof.
  intros Hv Hg. unfold update_model_version, ManagedSessionMaker.
  rewrite (bind_ok _ _ _
             (get_sql_model_version_one mv (mkSession db [] sched []) Hv)).
  destruct stage as [st|].
  - unfold bind at 1. unfold bind at 1. unfold lift. rewrite Hg.
    destruct description as [d|]; cbn;
      unfold send_pending; cbn; rewrite key_eqb_refl; reflexivity.
  - destruct description as [d|]; cbn;
      unfold send_pending; cbn; rewrite key_eqb_refl; reflexivity.
Qed.

Lemma spec_get_canonical_stage_cases stage :
  (exists c, spec_get_canonical_stage stage = Ok c /\ In c ALL_STAGES
             /\ lower c = lower stage) \/
  (exists e, spec_get_canonical_stage stage = Raise e /\ is_InvalidArgument e
             /\ forall c, In c ALL_STAGES -> lower c <> lower stage).
Proof.
  unfold spec_get_canonical_stage.
  destruct (find _ ALL_STAGES) as [c|] eqn:F.
  - left. exists c. apply find_some in F. destruct F as [Hin Heq].
    apply String.eqb_eq in Heq. auto.
  - right. eexists. split; [reflexivity|]. split; [auto|].
    intros c Hin Heq.
    pose proof (find_none _ _ F c Hin) as Hn. cbn in Hn.
    apply String.eqb_neq in Hn. contradiction.
Qed.

(** C7. [update_model_version] passes a given stage through
    [get_canonical_stage] and stores what that returns; when
    [get_canonical_stage] rejects the text, the update fails with that
    very error (an InvalidArgument for the canonical stages of the
    spec) and both tables, hence the stored stage and the rest of the
    version row, are as before. *)
Theorem update_model_version_canonical_stage :
  forall (get_canonical_stage : string -> Exc string)
         (mv : ModelVersion) (stage : string) (description : option string)
         (sched : list Concurrent) (db : Database) (v : SqlModelVersion),
    matching_versions mv db = [v] ->
    (forall canonical,
       get_canonical_stage stage = Ok canonical ->
       outcome (update_model_version get_canonical_stage mv (Some stage)
                  description sched db) = Ok tt /\
       matching_versions mv
         (tables_after (update_model_version get_canonical_stage mv
                          (Some stage) description sched db))
       = [updated_version (Some canonical) description v]) /\
    (forall e,
       get_canonical_stage stage = Raise e ->
       outcome (update_model_version get_canonical_stage mv (Some stage)
                  description sched db) = Raise e /\
       tables_after (update_model_version get_canonical_stage mv (Some stage)
                       description sched db) = db) /\
    ((forall c, In c ALL_STAGES -> lower c <> lower stage) ->
     exists e,
       outcome (update_model_version spec_get_canonical_stage mv (Some stage)
                  description sched db) = Raise e /\
       is_InvalidArgument e /\
       tables_after (update_model_version spec_get_canonical_stage mv
                       (Some stage) description sched db) = db) /\
    (forall any_stage e,
       outcome (update_model_version get_canonical_stage mv any_stage
                  description sched db) = Raise e ->
       tables_after (update_model_version get_canonical_stage mv any_stage
                       description sched db) = db).
Proof.
  intros gcs mv stage description sched db v Hv.
  assert (F : forall any_stage e,
             outcome (update_model_version gcs mv any_stage
                        description sched db) = Raise e ->
             tables_after (update_model_version gcs mv any_stage
                             description sched db) = db).
  { intros any_stage e He. unfold update_model_version in *.
    now apply managed_tables_on_raise with (e := e). }
  split; [|split; [|split; [|exact F]]]; [intros canonical H; split
                                         |intros e H; split|].
  - rewrite (update_model_version_stores gcs mv (Some stage) canonical
               description sched db Hv H). reflexivity.
  - rewrite (update_model_version_stores gcs mv (Some stage) canonical
               description sched db Hv H).
    unfold tables_after, matching_versions in *. cbn [fst snd model_versions].
    rewrite filter_map_swap.
    erewrite filter_ext; [rewrite Hv; cbn; now rewrite key_eqb_refl|].
    intros x. cbn beta.
    destruct (key_eqb (version_key x) (version_key v)) eqn:Ex; [|reflexivity].
    apply key_eqb_eq in Ex.
    pose proof (updated_version_key (Some canonical) description v) as K.
    unfold version_key in *. injection K as K1 K2. injection Ex as E1 E2.
    now rewrite K1, K2, E1, E2.
  - now rewrite (update_model_version_raises gcs mv stage description sched db Hv H).
  - now rewrite (update_model_version_raises gcs mv stage description sched db Hv H).
  - intros Hn.
    destruct (spec_get_canonical_stage_cases stage)
      as [(c & _ & Hin & Heq) | (e & He & Hi & _)].
    + destruct (Hn c Hin Heq).
    + exists e.
      rewrite (update_model_version_raises spec_get_canonical_stage mv
                 stage description sched db Hv He). auto.
Qed.

Lemma update_model_version_canonical_stage_witness :
  (outcome (update_model_version spec_get_canonical_stage
              (mkModelVersion (mkRegisteredModel "M") 2)
              (Some "PRODUCTION") None [] sample_db) = Ok tt /\
   matching_versions (mkModelVersion (mkRegisteredModel "M") 2)
     (tables_after
        (update_model_version spec_get_canonical_stage
           (mkModelVersion (mkRegisteredModel "M") 2)
           (Some "PRODUCTION") None [] sample_db))
   = [sample_version "M" 2 "Production"]) /\
  (exists e,
     outcome (update_model_version spec_get_canonical_stage
                (mkModelVersion (mkRegisteredModel "M") 2)
                (Some "prod") None [] sample_db) = Raise e /\
     is_InvalidArgument e /\
     tables_after
       (update_model_version spec_get_canonical_stage
          (mkModelVersion (mkRegisteredModel "M") 2)
          (Some "prod") None [] sample_db) = sample_db).
Proof.
  split.
  - destruct (update_model_version_canonical_stage
                spec_get_canonical_stage
                (mkModelVersion (mkRegisteredModel "M") 2) "PRODUCTION" None
                [] sample_db (v := sample_version "M" 2 "Staging") eq_refl)
      as (H & _ & _ & _).
    apply (H "Production"). reflexivity.
  - destruct (update_model_version_canonical_stage
                spec_get_canonical_stage
                (mkModelVersion (mkRegisteredModel "M") 2) "prod" None
                [] sample_db (v := sample_version "M" 2 "Staging") eq_refl)
      as (_ & _ & H & _).
    apply H. intros c Hc.
    cbn in Hc. destruct Hc as [<-|[<-|[<-|[<-|[]]]]]; discriminate.
Defined.

(* ================================================================= *)
(** ** The latest version of each stage *)

Lemma mem_name_In n l : mem_name n l = true <-> In n l.
Proof.
  unfold mem_name. rewrite existsb_exists. split.
  - intros (x & Hin & Heq). apply String.eqb_eq in Heq. now subst.
  - intros H. exists n. split; [assumption | apply String.eqb_refl].
Qed.

Lemma distinct_In x l : In x (distinct l) <-> In x l.
Proof.
  induction l as [|y r IH]; cbn; [tauto|].
  rewrite filter_In, IH, negb_true_iff, String.eqb_neq.
  destruct (string_dec y x) as [->|Hne]; [tauto|].
  split; [tauto|]. intros [H|H]; [contradiction|]. right. split; congruence.
Qed.

Lemma distinct_NoDup l : NoDup (distinct l).
Proof.
  induction l as [|y r IH]; cbn; constructor.
  - rewrite filter_In, String.eqb_refl. cbn. intros [_ H]. discriminate.
  - now apply NoDup_filter.
Qed.

Lemma highest_none vs : highest vs = None <-> vs = [].
Proof.
  destruct vs as [|v r]; cbn; [tauto|].
  destruct (highest r) as [w|]; [destruct (mv_version v <? mv_version w)|];
    split; discriminate.
Qed.

Lemma highest_some vs w :
  highest vs = Some w ->
  In w vs /\ forall x, In x vs -> mv_version x <= mv_version w.
Proof.
  revert w. induction vs as [|v r IH]; cbn; [discriminate|].
  intros w. destruct (highest r) as [u|] eqn:Hr.
  - destruct (IH u eq_refl) as [Hin Hmax].
    destruct (Z.ltb_spec (mv_version v) (mv_version u)) as [Hlt|Hge];
      intros H; injection H as <-.
    + split; [auto|]. intros x [<-|Hx]; [lia | auto].
    + split; [auto|]. intros x [<-|Hx]; [lia|].
      specialize (Hmax x Hx). lia.
  - apply highest_none in Hr. subst r.
    intros H; injection H as <-. split; [auto|].
    intros x [<-|[]]. lia.
Qed.

Lemma in_stage_In stage vs x :
  In x (in_stage stage vs) <-> In x vs /\ mv_current_stage x = stage.
Proof. unfold in_stage. now rewrite filter_In, String.eqb_eq. Qed.

(** In the latest versions, the entries of one stage are the highest
    version of that stage and nothing else. *)
Lemma latest_per_stage_of_stage stage vs :
  filter (fun v => (mv_current_stage v =? stage)%string) (latest_per_stage vs)
  = opt_list (highest (in_stage stage vs)).
Proof.
  unfold latest_per_stage.
  assert (G : forall l, NoDup l ->
            filter (fun v => (mv_current_stage v =? stage)%string)
              (flat_map (fun st => opt_list (highest (in_stage st vs))) l)
            = if mem_name stage l
              then opt_list (highest (in_stage stage vs)) else []).
  { induction l as [|t l IH]; intros Hnd; [reflexivity|].
    inversion Hnd as [|? ? Hnotin Hnd']; subst.
    cbn [flat_map]. rewrite filter_app, (IH Hnd').
    unfold mem_name at 2. cbn [existsb]. fold (mem_name stage l).
    destruct (String.eqb_spec stage t) as [->|Hne].
    - destruct (mem_name t l) eqn:Hm;
        [apply mem_name_In in Hm; contradiction|].
      rewrite app_nil_r. cbn [orb].
      destruct (highest (in_stage t vs)) as [w|] eqn:Hw; [|reflexivity].
      apply highest_some in Hw. destruct Hw as [Hw _].
      apply in_stage_In in Hw. destruct Hw as [_ Hw].
      cbn. now rewrite Hw, String.eqb_refl.
    - cbn [orb].
      destruct (highest (in_stage t vs)) as [w|] eqn:Hw; [|reflexivity].
      apply highest_some in Hw. destruct Hw as [Hw _].
      apply in_stage_In in Hw. destruct Hw as [_ Hw].
      cbn. rewrite Hw.
      destruct (String.eqb_spec t stage) as [->|_];
        [contradiction | reflexivity]. }
  rewrite (G _ (distinct_NoDup _)).
  destruct (mem_name stage (distinct (map mv_current_stage vs))) eqn:Hm;
    [reflexivity|].
  destruct (highest (in_stage stage vs)) as [w|] eqn:Hw; [|reflexivity].
  apply highest_some in Hw. destruct Hw as [Hw _].
  apply in_stage_In in Hw. destruct Hw as [Hin Hst].
  assert (Hmem : mem_name stage (distinct (map mv_current_stage vs)) = true).
  { apply mem_name_In, distinct_In. rewrite <- Hst. now apply in_map. }
  congruence.
Qed.

Lemma filter_filter_and {A} (f g : A -> bool) l :
  filter f (filter g l) = filter (fun x => f x && g x) l.
Proof.
  induction l as [|x l IH]; cbn; [reflexivity|].
  destruct (g x); cbn; [|now rewrite andb_false_r].
  rewrite andb_true_r. destruct (f x); now rewrite IH.
Qed.

Lemma attrs_of_loaded l : map (@attrs _ _) (map loaded_version l) = l.
Proof. rewrite map_map. cbn. apply map_id. Qed.

(** Canonicalising a list of stages, one after the other. *)
Lemma for_each_lift_ok {A B} (f : A -> Exc B) l out s :
  Forall2 (fun a b => f a = Ok b) l out ->
  for_each (fun a => lift (f a)) l s = (Ok out, s).
Proof.
  intros H. revert s. induction H as [|a b l out Hab _ IH]; intros s.
  - reflexivity.
  - cbn [for_each]. unfold bind at 1, lift at 1. rewrite Hab.
    unfold bind at 1. now rewrite IH.
Qed.

Lemma get_latest_versions_outcome gcs dflt rm stages sched db r expected :
  matching_models (name rm) db = [r] ->
  Forall2 (fun st c => gcs st = Ok c) (requested_stages dflt stages) expected ->
  outcome (get_latest_versions gcs dflt rm stages sched db) =
    Ok (map detailed
          (filter (fun v => mem_name (mv_current_stage v) expected)
                  (latest_per_stage (owned_by (name rm) db)))).
Proof.
  intros Hm Hf. unfold get_latest_versions.
  match goal with
  | |- outcome (ManagedSessionMaker ?body _ _) = Ok ?res =>
      assert (B : body (mkSession db [] sched []) =
                  (Ok res, after Query_registered_models
                             (mkSession db [] sched [])))
  end.
  { rewrite (bind_ok _ _ _
               (get_registered_model_one (name rm) (mkSession db [] sched []) Hm)).
    unfold bind at 1. cbn -[for_each latest_per_stage].
    assert (E : (if is_empty_stages stages
                 then for_each (fun stage => lift (gcs stage)) dflt
                 else for_each (fun stage => lift (gcs stage))
                        (match stages with Some l => l | None => [] end))
                = for_each (fun stage => lift (gcs stage))
                    (requested_stages dflt stages)).
    { destruct stages as [[|x l]|]; reflexivity. }
    unfold bind at 1. rewrite E.
    rewrite (for_each_lift_ok gcs _ Hf). cbn -[latest_per_stage].
    assert (Hn : rm_name r = name rm).
    { assert (Hin : In r (matching_models (name rm) db))
        by (rewrite Hm; now left).
      apply filter_In in Hin. now apply String.eqb_eq. }
    rewrite Hn, attrs_of_loaded, filter_map_swap. reflexivity. }
  rewrite (@managed_ok_reader _ _ sched db _ _ B); reflexivity.
Qed.

Lemma latest_of_requested_stage c expected vs :
  In c expected ->
  filter (fun e => (mvd_current_stage e =? c)%string)
    (map detailed
       (filter (fun v => mem_name (mv_current_stage v) expected)
               (latest_per_stage vs)))
  = map detailed (opt_list (highest (in_stage c vs))).
Proof.
  intros Hc. rewrite filter_map_swap. cbn [detailed mvd_current_stage].
  rewrite filter_filter_and, <- latest_per_stage_of_stage.
  f_equal. apply filter_ext. intros v.
  destruct (String.eqb_spec (mv_current_stage v) c) as [->|_];
    [|reflexivity].
  cbn. now apply mem_name_In.
Qed.

(** C5. [get_latest_versions] answers for the requested stages, the
    default ones when [stages] is omitted or empty, each after
    [get_canonical_stage]. Every entry of the result is in a requested
    stage. For a requested stage in which the model has a version, the
    result holds exactly one entry of that stage, a version of the model
    in that stage whose number no other version in the stage exceeds;
    for a requested stage without a version it holds none, and the call
    still returns. With versions 1 (None), 2 (Staging), 3 (Production)
    and 4 (Staging) and the default stages of the spec, the result is
    version 4 for Staging and version 3 for Production. *)
Theorem get_latest_versions_per_stage :
  (forall (get_canonical_stage : string -> Exc string)
          (DEFAULT_STAGES : list string)
          (rm : RegisteredModel) (stages : option (list string))
          (sched : list Concurrent) (db : Database)
          (r : SqlRegisteredModel) (expected : list string),
      matching_models (name rm) db = [r] ->
      Forall2 (fun st c => get_canonical_stage st = Ok c)
              (requested_stages DEFAULT_STAGES stages) expected ->
      exists result,
        outcome (get_latest_versions get_canonical_stage DEFAULT_STAGES
                   rm stages sched db) = Ok result /\
        (forall e, In e result -> In (mvd_current_stage e) expected) /\
        (forall c, In c expected ->
           (in_stage c (owned_by (name rm) db) = [] ->
            filter (fun e => (mvd_current_stage e =? c)%string) result = [])
           /\
           (in_stage c (owned_by (name rm) db) <> [] ->
            exists w,
              In w (owned_by (name rm) db) /\
              mv_current_stage w = c /\
              (forall x, In x (owned_by (name rm) db) ->
                         mv_current_stage x = c ->
                         mv_version x <= mv_version w) /\
              filter (fun e => (mvd_current_stage e =? c)%string) result
              = [detailed w]))) /\
  requested_stages spec_DEFAULT_STAGES_FOR_GET_LATEST_VERSIONS None
    = [STAGE_STAGING; STAGE_PRODUCTION] /\
  requested_stages spec_DEFAULT_STAGES_FOR_GET_LATEST_VERSIONS (Some [])
    = [STAGE_STAGING; STAGE_PRODUCTION] /\
  outcome (get_latest_versions spec_get_canonical_stage
             spec_DEFAULT_STAGES_FOR_GET_LATEST_VERSIONS
             (mkRegisteredModel "M") None [] sample_db)
  = Ok [detailed (sample_version "M" 4 "Staging");
        detailed (sample_version "M" 3 "Production")].
Proof.
  split; [|repeat split].
  intros gcs dflt rm stages sched db r expected Hm Hf.
  eexists. split; [eapply get_latest_versions_outcome; eassumption|].
  split.
  - intros e He. apply in_map_iff in He. destruct He as (v & <- & Hv).
    apply filter_In in Hv. destruct Hv as [_ Hv].
    now apply mem_name_In.
  - intros c Hc. rewrite latest_of_requested_stage by assumption. split.
    + intros ->. reflexivity.
    + intros Hne.
      destruct (highest (in_stage c (owned_by (name rm) db))) as [w|] eqn:Hw.
      * exists w. apply highest_some in Hw. destruct Hw as [Hin Hmax].
        apply in_stage_In in Hin. destruct Hin as [Hin Hst].
        repeat split; auto.
        intros x Hx Hs. apply Hmax, in_stage_In. auto.
      * apply highest_none in Hw. contradiction.
Qed.

Lemma get_latest_versions_per_stage_witness :
  exists result,
    outcome (get_latest_versions spec_get_canonical_stage
               spec_DEFAULT_STAGES_FOR_GET_LATEST_VERSIONS
               (mkRegisteredModel "M") (Some ["PRODUCTION"; "archived"])
               [] sample_db) = Ok result /\
    filter (fun e => (mvd_current_stage e =? "Production")%string) result
      = [detailed (sample_version "M" 3 "Production")] /\
    filter (fun e => (mvd_current_stage e =? "Archived")%string) result = [].
Proof.
  destruct get_latest_versions_per_stage as [G _].
  destruct (G spec_get_canonical_stage
              spec_DEFAULT_STAGES_FOR_GET_LATEST_VERSIONS
              (mkRegisteredModel "M") (Some ["PRODUCTION"; "archived"])
              [] sample_db (mkSqlRegisteredModel "M" 10 10 None)
              ["Production"; "Archived"] eq_refl)
    as (result & Ho & _ & Hs).
  - repeat constructor.
  - exists result. split; [exact Ho|]. split.
    + destruct (Hs "Production") as [_ H]; [cbn; auto|].
      destruct H as (w & Hin & Hst & Hmax & Hf); [cbn; discriminate|].
      rewrite Hf. cbn in Hin.
      destruct Hin as [<-|[<-|[<-|[<-|[]]]]]; try discriminate Hst.
      reflexivity.
    + destruct (Hs "Archived") as [H _]; [cbn; auto|].
      apply H. reflexivity.
Defined.

(* ================================================================= *)
(** ** Version numbers *)

Lemma fold_max_bounds l v :
  v <= fold_left Z.max l v /\
  (forall x, In x l -> x <= fold_left Z.max l v) /\
  In (fold_left Z.max l v) (v :: l).
Proof.
  revert v. induction l as [|a l IH]; intros v; cbn [fold_left].
  - split; [lia|]. split; [intros x []|now left].
  - destruct (IH (Z.max v a)) as (H1 & H2 & H3). split; [lia|]. split.
    + intros x [<-|Hx]; [lia | auto].
    + destruct H3 as [H3|H3]; [|right; now right].
      rewrite <- H3.
      destruct (Z.max_spec v a) as [[_ ->]|[_ ->]];
        [right; now left | now left].
Qed.

Lemma next_version_above vs o :
  In o vs -> mv_version (attrs o) < next_version vs.
Proof.
  unfold next_version. intros H.
  apply (in_map (fun mv => mv_version (attrs mv))) in H.
  destruct (map _ vs) as [|v l]; [destruct H|].
  destruct (fold_max_bounds l v) as (H1 & H2 & _).
  destruct H as [<-|H]; [lia|]. specialize (H2 _ H). lia.
Qed.

Lemma next_version_is_max_plus_one vs :
  (vs = [] -> next_version vs = 1) /\
  (vs <> [] ->
   exists m, In m (map (fun mv => mv_version (attrs mv)) vs) /\
             (forall x, In x (map (fun mv => mv_version (attrs mv)) vs) ->
                        x <= m) /\
             next_version vs = m + 1).
Proof.
  split; [intros ->; reflexivity|]. intros Hne. unfold next_version.
  destruct vs as [|o vs]; [contradiction|]. cbn [map].
  set (v := mv_version (attrs o)).
  set (l := map (fun mv : SqlMV => mv_version (attrs mv)) vs).
  destruct (fold_max_bounds l v) as (H1 & H2 & H3).
  exists (fold_left Z.max l v). split; [assumption|]. split; [|reflexivity].
  intros x [<-|Hx]; auto.
Qed.

Lemma next_version_grows vs o :
  mv_version (attrs o) = next_version vs ->
  next_version (vs ++ [o]) = next_version vs + 1.
Proof.
  unfold next_version. destruct vs as [|o' vs]; intros H.
  - cbn in *. lia.
  - cbn [map app] in *. rewrite map_app, fold_left_app. cbn [map fold_left].
    lia.
Qed.

Lemma mem_key_In k l : mem_key k l = true <-> In k l.
Proof.
  unfold mem_key. rewrite existsb_exists. split.
  - intros (x & Hin & Heq). apply key_eqb_eq in Heq. now subst.
  - intros H. exists k. split; [assumption | apply key_eqb_refl].
Qed.

(** The next version of a model is the key of no row. *)
Lemma next_version_is_free n db :
  mem_key (n, next_version (map loaded_version (owned_by n db)))
          (map version_key (model_versions db)) = false.
Proof.
  apply not_true_is_false. intros H. apply mem_key_In in H.
  apply in_map_iff in H. destruct H as (x & Hk & Hin).
  unfold version_key in Hk. injection Hk as Hn Hv.
  assert (Ho : In (loaded_version x) (map loaded_version (owned_by n db))).
  { apply in_map. unfold owned_by. apply filter_In.
    split; [assumption | now apply String.eqb_eq]. }
  apply next_version_above in Ho. cbn in Ho. lia.
Qed.

Lemma matching_models_name n db r :
  matching_models n db = [r] -> rm_name r = n.
Proof.
  intros H. assert (Hin : In r (matching_models n db))
    by (rewrite H; now left).
  apply filter_In in Hin. now apply String.eqb_eq.
Qed.

(* ================================================================= *)
(** ** The loop of create_model_version *)

Lemma session_add_version row (s : Session) :
  session_add (ObjVersion (fresh_version row)) s =
    (Ok tt,
     Active (mkSession (view s) (pending s ++ [InsertVersion row])
               (schedule s) (effects s ++ [Add]))).
Proof. reflexivity. Qed.

(** The flush of one inserted version: it goes through unless the key
    is in the table or taken; a flush that fails leaves the session
    inactive. *)
Lemma session_flush_insert row (s : Session) :
  pending s = [InsertVersion row] ->
  session_flush s =
    if mem_key (version_key row) (map version_key (model_versions (view s)))
       || mem_key (version_key row) (taken_versions (hd nobody (schedule s)))
    then (Raise (IntegrityError integrity_text),
          Inactive
            (mkSession (view s) [] (tl (schedule s)) (effects s ++ [Flush])))
    else (Ok tt,
          Active
            (mkSession (mkDatabase (registered_models (view s))
                          (model_versions (view s) ++ [row]))
               [] (tl (schedule s)) (effects s ++ [Flush]))).
Proof.
  intros Hp. unfold session_flush, bind, effect, needs_transaction, on_session,
    send_pending.
  cbn [view pending schedule effects]. rewrite Hp.
  cbn [apply_writes apply_write].
  destruct (mem_key _ _ || mem_key _ _); reflexivity.
Qed.

(** One attempt on a usable session: the insertion goes through unless a
    concurrent transaction has taken the key; then nothing is written
    and the session is left inactive. *)
Lemma try_step n source run_id now (s : Session) r :
  matching_models n (view s) = [r] ->
  pending s = [] ->
  create_model_version_try n source run_id now s =
    if mem_key (n, next_version (map loaded_version (owned_by n (view s))))
               (taken_versions (hd nobody (schedule s)))
    then
      (Raise (IntegrityError integrity_text),
       Inactive
         (mkSession (view s) [] (tl (schedule s))
            (effects s ++ attempt_effects)))
    else
      (Ok (Some (mkModelVersion (mkRegisteredModel n)
                   (next_version (map loaded_version (owned_by n (view s)))))),
       Active
         (mkSession (with_new_version n source run_id now (view s)) []
            (tl (schedule s)) (effects s ++ attempt_effects))).
Proof.
  intros Hm Hp. unfold create_model_version_try.
  rewrite (bind_ok _ _ _ (get_registered_model_one n s Hm)).
  unfold bind at 1. unfold rm_model_versions at 1.
  cbn [identity loaded_model view after on_session needs_transaction].
  rewrite (matching_models_name _ _ Hm).
  set (v := next_version (map loaded_version (owned_by n (view s)))).
  unfold bind at 1. rewrite session_add_version.
  cbn [view pending schedule effects]. rewrite Hp. cbn [app].
  unfold bind at 1. erewrite session_flush_insert by reflexivity.
  cbn [view pending schedule effects].
  change (version_key
            (mkSqlModelVersion n v now now None STAGE_NONE source run_id))
    with (n, v).
  unfold v at 1. rewrite (next_version_is_free n (view s)). cbn [orb].
  unfold attempt_effects.
  destruct (mem_key (n, v) (taken_versions (hd nobody (schedule s)))).
  - rewrite <- !app_assoc. reflexivity.
  - unfold ret, mv_to_mlflow_entity, with_new_version, new_version_row.
    cbn [attrs fresh_version mv_name mv_version]. fold v.
    rewrite <- !app_assoc. reflexivity.
Qed.

(** An attempt that starts on an inactive session ends at its lookup:
    the query raises [InvalidRequestError], which the handler of the
    loop does not catch. *)
Lemma loop_on_inactive n source run_id now attempt rest s :
  create_model_version_loop n source run_id now (attempt :: rest)
    (Inactive s) =
    (Raise (InvalidRequestError inactive_text),
     Inactive
       (mkSession (view s) (pending s) (schedule s)
          (effects s ++ [Query_registered_models]))).
Proof. reflexivity. Qed.

(** The loop with an attempt to spare: a conflict is logged, and the next
    attempt meets the inactive session. *)
Lemma loop_step n source run_id now attempt attempt' rest (s : Session) r :
  matching_models n (view s) = [r] ->
  pending s = [] ->
  create_model_version_loop n source run_id now (attempt :: attempt' :: rest)
    s =
    if mem_key (n, next_version (map loaded_version (owned_by n (view s))))
               (taken_versions (hd nobody (schedule s)))
    then
      (Raise (InvalidRequestError inactive_text),
       Inactive
         (mkSession (view s) [] (tl (schedule s))
            (effects s ++ attempt_effects
             ++ [Log_info (retrying_message n
                             (CREATE_MODEL_VERSION_RETRIES - attempt - 1));
                 Query_registered_models])))
    else
      (Ok (Some (mkModelVersion (mkRegisteredModel n)
                   (next_version (map loaded_version (owned_by n (view s)))))),
       Active
         (mkSession (with_new_version n source run_id now (view s)) []
            (tl (schedule s)) (effects s ++ attempt_effects))).
Proof.
  intros Hm Hp.
  change (create_model_version_loop n source run_id now
            (attempt :: attempt' :: rest))
    with (returned <-
            try_except_IntegrityError
              (create_model_version_try n source run_id now)
              (fun _ =>
                 let more_retries :=
                   CREATE_MODEL_VERSION_RETRIES - attempt - 1 in
                 effect (Log_info (retrying_message n more_retries)) ;;
                 ret None) ;;
          match returned with
          | Some mv => ret (Some mv)
          | None =>
              create_model_version_loop n source run_id now (attempt' :: rest)
          end).
  unfold bind at 1. unfold try_except_IntegrityError.
  rewrite (try_step n source run_id now s Hm Hp).
  destruct (mem_key _ (taken_versions (hd nobody (schedule s)))).
  - unfold bind at 1, effect at 1, ret at 1. cbn [on_session].
    rewrite loop_on_inactive. cbn [view pending schedule effects].
    rewrite <- !app_assoc. reflexivity.
  - reflexivity.
Qed.

Lemma managed_ok {A} (body : M A) sched db a (s : Session) :
  body (mkSession db [] sched []) = (Ok a, Active s) ->
  pending s = [] ->
  ManagedSessionMaker body sched db =
    (Ok a, view s, Open :: map Within (effects s) ++ [Commit; Close]).
Proof.
  unfold ManagedSessionMaker. intros -> Hp.
  now rewrite send_nothing by assumption.
Qed.

Lemma nth_hd {A} (l : list A) d : hd d l = nth 0 l d.
Proof. destruct l; reflexivity. Qed.

(** What [create_model_version] does for a registered model that
    exists: it returns at its first attempt, or, when the flush of that
    attempt meets a conflict, it ends at the lookup of the second
    attempt with the error of the inactive session. *)
Lemma create_model_version_cases n source run_id now sched db r :
  matching_models n db = [r] ->
  create_model_version n source run_id now sched db =
    if conflict n db sched 0
    then
      (Raise (InvalidRequestError inactive_text), db,
       Open :: map Within (failed_attempt n 0 ++ [Query_registered_models])
            ++ [Rollback; Close])
    else
      (Ok (mkModelVersion (mkRegisteredModel n)
             (next_version (map loaded_version (owned_by n db)))),
       with_new_version n source run_id now db,
       Open :: map Within attempt_effects ++ [Commit; Close]).
Proof.
  intros Hm. unfold create_model_version, conflict. rewrite <- nth_hd.
  change (range CREATE_MODEL_VERSION_RETRIES) with [0; 1; 2].
  pose proof (@loop_step n source run_id now 0 1 [2]
                (mkSession db [] sched []) r Hm eq_refl) as L.
  cbn [view pending schedule effects app] in L.
  destruct (mem_key _ (taken_versions (hd nobody sched))).
  - rewrite (managed_raise _ sched db L). cbn [session_of effects].
    unfold failed_attempt. now rewrite <- app_assoc.
  - rewrite (managed_ok _ sched db L eq_refl). reflexivity.
Qed.

(** C3. [create_model_version] never reaches its giving-up error, and a
    conflict is not retried: for a registered model that exists, when
    the flush of the first attempt meets a conflict, the conflict is
    logged with two retries announced, the lookup of the second attempt
    raises the [InvalidRequestError] of the inactive session, and that
    error, not the giving-up [MlflowException], reaches the caller after
    two attempts begun, with the tables as they were. *)
Theorem create_model_version_conflict_is_not_retried :
  forall (n source run_id : string) (now : Z) (sched : list Concurrent)
         (db : Database),
    CREATE_MODEL_VERSION_RETRIES = 3 /\
    outcome (create_model_version n source run_id now sched db)
      <> Raise (MlflowException
                  ("Model Version creation error (name=" ++ n
                   ++ "). Giving up after 3 attempts.")%string None) /\
    (forall r,
       matching_models n db = [r] ->
       conflict n db sched 0 = true ->
       outcome (create_model_version n source run_id now sched db)
         = Raise (InvalidRequestError inactive_text) /\
       tables_after (create_model_version n source run_id now sched db) = db /\
       trace (create_model_version n source run_id now sched db)
         = [Open;
            Within Query_registered_models; Within Add; Within Flush;
            Within (Log_info (retrying_message n 2));
            Within Query_registered_models;
            Rollback; Close] /\
       attempts_made (trace (create_model_version n source run_id now sched db))
         = 2%nat).
Proof.
  intros n source run_id now sched db.
  split; [reflexivity|]. split.
  - destruct (none_one_many (matching_models n db)) as [Hm|[[r Hm]|Hm]].
    + pose proof (get_registered_model_none n (mkSession db [] sched []) Hm)
        as L.
      destruct (create_model_version_lookup_raises n source run_id now sched
                  db L (or_introl eq_refl)) as [Ho _].
      rewrite Ho. discriminate.
    + rewrite (create_model_version_cases n source run_id now sched db Hm).
      destruct (conflict n db sched 0); discriminate.
    + pose proof (get_registered_model_many n (mkSession db [] sched []) Hm)
        as L.
      destruct (create_model_version_lookup_raises n source run_id now sched
                  db L (or_intror eq_refl)) as [Ho _].
      rewrite Ho. discriminate.
  - intros r Hm Hc.
    rewrite (create_model_version_cases n source run_id now sched db Hm), Hc.
    repeat split.
Qed.

Lemma create_model_version_conflict_is_not_retried_witness :
  outcome (create_model_version "M" "src" "run" 7
             [took 5; took 5; took 5] sample_db)
    = Raise (InvalidRequestError inactive_text) /\
  tables_after (create_model_version "M" "src" "run" 7
                  [took 5; took 5; took 5] sample_db) = sample_db /\
  attempts_made
    (trace (create_model_version "M" "src" "run" 7
              [took 5; took 5; took 5] sample_db)) = 2%nat.
Proof.
  destruct (create_model_version_conflict_is_not_retried "M" "src" "run" 7
              [took 5; took 5; took 5] sample_db)
    as (_ & _ & H).
  destruct (H (mkSqlRegisteredModel "M" 10 10 None) eq_refl eq_refl)
    as (Ho & Ht & _ & Ha).
  split; [exact Ho|]. split; [exact Ht | exact Ha].
Defined.

(* ================================================================= *)
(** ** Numbering versions, one call after the other *)

Lemma no_conflict_alone n db i : conflict n db [] i = false.
Proof. unfold conflict. destruct i; reflexivity. Qed.

Lemma create_model_version_alone n source run_id now db r :
  matching_models n db = [r] ->
  create_model_version n source run_id now [] db =
    (Ok (mkModelVersion (mkRegisteredModel n)
           (next_version (map loaded_version (owned_by n db)))),
     with_new_version n source run_id now db,
     [Open; Within Query_registered_models; Within Add; Within Flush;
      Commit; Close]).
Proof.
  intros Hm.
  rewrite (create_model_version_cases n source run_id now [] db Hm).
  now rewrite no_conflict_alone.
Qed.

Lemma owned_by_with_new_version n source run_id now db :
  owned_by n (with_new_version n source run_id now db) =
  owned_by n db
  ++ [new_version_row n source run_id now
        (next_version (map loaded_version (owned_by n db)))].
Proof.
  unfold owned_by, with_new_version. cbn [model_versions].
  rewrite filter_app. cbn. now rewrite String.eqb_refl.
Qed.

Lemma next_version_with_new_version n source run_id now db :
  next_version
    (map loaded_version (owned_by n (with_new_version n source run_id now db)))
  = next_version (map loaded_version (owned_by n db)) + 1.
Proof.
  rewrite owned_by_with_new_version, map_app. cbn [map].
  now apply next_version_grows.
Qed.

Lemma versions_in_sequence n r calls :
  forall db,
    matching_models n db = [r] ->
    fst (in_sequence (map (creation n) calls) db) =
    map (fun i =>
           Ok (mkModelVersion (mkRegisteredModel n)
                 (next_version (map loaded_version (owned_by n db))
                  + Z.of_nat i)))
        (seq 0 (List.length calls)).
Proof.
  induction calls as [|c calls IH]; intros db Hm; [reflexivity|].
  cbn [map in_sequence List.length seq]. unfold creation at 1.
  rewrite (create_model_version_alone n (fst (fst c)) (snd (fst c)) (snd c)
             db Hm).
  specialize (IH (with_new_version n (fst (fst c)) (snd (fst c)) (snd c) db)
                 Hm).
  destruct (in_sequence _ _) as [rs db''] eqn:E. cbn [fst] in *.
  rewrite IH, next_version_with_new_version, <- seq_shift, map_map.
  f_equal.
  - now rewrite Z.add_0_r.
  - apply map_ext. intros i. do 2 f_equal. lia.
Qed.

(** C1. For a registered model that exists, [create_model_version]
    without concurrent transactions numbers the new version one above
    the highest version number of the model, or 1 when the model has no
    version; so calls made one after the other return consecutive
    numbers in call order from there, which for a model that starts
    without versions are 1, 2, 3 and so on. *)
Theorem create_model_version_numbers :
  forall (n : string) (db : Database) (r : SqlRegisteredModel)
         (calls : list (string * string * Z)),
    matching_models n db = [r] ->
    exists first,
      (owned_by n db = [] -> first = 1) /\
      (owned_by n db <> [] ->
       exists m,
         In m (map mv_version (owned_by n db)) /\
         (forall x, In x (map mv_version (owned_by n db)) -> x <= m) /\
         first = m + 1) /\
      (forall source run_id now,
         outcome (create_model_version n source run_id now [] db)
           = Ok (mkModelVersion (mkRegisteredModel n) first) /\
         tables_after (create_model_version n source run_id now [] db)
           = mkDatabase
               (registered_models db)
               (model_versions db
                ++ [new_version_row n source run_id now first])) /\
      fst (in_sequence (map (creation n) calls) db) =
      map (fun i =>
             Ok (mkModelVersion (mkRegisteredModel n) (first + Z.of_nat i)))
          (seq 0 (List.length calls)).
Proof.
  intros n db r calls Hm.
  exists (next_version (map loaded_version (owned_by n db))).
  destruct (next_version_is_max_plus_one
              (map loaded_version (owned_by n db))) as [H1 H2].
  rewrite map_map in H2. cbn [attrs loaded_version] in H2.
  split; [|split; [|split]].
  - intros E. apply H1. now rewrite E.
  - intros Hne. apply H2. intros E. apply map_eq_nil in E. contradiction.
  - intros source run_id now.
    now rewrite (create_model_version_alone n source run_id now db Hm).
  - now apply versions_in_sequence with (r := r).
Qed.

Lemma create_model_version_numbers_witness :
  fst (in_sequence
         (map (creation "Other") [("a", "r1", 1); ("b", "r2", 2); ("c", "r3", 3)])
         sample_db)
  = [Ok (mkModelVersion (mkRegisteredModel "Other") 1);
     Ok (mkModelVersion (mkRegisteredModel "Other") 2);
     Ok (mkModelVersion (mkRegisteredModel "Other") 3)].
Proof.
  destruct (create_model_version_numbers "Other" sample_db
              (r := mkSqlRegisteredModel "Other" 20 20 None)
              [("a", "r1", 1); ("b", "r2", 2); ("c", "r3", 3)] eq_refl)
    as (first & H1 & _ & _ & H).
  rewrite H, (H1 eq_refl). reflexivity.
Defined.

(* ================================================================= *)
(** ** Renaming a registered model *)

Lemma stage_writes_run ws (s : Session) :
  stage_writes ws s =
    (Ok tt,
     Active (mkSession (view s) (pending s ++ ws) (schedule s) (effects s))).
Proof.
  revert s. induction ws as [|w ws IH]; intros s.
  - destruct s. cbn. now rewrite app_nil_r.
  - cbn [stage_writes]. unfold bind, stage_write. cbn [on_session].
    rewrite IH.
    cbn [view pending schedule effects]. now rewrite <- app_assoc.
Qed.

Lemma session_flush_run (s : Session) :
  session_flush s =
    match apply_writes (hd nobody (schedule s)) (view s) (pending s) with
    | Some db' =>
        (Ok tt,
         Active (mkSession db' [] (tl (schedule s)) (effects s ++ [Flush])))
    | None =>
        (Raise (IntegrityError integrity_text),
         Inactive
           (mkSession (view s) [] (tl (schedule s)) (effects s ++ [Flush])))
    end.
Proof.
  unfold session_flush, bind, effect, needs_transaction, on_session,
    send_pending.
  cbn [view pending schedule effects].
  destruct (apply_writes _ _ _); reflexivity.
Qed.

Lemma rm_model_versions_loaded r (s : Session) :
  rm_model_versions (loaded_model r) s =
    (Ok (map loaded_version (owned_by (rm_name r) (view s))), Active s).
Proof. reflexivity. Qed.

Lemma rm_to_mlflow_detailed_entity_loaded r (s : Session) :
  rm_to_mlflow_detailed_entity (loaded_model r) s =
    (Ok (mkRegisteredModelDetailed (rm_name r) (rm_creation_time r)
           (rm_last_updated_time r) (rm_description r)
           (map detailed (latest_per_stage (owned_by (rm_name r) (view s))))),
     Active s).
Proof.
  unfold rm_to_mlflow_detailed_entity.
  rewrite (bind_ok _ _ _ (rm_model_versions_loaded r s)).
  unfold ret. cbn [attrs loaded_model]. now rewrite attrs_of_loaded.
Qed.

Lemma update_registered_model_run rm new description sched db r :
  matching_models (name rm) db = [r] ->
  update_registered_model rm (Some new) description sched db =
    match apply_writes (hd nobody sched) db
            (rename_writes (name rm) new description r db) with
    | Some db' =>
        (Ok (mkRegisteredModel new), db',
         [Open; Within Query_registered_models;
          Within (Add_all (S (List.length (owned_by (name rm) db))));
          Within Flush; Commit; Close])
    | None =>
        (Raise (MlflowException
                  ("Registered Model (name=" ++ new
                   ++ ") already exists. Error: " ++ integrity_text)%string
                  (Some RESOURCE_ALREADY_EXISTS)), db,
         [Open; Within Query_registered_models;
          Within (Add_all (S (List.length (owned_by (name rm) db))));
          Within Flush; Rollback; Close])
    end.
Proof.
  intros Hm. unfold update_registered_model, ManagedSessionMaker.
  rewrite (bind_ok _ _ _
             (get_registered_model_one (name rm) (mkSession db [] sched []) Hm)).
  unfold try_except_IntegrityError.
  cbn [after on_session view pending schedule effects app].
  rewrite (bind_ok _ _ _ (rm_model_versions_loaded r _)).
  cbn [view]. rewrite (matching_models_name _ _ Hm).
  unfold bind at 1. unfold _save_to_db, session_add_all.
  unfold bind at 1. unfold effect at 1. cbn [on_session].
  rewrite stage_writes_run. cbn [view pending schedule effects app].
  unfold bind at 1. rewrite session_flush_run.
  cbn [view pending schedule effects app].
  assert (W : map write_of
                (ObjModel
                   match description with
                   | Some d => set_rm_description d
                                 (set_rm_name new (loaded_model r))
                   | None => set_rm_name new (loaded_model r)
                   end
                 :: map ObjVersion
                      (map (set_mv_name new)
                         (map loaded_version (owned_by (name rm) db))))
              = rename_writes (name rm) new description r db).
  { unfold rename_writes. cbn [map write_of]. f_equal.
    - rewrite <- (matching_models_name _ _ Hm).
      destruct description; reflexivity.
    - rewrite !map_map. reflexivity. }
  rewrite W.
  cbn [view pending schedule effects app after List.length].
  rewrite !length_map.
  destruct (apply_writes (hd nobody sched) db _) as [db'|].
  - cbn. unfold send_pending. cbn. destruct description; reflexivity.
  - cbn. reflexivity.
Qed.

Lemma version_updates_applied c new cs :
  forall R T db',
    apply_writes c (mkDatabase R T)
      (map (fun v => UpdateVersion (version_key v) (with_name new v)) cs)
    = Some db' ->
    registered_models db' = R /\
    model_versions db' = map (fun y => fold_left (renamed_by new) cs y) T.
Proof.
  induction cs as [|x cs IH]; intros R T db' H.
  - cbn in H. injection H as <-. cbn. now rewrite map_id.
  - cbn [map apply_writes] in H.
    destruct (apply_write c (mkDatabase R T)
                (UpdateVersion (version_key x) (with_name new x)))
      as [db1|] eqn:E; [|discriminate].
    cbn [apply_write registered_models model_versions] in E.
    destruct (negb _ && _); [discriminate|]. injection E as <-.
    destruct (IH _ _ _ H) as [HR HT]. split; [exact HR|].
    rewrite HT, map_map. apply map_ext. intros y. reflexivity.
Qed.

Lemma unique_key_row {l : list SqlModelVersion} {x y} :
  NoDup (map version_key l) -> In x l -> In y l ->
  version_key x = version_key y -> x = y.
Proof.
  induction l as [|a l IH]; intros Hnd Hx Hy Hk; [destruct Hx|].
  cbn in Hnd. inversion Hnd as [|? ? Hnotin Hnd']; subst.
  destruct Hx as [<-|Hx], Hy as [<-|Hy]; auto.
  - exfalso. apply Hnotin. rewrite Hk. now apply in_map.
  - exfalso. apply Hnotin. rewrite <- Hk. now apply in_map.
Qed.

Section Rename.

Variables old new : string.
Variable y : SqlModelVersion.

Lemma other_rows_stay cs :
  mv_name y <> old ->
  (forall x, In x cs -> mv_name x = old) ->
  fold_left (renamed_by new) cs y = y.
Proof.
  intros Hy. induction cs as [|x cs IH]; intros Hcs; [reflexivity|].
  cbn [fold_left]. unfold renamed_by at 2.
  destruct (key_eqb (version_key y) (version_key x)) eqn:E.
  - apply key_eqb_eq in E. unfold version_key in E. injection E as En _.
    rewrite (Hcs x (or_introl eq_refl)) in En. contradiction.
  - apply IH. intros x' Hx'. apply Hcs. now right.
Qed.

Hypothesis y_old : mv_name y = old.

Lemma renamed_row_stays cs :
  (forall x, In x cs -> mv_name x = old) ->
  (forall x, In x cs -> version_key x = version_key y -> x = y) ->
  fold_left (renamed_by new) cs (with_name new y) = with_name new y.
Proof.
  induction cs as [|x cs IH]; intros Hcs Hu; [reflexivity|].
  cbn [fold_left]. unfold renamed_by at 2.
  destruct (key_eqb (version_key (with_name new y)) (version_key x)) eqn:E.
  - apply key_eqb_eq in E. unfold version_key in E. cbn in E.
    injection E as En Ev.
    assert (Hx : x = y).
    { apply Hu; [now left|]. unfold version_key.
      rewrite (Hcs x (or_introl eq_refl)), y_old. now rewrite Ev. }
    rewrite Hx. apply IH; intros x' Hx'; [apply Hcs | apply Hu]; now right.
  - apply IH; intros x' Hx'; [apply Hcs | apply Hu]; now right.
Qed.

Lemma own_row_renamed cs :
  (forall x, In x cs -> mv_name x = old) ->
  (forall x, In x cs -> version_key x = version_key y -> x = y) ->
  In y cs ->
  fold_left (renamed_by new) cs y = with_name new y.
Proof.
  induction cs as [|x cs IH]; intros Hcs Hu Hin; [destruct Hin|].
  cbn [fold_left]. unfold renamed_by at 2.
  destruct (key_eqb (version_key y) (version_key x)) eqn:E.
  - apply key_eqb_eq in E.
    assert (Hx : x = y) by (apply Hu; [now left | now symmetry]).
    rewrite Hx.
    apply renamed_row_stays; intros x' Hx'; [apply Hcs | apply Hu];
      now right.
  - destruct Hin as [->|Hin]; [now rewrite key_eqb_refl in E|].
    apply IH; auto; intros x' Hx'; [apply Hcs | apply Hu]; now right.
Qed.

End Rename.

(** A rename that goes through moves every version of the model to the
    new name and touches no other row. *)
Lemma rename_applied c db old new description r db' :
  version_keys_unique db ->
  apply_writes c db (rename_writes old new description r db) = Some db' ->
  registered_models db' =
    map (fun x => if (rm_name x =? old)%string
                  then updated_model (Some new) description r else x)
        (registered_models db) /\
  model_versions db' =
    map (fun v => if (mv_name v =? old)%string then with_name new v else v)
        (model_versions db) /\
  (new = old \/ ~ In new (map rm_name (registered_models db))).
Proof.
  intros Hu H. unfold rename_writes in H. cbn [apply_writes] in H.
  destruct (apply_write c db _) as [db1|] eqn:E; [|discriminate].
  cbn [apply_write updated_model rm_name] in E.
  destruct (negb (new =? old)%string
            && (mem_name new (map rm_name (registered_models db))
                || mem_name new (taken_models c))) eqn:G; [discriminate|].
  injection E as <-.
  apply version_updates_applied in H. destruct H as [HR HT].
  split; [exact HR|]. split.
  - rewrite HT. apply map_ext_in. intros v Hv.
    assert (Hcs : forall x, In x (owned_by old db) -> mv_name x = old).
    { intros x Hx. apply filter_In in Hx. now apply String.eqb_eq. }
    destruct (String.eqb_spec (mv_name v) old) as [Hn|Hn].
    + apply own_row_renamed with (old := old); auto.
      * intros x Hx Hk. apply filter_In in Hx.
        exact (unique_key_row Hu (proj1 Hx) Hv Hk).
      * apply filter_In. split; [assumption | now apply String.eqb_eq].
    + apply other_rows_stay with (old := old); auto.
  - apply andb_false_iff in G. destruct G as [G|G].
    + left. apply negb_false_iff in G. now apply String.eqb_eq.
    + right. apply orb_false_iff in G. destruct G as [G _].
      intros Hin. apply mem_name_In in Hin. congruence.
Qed.

Lemma get_model_version_details_one mv sched db v :
  matching_versions mv db = [v] ->
  outcome (get_model_version_details mv sched db) = Ok (detailed v).
Proof.
  intros Hv. unfold get_model_version_details.
  match goal with
  | |- outcome (ManagedSessionMaker ?body _ _) = _ =>
      assert (B : body (mkSession db [] sched []) =
                  (Ok (detailed v),
                   after Query_model_versions (mkSession db [] sched [])))
  end.
  { rewrite (bind_ok _ _ _
               (get_sql_model_version_one mv (mkSession db [] sched []) Hv)).
    reflexivity. }
  rewrite (@managed_ok_reader _ _ sched db _ _ B); reflexivity.
Qed.

Lemma update_registered_model_needs_one_row rm new_name description sched db
    e db' t :
  update_registered_model rm new_name description sched db = (Ok e, db', t) ->
  exists r, matching_models (name rm) db = [r].
Proof.
  intros H.
  destruct (matching_models (name rm) db) as [|r [|r' l]] eqn:Hm.
  - pose proof (get_registered_model_none (name rm)
                  (mkSession db [] sched []) Hm) as L.
    unfold update_registered_model in H.
    match type of H with
    | ManagedSessionMaker (bind _ ?rest) _ _ = _ =>
        destruct (managed_lookup_raises _ rest sched db L) as [Ho _]
    end.
    rewrite H in Ho. discriminate Ho.
  - now exists r.
  - assert (Hl : (1 < List.length (matching_models (name rm) db))%nat)
      by (rewrite Hm; cbn; lia).
    pose proof (get_registered_model_many (name rm)
                  (mkSession db [] sched []) Hl) as L.
    unfold update_registered_model in H.
    match type of H with
    | ManagedSessionMaker (bind _ ?rest) _ _ = _ =>
        destruct (managed_lookup_raises _ rest sched db L) as [Ho _]
    end.
    rewrite H in Ho. discriminate Ho.
Qed.

(** C4. When [update_registered_model] with a new name X returns, on
    tables whose version keys are unique and whose versions all belong
    to a registered model: it has done so within one session scope;
    every version the model had carries the name X;
    [get_model_version_details] for X and the number of any version
    that could be looked up before the rename returns that version with
    the name X and everything else as it was; and every version row
    still carries the name of a registered model. *)
Theorem rename_reaches_every_version :
  forall (rm : RegisteredModel) (X : string) (description : option string)
         (sched : list Concurrent) (db : Database)
         (e : RegisteredModel) (db' : Database) (t : list ScopeEvent),
    version_keys_unique db ->
    references_hold db ->
    update_registered_model rm (Some X) description sched db = (Ok e, db', t) ->
    e = mkRegisteredModel X /\
    scopes_opened t = 1%nat /\
    (forall v, In v (model_versions db) -> mv_name v = name rm ->
               In (with_name X v) (model_versions db')) /\
    (forall ver v sched',
       matching_versions (mkModelVersion rm ver) db = [v] ->
       exists d,
         outcome (get_model_version_details
                    (mkModelVersion (mkRegisteredModel X) ver) sched' db')
           = Ok d /\
         name (mvd_registered_model d) = X /\
         mvd_version d = ver /\
         d = detailed (with_name X v)) /\
    references_hold db'.
Proof.
  intros rm X description sched db e db' t Hu Hf H.
  destruct (update_registered_model_needs_one_row _ _ _ _ _ H) as [r Hm].
  assert (Hs : scopes_opened t = 1%nat).
  { apply one_scope_opened.
    change t with (trace (Ok e, db', t)). rewrite <- H.
    apply managed_one_scope. }
  rewrite (update_registered_model_run rm X description sched db Hm) in H.
  destruct (apply_writes _ db _) as [db1|] eqn:W; [|discriminate].
  injection H as <- <- <-.
  destruct (rename_applied _ _ _ _ _ Hu W) as (HR & HT & Hfree).
  assert (Hmoved : forall v, In v (model_versions db) -> mv_name v = name rm ->
                             In (with_name X v) (model_versions db1)).
  { intros v Hv Hn. rewrite HT. apply in_map_iff. exists v.
    split; [|assumption]. now rewrite Hn, String.eqb_refl. }
  split; [reflexivity|]. split; [exact Hs|]. split; [exact Hmoved|]. split.
  - intros ver v sched' Hv.
    assert (Hin : In v (matching_versions (mkModelVersion rm ver) db))
      by (rewrite Hv; now left).
    apply filter_In in Hin. destruct Hin as [Hin Hp].
    apply andb_true_iff in Hp. destruct Hp as [Hpn Hpv].
    apply String.eqb_eq in Hpn. apply Z.eqb_eq in Hpv.
    unfold get_name in Hpn. cbn [registered_model version] in Hpn, Hpv.
    exists (detailed (with_name X v)).
    split; [|cbn; auto].
    apply get_model_version_details_one.
    unfold matching_versions, get_name in *.
    cbn [registered_model version name] in *.
    rewrite HT, filter_map_swap.
    rewrite (filter_ext_in _
               (fun y => (mv_name y =? name rm)%string
                         && (mv_version y =? ver))).
    + rewrite Hv. cbn [map]. now rewrite Hpn, String.eqb_refl.
    + intros y Hy. cbn beta.
      destruct (String.eqb_spec (mv_name y) (name rm)) as [Hn|Hn].
      * cbn. now rewrite String.eqb_refl.
      * cbn [andb].
        destruct (String.eqb_spec (mv_name y) X) as [Hx|Hx]; [|reflexivity].
        exfalso. destruct Hfree as [Hfree|Hfree]; [congruence|].
        apply Hfree. destruct (Hf y Hy) as (r0 & Hr0 & Hn0).
        rewrite <- Hx, <- Hn0. now apply in_map.
  - intros v' Hv'. rewrite HT in Hv'. apply in_map_iff in Hv'.
    destruct Hv' as (v & <- & Hv).
    destruct (String.eqb_spec (mv_name v) (name rm)) as [Hn|Hn].
    + exists (updated_model (Some X) description r). split; [|reflexivity].
      rewrite HR. apply in_map_iff. exists r.
      rewrite (matching_models_name _ _ Hm), String.eqb_refl.
      split; [reflexivity|].
      assert (Hin : In r (matching_models (name rm) db))
        by (rewrite Hm; now left).
      apply filter_In in Hin. tauto.
    + destruct (Hf v Hv) as (r0 & Hr0 & Hn0).
      exists r0. split; [|assumption].
      rewrite HR. apply in_map_iff. exists r0. split; [|assumption].
      destruct (String.eqb_spec (rm_name r0) (name rm)) as [Hc|_];
        [congruence | reflexivity].
Qed.

(** [sample_db] keeps its keys unique and its references whole. *)
Lemma sample_db_well_formed :
  version_keys_unique sample_db /\ references_hold sample_db.
Proof.
  split.
  - unfold version_keys_unique. cbn.
    repeat constructor; cbn; intuition discriminate.
  - intros v Hv. exists (mkSqlRegisteredModel "M" 10 10 None).
    split; [now left|].
    cbn in Hv. destruct Hv as [<-|[<-|[<-|[<-|[]]]]]; reflexivity.
Defined.

Lemma rename_reaches_every_version_witness :
  exists d,
    outcome (get_model_version_details
               (mkModelVersion (mkRegisteredModel "X") 2) []
               (tables_after
                  (update_registered_model (mkRegisteredModel "M") (Some "X")
                     None [] sample_db))) = Ok d /\
    name (mvd_registered_model d) = "X" /\
    mvd_version d = 2 /\
    d = detailed (sample_version "X" 2 "Staging").
Proof.
  destruct (update_registered_model (mkRegisteredModel "M") (Some "X")
              None [] sample_db) as [[[e|ex] db'] t] eqn:E;
    [|vm_compute in E; discriminate E].
  destruct (@rename_reaches_every_version
              (mkRegisteredModel "M") "X" None [] sample_db e db' t
              (proj1 sample_db_well_formed) (proj2 sample_db_well_formed) E)
    as (_ & _ & _ & H & _).
  apply (H 2 (sample_version "M" 2 "Staging") []). reflexivity.
Defined.

(* ================================================================= *)
(** ** How each writing operation runs *)

Lemma session_add_model row (s : Session) :
  session_add (ObjModel (fresh_model row)) s =
    (Ok tt,
     Active (mkSession (view s) (pending s ++ [InsertModel row])
               (schedule s) (effects s ++ [Add]))).
Proof. reflexivity. Qed.

Lemma create_registered_model_run n now sched db :
  n <> EmptyString ->
  create_registered_model (Some n) now sched db =
    if mem_name n (map rm_name (registered_models db))
       || mem_name n (taken_models (hd nobody sched))
    then
      (Raise (MlflowException
                ("Registered Model (name=" ++ n
                 ++ ") already exists. Error: " ++ integrity_text)%string
                (Some RESOURCE_ALREADY_EXISTS)), db,
       [Open; Within Add; Within Flush; Rollback; Close])
    else
      (Ok (mkRegisteredModel n),
       mkDatabase (registered_models db ++ [new_model_row n now])
         (model_versions db),
       [Open; Within Add; Within Flush; Commit; Close]).
Proof.
  intros Hn. unfold create_registered_model.
  destruct (String.eqb_spec n EmptyString) as [E|_]; [contradiction|].
  unfold ManagedSessionMaker, try_except_IntegrityError, _save_to_db.
  unfold bind at 1. rewrite session_add_model.
  cbn [view pending schedule effects app].
  unfold bind at 1. rewrite session_flush_run.
  cbn [view pending schedule effects app apply_writes apply_write].
  change (rm_name (mkSqlRegisteredModel n now now None)) with n.
  destruct (mem_name n (map rm_name (registered_models db))
            || mem_name n (taken_models (hd nobody sched))).
  - reflexivity.
  - unfold ret, send_pending. cbn. reflexivity.
Qed.

Lemma update_registered_model_run_any rm new_name description sched db r :
  matching_models (name rm) db = [r] ->
  update_registered_model rm new_name description sched db =
    match apply_writes (hd nobody sched) db
            (update_writes (name rm) new_name description r db) with
    | Some db' =>
        (Ok (mkRegisteredModel
               (match new_name with Some n => n | None => name rm end)),
         db',
         [Open; Within Query_registered_models;
          Within (Add_all (S (List.length (owned_by (name rm) db))));
          Within Flush; Commit; Close])
    | None =>
        (Raise (MlflowException
                  ("Registered Model (name=" ++ py_str_opt new_name
                   ++ ") already exists. Error: " ++ integrity_text)%string
                  (Some RESOURCE_ALREADY_EXISTS)), db,
         [Open; Within Query_registered_models;
          Within (Add_all (S (List.length (owned_by (name rm) db))));
          Within Flush; Rollback; Close])
    end.
Proof.
  intros Hm. unfold update_registered_model, ManagedSessionMaker.
  rewrite (bind_ok _ _ _
             (get_registered_model_one (name rm) (mkSession db [] sched []) Hm)).
  unfold try_except_IntegrityError.
  cbn [after on_session view pending schedule effects app].
  rewrite (bind_ok _ _ _ (rm_model_versions_loaded r _)).
  cbn [view].
  pose proof (matching_models_name _ _ Hm) as Hname. rewrite Hname.
  assert (W : forall o os,
             (o, os) =
             match new_name with
             | Some n => (set_rm_name n (loaded_model r),
                          map (set_mv_name n)
                            (map loaded_version (owned_by (name rm) db)))
             | None => (loaded_model r,
                        map loaded_version (owned_by (name rm) db))
             end ->
             map write_of
               (ObjModel
                  match description with
                  | Some d => set_rm_description d o
                  | None => o
                  end :: map ObjVersion os)
             = update_writes (name rm) new_name description r db).
  { intros o os E. unfold update_writes. cbn [map write_of].
    destruct new_name as [n|]; injection E as -> ->; f_equal.
    - rewrite <- Hname. destruct description; reflexivity.
    - rewrite !map_map. apply map_ext. intros v. reflexivity.
    - rewrite <- Hname. destruct r, description; reflexivity.
    - rewrite !map_map. apply map_ext. intros v. reflexivity. }
  destruct new_name as [n|].
  - specialize (W _ _ eq_refl).
    unfold bind at 1. unfold _save_to_db, session_add_all.
    unfold bind at 1. unfold effect at 1. cbn [on_session].
    rewrite stage_writes_run. cbn [view pending schedule effects app].
    unfold bind at 1. rewrite session_flush_run.
    cbn [view pending schedule effects app]. rewrite W.
    cbn [view pending schedule effects app after List.length].
    rewrite !length_map.
    destruct (apply_writes (hd nobody sched) db _) as [db'|].
    + cbn. unfold send_pending. cbn. destruct description; reflexivity.
    + cbn. reflexivity.
  - specialize (W _ _ eq_refl).
    unfold bind at 1. unfold _save_to_db, session_add_all.
    unfold bind at 1. unfold effect at 1. cbn [on_session].
    rewrite stage_writes_run. cbn [view pending schedule effects app].
    unfold bind at 1. rewrite session_flush_run.
    cbn [view pending schedule effects app]. rewrite W.
    cbn [view pending schedule effects app after List.length].
    rewrite !length_map.
    destruct (apply_writes (hd nobody sched) db _) as [db'|].
    + destruct description; cbn; unfold send_pending; cbn;
        unfold rm_to_mlflow_entity; cbn; rewrite Hname; reflexivity.
    + cbn. reflexivity.
Qed.

Lemma delete_registered_model_run rm sched db r :
  matching_models (name rm) db = [r] ->
  delete_registered_model rm sched db =
    (Ok tt, delete_model_rows (name rm) db,
     [Open; Within Query_registered_models; Within Delete; Commit; Close]).
Proof.
  intros Hm. unfold delete_registered_model, ManagedSessionMaker.
  rewrite (bind_ok _ _ _
             (get_registered_model_one (name rm) (mkSession db [] sched []) Hm)).
  cbn. unfold send_pending. cbn.
  now rewrite (matching_models_name _ _ Hm).
Qed.

Lemma matching_versions_key mv db v :
  matching_versions mv db = [v] ->
  version_key v = (get_name mv, version mv).
Proof.
  intros H. assert (Hin : In v (matching_versions mv db))
    by (rewrite H; now left).
  apply filter_In in Hin. destruct Hin as [_ Hp].
  apply andb_true_iff in Hp. destruct Hp as [Hn Hv].
  apply String.eqb_eq in Hn. apply Z.eqb_eq in Hv.
  unfold version_key. now rewrite Hn, Hv.
Qed.

Lemma delete_model_version_run mv sched db v :
  matching_versions mv db = [v] ->
  delete_model_version mv sched db =
    (Ok tt, without_version (get_name mv, version mv) db,
     [Open; Within Query_model_versions; Within Delete; Commit; Close]).
Proof.
  intros Hv. unfold delete_model_version, ManagedSessionMaker.
  rewrite (bind_ok _ _ _
             (get_sql_model_version_one mv (mkSession db [] sched []) Hv)).
  cbn. unfold send_pending. cbn.
  now rewrite (matching_versions_key _ _ Hv).
Qed.

Lemma create_model_version_returned n source run_id now sched db mv :
  outcome (create_model_version n source run_id now sched db) = Ok mv ->
  (exists r, matching_models n db = [r]) /\
  mv = mkModelVersion (mkRegisteredModel n)
         (next_version (map loaded_version (owned_by n db))) /\
  tables_after (create_model_version n source run_id now sched db)
    = with_new_version n source run_id now db.
Proof.
  intros H.
  destruct (none_one_many (matching_models n db)) as [Hm|[[r Hm]|Hm]].
  - pose proof (get_registered_model_none n (mkSession db [] sched []) Hm) as L.
    destruct (create_model_version_lookup_raises n source run_id now sched db
                L (or_introl eq_refl)) as [Ho _].
    rewrite Ho in H. discriminate.
  - rewrite (create_model_version_cases n source run_id now sched db Hm)
      in *.
    destruct (conflict n db sched 0); cbn in H; [discriminate|].
    injection H as <-. split; [now exists r|]. split; reflexivity.
  - pose proof (get_registered_model_many n (mkSession db [] sched []) Hm) as L.
    destruct (create_model_version_lookup_raises n source run_id now sched db
                L (or_intror eq_refl)) as [Ho _].
    rewrite Ho in H. discriminate.
Qed.

Lemma filter_none {A} (f : A -> bool) l :
  (forall x, In x l -> f x = false) -> filter f l = [].
Proof.
  induction l as [|a l IH]; intros H; [reflexivity|]. cbn.
  rewrite (H a (or_introl eq_refl)). apply IH. intros x Hx. apply H.
  now right.
Qed.

(** The row just added is the only one under its key. *)
Lemma new_version_is_the_match n source run_id now db :
  matching_versions
    (mkModelVersion (mkRegisteredModel n)
       (next_version (map loaded_version (owned_by n db))))
    (with_new_version n source run_id now db)
  = [new_version_row n source run_id now
       (next_version (map loaded_version (owned_by n db)))].
Proof.
  unfold matching_versions, with_new_version, get_name.
  cbn [model_versions registered_model version name].
  set (v := next_version (map loaded_version (owned_by n db))).
  rewrite filter_app. cbn [filter new_version_row mv_name mv_version].
  rewrite String.eqb_refl, Z.eqb_refl. cbn [andb].
  rewrite filter_none; [reflexivity|].
  intros x Hx. apply not_true_is_false. intros Hp.
  pose proof (next_version_is_free n db) as Hfree. fold v in Hfree.
  apply not_true_iff_false in Hfree. apply Hfree. apply mem_key_In.
  apply in_map_iff. exists x. split; [|assumption].
  apply andb_true_iff in Hp. destruct Hp as [Hn Hv].
  apply String.eqb_eq in Hn. apply Z.eqb_eq in Hv.
  unfold version_key. now rewrite Hn, Hv.
Qed.

Lemma get_model_version_download_uri_one mv sched db v :
  matching_versions mv db = [v] ->
  outcome (get_model_version_download_uri mv sched db) = Ok (mv_source v).
Proof.
  intros Hv. unfold get_model_version_download_uri.
  match goal with
  | |- outcome (ManagedSessionMaker ?body _ _) = _ =>
      assert (B : body (mkSession db [] sched []) =
                  (Ok (mv_source v),
                   after Query_model_versions (mkSession db [] sched [])))
  end.
  { rewrite (bind_ok _ _ _
               (get_sql_model_version_one mv (mkSession db [] sched []) Hv)).
    reflexivity. }
  rewrite (@managed_ok_reader _ _ sched db _ _ B); reflexivity.
Qed.

(* ================================================================= *)
(** ** Registering a model *)

Lemma is_AlreadyExists_intro m :
  is_AlreadyExists (MlflowException m (Some RESOURCE_ALREADY_EXISTS)).
Proof. now exists m. Qed.

Lemma create_registered_model_returned name now sched db e :
  outcome (create_registered_model name now sched db) = Ok e ->
  exists n,
    name = Some n /\ n <> EmptyString /\
    ~ In n (map rm_name (registered_models db)) /\
    ~ In n (taken_models (hd nobody sched)) /\
    e = mkRegisteredModel n /\
    tables_after (create_registered_model name now sched db)
      = mkDatabase (registered_models db ++ [new_model_row n now])
          (model_versions db).
Proof.
  destruct name as [n|]; [|discriminate].
  destruct (String.eqb_spec n EmptyString) as [->|Hn]; [discriminate|].
  rewrite (create_registered_model_run now sched db Hn).
  destruct (mem_name n (map rm_name (registered_models db))) eqn:E1;
    [discriminate|].
  destruct (mem_name n (taken_models (hd nobody sched))) eqn:E2;
    [discriminate|].
  cbn. intros H. injection H as <-. exists n.
  repeat split; auto.
  - intros Hin. apply mem_name_In in Hin. congruence.
  - intros Hin. apply mem_name_In in Hin. congruence.
Qed.

Lemma matching_models_after_create n now db :
  ~ In n (map rm_name (registered_models db)) ->
  matching_models n
    (mkDatabase (registered_models db ++ [new_model_row n now])
       (model_versions db))
  = [new_model_row n now].
Proof.
  intros Hfree. unfold matching_models. cbn [registered_models].
  rewrite filter_app. cbn [filter new_model_row rm_name].
  rewrite String.eqb_refl, filter_none; [reflexivity|].
  intros x Hx. apply String.eqb_neq. intros E. apply Hfree.
  rewrite <- E. now apply in_map.
Qed.

Lemma get_registered_model_details_one rm sched db r :
  matching_models (name rm) db = [r] ->
  outcome (get_registered_model_details rm sched db) =
    Ok (mkRegisteredModelDetailed (rm_name r) (rm_creation_time r)
          (rm_last_updated_time r) (rm_description r)
          (map detailed (latest_per_stage (owned_by (name rm) db)))).
Proof.
  intros Hm. unfold get_registered_model_details.
  match goal with
  | |- outcome (ManagedSessionMaker ?body _ _) = Ok ?res =>
      assert (B : body (mkSession db [] sched []) =
                  (Ok res, after Query_registered_models
                             (mkSession db [] sched [])))
  end.
  { rewrite (bind_ok _ _ _
               (get_registered_model_one (name rm) (mkSession db [] sched []) Hm)).
    cbn [after on_session].
    rewrite rm_to_mlflow_detailed_entity_loaded. cbn [view].
    now rewrite (matching_models_name _ _ Hm). }
  rewrite (@managed_ok_reader _ _ sched db _ _ B); reflexivity.
Qed.

(** X1. [create_registered_model] refuses a missing or empty name with
    InvalidArgument before it opens a session; for any other name it
    raises AlreadyExists and changes nothing exactly when the name is
    that of a registered model or has been taken by a concurrent
    transaction, and otherwise returns the model and adds one row with
    both timestamps at the clock reading and no description. *)
Theorem create_registered_model_outcomes :
  forall (name : option string) (now : Z) (sched : list Concurrent)
         (db : Database),
    (name = None \/ name = Some EmptyString ->
     create_registered_model name now sched db =
       (Raise (MlflowException "Registered model name cannot be empty."
                 (Some INVALID_PARAMETER_VALUE)), db, [])) /\
    (forall n,
       name = Some n -> n <> EmptyString ->
       (In n (map rm_name (registered_models db))
        \/ In n (taken_models (hd nobody sched)) ->
        exists e,
          outcome (create_registered_model name now sched db) = Raise e /\
          is_AlreadyExists e /\
          tables_after (create_registered_model name now sched db) = db) /\
       (~ In n (map rm_name (registered_models db)) ->
        ~ In n (taken_models (hd nobody sched)) ->
        outcome (create_registered_model name now sched db)
          = Ok (mkRegisteredModel n) /\
        tables_after (create_registered_model name now sched db)
          = mkDatabase
              (registered_models db ++ [mkSqlRegisteredModel n now now None])
              (model_versions db))).
Proof.
  intros name now sched db. split.
  - intros [-> | ->]; reflexivity.
  - intros n -> Hn. rewrite (create_registered_model_run now sched db Hn).
    split.
    + intros Ht.
      assert (E : mem_name n (map rm_name (registered_models db))
                  || mem_name n (taken_models (hd nobody sched)) = true).
      { apply orb_true_iff.
        destruct Ht as [Ht|Ht]; [left | right]; now apply mem_name_In. }
      rewrite E. eexists. split; [reflexivity|].
      split; [apply is_AlreadyExists_intro | reflexivity].
    + intros H1 H2.
      assert (E : mem_name n (map rm_name (registered_models db))
                  || mem_name n (taken_models (hd nobody sched)) = false).
      { apply orb_false_iff. split; apply not_true_is_false; intros Hm;
          apply mem_name_In in Hm; contradiction. }
      rewrite E. split; reflexivity.
Qed.

(** X2. A model that [create_registered_model] has just registered is
    what [get_registered_model_details] returns: its name, a creation
    time equal to its last update time, no description and, when no
    version row carried the name before, no latest version. *)
Theorem registered_model_can_be_read_back :
  forall (given : option string) (now : Z) (sched sched' : list Concurrent)
         (db : Database) (e : RegisteredModel),
    outcome (create_registered_model given now sched db) = Ok e ->
    owned_by (name e) db = [] ->
    outcome (get_registered_model_details e sched'
               (tables_after (create_registered_model given now sched db)))
    = Ok (mkRegisteredModelDetailed (name e) now now None []).
Proof.
  intros given now sched sched' db e H Ho.
  destruct (create_registered_model_returned given now sched db H)
    as (n & -> & Hn & Hfree & _ & -> & ->).
  cbn [name] in *.
  pose proof (@matching_models_after_create n now db Hfree) as Hm.
  rewrite (@get_registered_model_details_one (mkRegisteredModel n) sched'
             _ (new_model_row n now) Hm).
  cbn [new_model_row rm_name rm_creation_time rm_last_updated_time
       rm_description name].
  unfold owned_by in *. cbn [model_versions]. now rewrite Ho.
Qed.

Lemma registered_model_can_be_read_back_witness :
  outcome (get_registered_model_details (mkRegisteredModel "New") []
             (tables_after
                (create_registered_model (Some "New") 7 [] sample_db)))
  = Ok (mkRegisteredModelDetailed "New" 7 7 None []).
Proof.
  apply (registered_model_can_be_read_back (Some "New") 7 [] [] sample_db
           (e := mkRegisteredModel "New")); reflexivity.
Defined.

(** X3. After [create_registered_model] has returned for a name, a
    second call for that name raises AlreadyExists and changes nothing,
    so that exactly one row carries the name. *)
Theorem second_registration_is_refused :
  forall (given : option string) (now now' : Z)
         (sched sched' : list Concurrent) (db : Database)
         (e : RegisteredModel),
    outcome (create_registered_model given now sched db) = Ok e ->
    exists ex,
      outcome (create_registered_model given now' sched'
                 (tables_after (create_registered_model given now sched db)))
        = Raise ex /\
      is_AlreadyExists ex /\
      tables_after
        (create_registered_model given now' sched'
           (tables_after (create_registered_model given now sched db)))
      = tables_after (create_registered_model given now sched db) /\
      List.length
        (matching_models (name e)
           (tables_after (create_registered_model given now sched db)))
      = 1%nat.
Proof.
  intros given now now' sched sched' db e H.
  destruct (create_registered_model_returned given now sched db H)
    as (n & -> & Hn & Hfree & _ & -> & ->).
  rewrite (create_registered_model_run now' sched' _ Hn).
  cbn [registered_models name].
  assert (E : mem_name n
                (map rm_name (registered_models db ++ [new_model_row n now]))
              = true).
  { apply mem_name_In. rewrite map_app. apply in_or_app. right. now left. }
  rewrite E. cbn [orb]. eexists. split; [reflexivity|].
  split; [apply is_AlreadyExists_intro|]. split; [reflexivity|].
  now rewrite matching_models_after_create.
Qed.

Lemma second_registration_is_refused_witness :
  exists ex,
    outcome (create_registered_model (Some "New") 8 []
               (tables_after
                  (create_registered_model (Some "New") 7 [] sample_db)))
      = Raise ex /\
    is_AlreadyExists ex.
Proof.
  destruct (second_registration_is_refused (Some "New") 7 8 [] [] sample_db
              (e := mkRegisteredModel "New") eq_refl)
    as (ex & H1 & H2 & _).
  exists ex. split; assumption.
Defined.

(* ================================================================= *)
(** ** Deleting *)

Lemma filter_keeps_all {A} (f : A -> bool) l :
  (forall x, In x l -> f x = true) -> filter f l = l.
Proof.
  induction l as [|a l IH]; intros H; [reflexivity|]. cbn.
  rewrite (H a (or_introl eq_refl)). f_equal. apply IH. intros x Hx.
  apply H. now right.
Qed.

Lemma filter_empty_all_false {A} (f : A -> bool) l :
  filter f l = [] -> forall x, In x l -> f x = false.
Proof.
  intros H x Hx. apply not_true_is_false. intros Hf.
  assert (Hin : In x (filter f l)) by (apply filter_In; auto).
  rewrite H in Hin. destruct Hin.
Qed.

Lemma database_eta db :
  mkDatabase (registered_models db) (model_versions db) = db.
Proof. now destruct db. Qed.

Lemma matching_models_after_delete n n' db :
  matching_models n' (delete_model_rows n db) =
    if (n' =? n)%string then [] else matching_models n' db.
Proof.
  unfold matching_models, delete_model_rows. cbn [registered_models].
  rewrite filter_filter_and.
  destruct (String.eqb_spec n' n) as [->|Hne].
  - apply filter_none. intros x _.
    destruct (rm_name x =? n)%string; reflexivity.
  - apply filter_ext. intros x.
    destruct (String.eqb_spec (rm_name x) n') as [->|_]; [|reflexivity].
    cbn. apply negb_true_iff. now apply String.eqb_neq.
Qed.

Lemma owned_by_after_delete n n' db :
  owned_by n' (delete_model_rows n db) =
    if (n' =? n)%string then [] else owned_by n' db.
Proof.
  unfold owned_by, delete_model_rows. cbn [model_versions].
  rewrite filter_filter_and.
  destruct (String.eqb_spec n' n) as [->|Hne].
  - apply filter_none. intros x _.
    destruct (mv_name x =? n)%string; reflexivity.
  - apply filter_ext. intros x.
    destruct (String.eqb_spec (mv_name x) n') as [->|_]; [|reflexivity].
    cbn. apply negb_true_iff. now apply String.eqb_neq.
Qed.

Lemma matching_versions_after_delete_model n mv db :
  get_name mv = n ->
  matching_versions mv (delete_model_rows n db) = [].
Proof.
  intros <-. unfold matching_versions, delete_model_rows.
  cbn [model_versions]. rewrite filter_filter_and.
  apply filter_none. intros x _.
  destruct (mv_name x =? get_name mv)%string; cbn;
    [apply andb_false_r | reflexivity].
Qed.

Lemma matching_versions_without k mv db :
  matching_versions mv (without_version k db) =
    if key_eqb (get_name mv, version mv) k then []
    else matching_versions mv db.
Proof.
  unfold matching_versions, without_version. cbn [model_versions].
  rewrite filter_filter_and.
  assert (P : forall x,
             (mv_name x =? get_name mv)%string && (mv_version x =? version mv)
             = key_eqb (version_key x) (get_name mv, version mv))
    by reflexivity.
  destruct (key_eqb (get_name mv, version mv) k) eqn:E.
  - apply key_eqb_eq in E. subst k. apply filter_none. intros x _.
    rewrite P. destruct (key_eqb (version_key x) _); reflexivity.
  - apply filter_ext. intros x. rewrite P.
    destruct (key_eqb (version_key x) (get_name mv, version mv)) eqn:Ex;
      [|reflexivity].
    apply key_eqb_eq in Ex. rewrite Ex, E. reflexivity.
Qed.

Lemma lookup_of_model_fails {A} (rest : SqlRM -> M A) n sched db :
  matching_models n db = [] ->
  exists e,
    outcome (ManagedSessionMaker (bind (_get_registered_model n) rest)
               sched db) = Raise e /\
    is_NotFound e.
Proof.
  intros Hm.
  pose proof (get_registered_model_none n (mkSession db [] sched []) Hm) as L.
  destruct (managed_lookup_raises _ rest sched db L) as [Ho _].
  eexists. split; [exact Ho | apply is_NotFound_intro].
Qed.

Lemma lookup_of_version_fails {A} (rest : SqlMV -> M A) mv sched db :
  matching_versions mv db = [] ->
  exists e,
    outcome (ManagedSessionMaker (bind (_get_sql_model_version mv) rest)
               sched db) = Raise e /\
    is_NotFound e.
Proof.
  intros Hm.
  pose proof (get_sql_model_version_none mv (mkSession db [] sched []) Hm) as L.
  destruct (managed_lookup_raises _ rest sched db L) as [Ho _].
  eexists. split; [exact Ho | apply is_NotFound_intro].
Qed.

(** X4. [delete_registered_model] on an existing model returns and
    removes its row: afterwards the name matches no registered model,
    so [get_registered_model_details] and a second
    [delete_registered_model] raise NotFound; every other registered
    model and its versions are as before. *)
Theorem delete_registered_model_removes_the_model :
  forall (rm : RegisteredModel) (sched : list Concurrent) (db : Database)
         (r : SqlRegisteredModel),
    matching_models (name rm) db = [r] ->
    outcome (delete_registered_model rm sched db) = Ok tt /\
    matching_models (name rm)
      (tables_after (delete_registered_model rm sched db)) = [] /\
    (forall sched',
       exists e,
         outcome (get_registered_model_details rm sched'
                    (tables_after (delete_registered_model rm sched db)))
           = Raise e /\ is_NotFound e) /\
    (forall sched',
       exists e,
         outcome (delete_registered_model rm sched'
                    (tables_after (delete_registered_model rm sched db)))
           = Raise e /\ is_NotFound e) /\
    (forall n',
       n' <> name rm ->
       matching_models n'
         (tables_after (delete_registered_model rm sched db))
         = matching_models n' db /\
       owned_by n' (tables_after (delete_registered_model rm sched db))
         = owned_by n' db).
Proof.
  intros rm sched db r Hm.
  rewrite (delete_registered_model_run rm sched db Hm).
  unfold outcome, tables_after. cbn [fst snd].
  assert (Hgone : matching_models (name rm)
                    (delete_model_rows (name rm) db) = []).
  { rewrite matching_models_after_delete. now rewrite String.eqb_refl. }
  split; [reflexivity|]. split; [exact Hgone|]. split; [|split].
  - intros sched'. unfold get_registered_model_details.
    now apply lookup_of_model_fails.
  - intros sched'. unfold delete_registered_model.
    now apply lookup_of_model_fails.
  - intros n' Hn'.
    rewrite matching_models_after_delete, owned_by_after_delete.
    apply String.eqb_neq in Hn'. rewrite Hn'. split; reflexivity.
Qed.

Lemma delete_registered_model_removes_the_model_witness :
  outcome (delete_registered_model (mkRegisteredModel "M") [] sample_db)
    = Ok tt /\
  matching_models "Other"
    (tables_after (delete_registered_model (mkRegisteredModel "M") []
                     sample_db))
  = [mkSqlRegisteredModel "Other" 20 20 None].
Proof.
  destruct (delete_registered_model_removes_the_model
              (mkRegisteredModel "M") [] sample_db
              (r := mkSqlRegisteredModel "M" 10 10 None) eq_refl)
    as (H1 & _ & _ & _ & H2).
  split; [exact H1|].
  destruct (H2 "Other") as [H3 _]; [discriminate|].
  rewrite H3. reflexivity.
Defined.

(** X5. With the cascade of the relationship (taken from the spec),
    [delete_registered_model] on an existing model leaves no version
    row under its name, so [get_model_version_details] for any of its
    version numbers raises NotFound afterwards. *)
Theorem delete_registered_model_takes_its_versions :
  forall (rm : RegisteredModel) (sched : list Concurrent) (db : Database)
         (r : SqlRegisteredModel),
    matching_models (name rm) db = [r] ->
    owned_by (name rm) (tables_after (delete_registered_model rm sched db))
      = [] /\
    (forall ver sched',
       exists e,
         outcome (get_model_version_details (mkModelVersion rm ver) sched'
                    (tables_after (delete_registered_model rm sched db)))
           = Raise e /\ is_NotFound e).
Proof.
  intros rm sched db r Hm.
  rewrite (delete_registered_model_run rm sched db Hm).
  unfold tables_after. cbn [fst snd]. split.
  - rewrite owned_by_after_delete. now rewrite String.eqb_refl.
  - intros ver sched'. unfold get_model_version_details.
    apply lookup_of_version_fails.
    now apply matching_versions_after_delete_model.
Qed.

Lemma delete_registered_model_takes_its_versions_witness :
  exists e,
    outcome (get_model_version_details
               (mkModelVersion (mkRegisteredModel "M") 2) []
               (tables_after
                  (delete_registered_model (mkRegisteredModel "M") []
                     sample_db)))
      = Raise e /\ is_NotFound e.
Proof.
  destruct (delete_registered_model_takes_its_versions
              (mkRegisteredModel "M") [] sample_db
              (r := mkSqlRegisteredModel "M" 10 10 None) eq_refl)
    as [_ H].
  apply (H 2 []).
Defined.

(** X6. [delete_model_version] on an existing version returns and
    removes the rows of that key only: afterwards
    [get_model_version_details] and a second [delete_model_version]
    for it raise NotFound, while every other version is matched as
    before and the registered models are untouched. *)
Theorem delete_model_version_removes_the_version :
  forall (mv : ModelVersion) (sched : list Concurrent) (db : Database)
         (v : SqlModelVersion),
    matching_versions mv db = [v] ->
    outcome (delete_model_version mv sched db) = Ok tt /\
    registered_models (tables_after (delete_model_version mv sched db))
      = registered_models db /\
    (forall sched',
       exists e,
         outcome (get_model_version_details mv sched'
                    (tables_after (delete_model_version mv sched db)))
           = Raise e /\ is_NotFound e) /\
    (forall sched',
       exists e,
         outcome (delete_model_version mv sched'
                    (tables_after (delete_model_version mv sched db)))
           = Raise e /\ is_NotFound e) /\
    (forall mv',
       (get_name mv', version mv') <> (get_name mv, version mv) ->
       matching_versions mv' (tables_after (delete_model_version mv sched db))
         = matching_versions mv' db).
Proof.
  intros mv sched db v Hv.
  rewrite (delete_model_version_run mv sched db Hv).
  unfold outcome, tables_after. cbn [fst snd].
  assert (Hgone : matching_versions mv
                    (without_version (get_name mv, version mv) db) = []).
  { rewrite matching_versions_without. now rewrite key_eqb_refl. }
  split; [reflexivity|]. split; [reflexivity|]. split; [|split].
  - intros sched'. unfold get_model_version_details.
    now apply lookup_of_version_fails.
  - intros sched'. unfold delete_model_version.
    now apply lookup_of_version_fails.
  - intros mv' Hne. rewrite matching_versions_without.
    destruct (key_eqb (get_name mv', version mv') (get_name mv, version mv))
      eqn:E; [|reflexivity].
    apply key_eqb_eq in E. contradiction.
Qed.

Lemma delete_model_version_removes_the_version_witness :
  outcome (delete_model_version (mkModelVersion (mkRegisteredModel "M") 2)
             [] sample_db) = Ok tt /\
  matching_versions (mkModelVersion (mkRegisteredModel "M") 3)
    (tables_after
       (delete_model_version (mkModelVersion (mkRegisteredModel "M") 2)
          [] sample_db))
  = [sample_version "M" 3 "Production"].
Proof.
  destruct (delete_model_version_removes_the_version
              (mkModelVersion (mkRegisteredModel "M") 2) [] sample_db
              (v := sample_version "M" 2 "Staging") eq_refl)
    as (H1 & _ & _ & _ & H2).
  split; [exact H1|].
  rewrite (H2 (mkModelVersion (mkRegisteredModel "M") 3)); [reflexivity|].
  discriminate.
Defined.

(* ================================================================= *)
(** ** Creating a version and reading it back *)

(** X7. The version that [create_model_version] returns can be read
    back at once: [get_model_version_download_uri] for it returns the
    source the version was created from, unchanged. *)
Theorem created_version_download_uri :
  forall (n source run_id : string) (now : Z)
         (sched sched' : list Concurrent) (db : Database)
         (mv : ModelVersion),
    outcome (create_model_version n source run_id now sched db) = Ok mv ->
    outcome (get_model_version_download_uri mv sched'
               (tables_after
                  (create_model_version n source run_id now sched db)))
    = Ok source.
Proof.
  intros n source run_id now sched sched' db mv H.
  destruct (@create_model_version_returned n source run_id now sched db _ H)
    as (_ & -> & ->).
  now rewrite (@get_model_version_download_uri_one _ sched' _ _
                 (new_version_is_the_match n source run_id now db)).
Qed.

Lemma created_version_download_uri_witness :
  outcome (get_model_version_download_uri
             (mkModelVersion (mkRegisteredModel "M") 5) []
             (tables_after
                (create_model_version "M" "s3://new" "run9" 7 []
                   sample_db)))
  = Ok "s3://new".
Proof.
  apply (created_version_download_uri "M" "s3://new" "run9" 7 [] []
           sample_db (mv := mkModelVersion (mkRegisteredModel "M") 5)).
  reflexivity.
Defined.

(** X8. [get_model_version_details] for the version that
    [create_model_version] has just returned gives the name, the number
    returned, both timestamps at the clock reading of the call, no
    description, the stage None, and the source and run id of the
    call. *)
Theorem created_version_details :
  forall (n source run_id : string) (now : Z)
         (sched sched' : list Concurrent) (db : Database)
         (mv : ModelVersion),
    outcome (create_model_version n source run_id now sched db) = Ok mv ->
    outcome (get_model_version_details mv sched'
               (tables_after
                  (create_model_version n source run_id now sched db)))
    = Ok (mkModelVersionDetailed (mkRegisteredModel n) (version mv)
            now now None "None" source run_id).
Proof.
  intros n source run_id now sched sched' db mv H.
  destruct (@create_model_version_returned n source run_id now sched db _ H)
    as (_ & -> & ->).
  now rewrite (@get_model_version_details_one _ sched' _ _
                 (new_version_is_the_match n source run_id now db)).
Qed.

Lemma created_version_details_witness :
  outcome (get_model_version_details
             (mkModelVersion (mkRegisteredModel "Other") 1) []
             (tables_after
                (create_model_version "Other" "s3://new" "run9" 7 []
                   sample_db)))
  = Ok (mkModelVersionDetailed (mkRegisteredModel "Other") 1 7 7 None
          "None" "s3://new" "run9").
Proof.
  apply (created_version_details "Other" "s3://new" "run9" 7 [] []
           sample_db (mv := mkModelVersion (mkRegisteredModel "Other") 1)).
  reflexivity.
Defined.

Lemma without_new_version n source run_id now db :
  without_version (n, next_version (map loaded_version (owned_by n db)))
    (with_new_version n source run_id now db) = db.
Proof.
  unfold without_version, with_new_version.
  cbn [registered_models model_versions].
  rewrite filter_app. cbn [filter].
  change (version_key (new_version_row n source run_id now
                         (next_version (map loaded_version (owned_by n db)))))
    with (n, next_version (map loaded_version (owned_by n db))).
  rewrite key_eqb_refl. cbn [negb]. rewrite app_nil_r.
  rewrite filter_keeps_all; [apply database_eta|].
  intros x Hx. apply negb_true_iff. apply not_true_is_false. intros E.
  apply key_eqb_eq in E.
  pose proof (next_version_is_free n db) as Hfree.
  apply not_true_iff_false in Hfree. apply Hfree. apply mem_key_In.
  rewrite <- E. now apply in_map.
Qed.

(** X9. [delete_model_version] undoes [create_model_version]: deleting
    the version a call has just returned leaves both tables exactly as
    they were before the call. *)
Theorem delete_undoes_create_model_version :
  forall (n source run_id : string) (now : Z)
         (sched sched' : list Concurrent) (db : Database)
         (mv : ModelVersion),
    outcome (create_model_version n source run_id now sched db) = Ok mv ->
    outcome (delete_model_version mv sched'
               (tables_after
                  (create_model_version n source run_id now sched db)))
      = Ok tt /\
    tables_after
      (delete_model_version mv sched'
         (tables_after (create_model_version n source run_id now sched db)))
    = db.
Proof.
  intros n source run_id now sched sched' db mv H.
  destruct (@create_model_version_returned n source run_id now sched db _ H)
    as (_ & -> & ->).
  rewrite (@delete_model_version_run _ sched' _ _
             (new_version_is_the_match n source run_id now db)).
  unfold outcome, tables_after, get_name.
  cbn [fst snd registered_model version name].
  split; [reflexivity | apply without_new_version].
Qed.

Lemma delete_undoes_create_model_version_witness :
  tables_after
    (delete_model_version (mkModelVersion (mkRegisteredModel "M") 5) []
       (tables_after (create_model_version "M" "s" "r" 7 [] sample_db)))
  = sample_db.
Proof.
  apply (delete_undoes_create_model_version "M" "s" "r" 7 [] [] sample_db
           (mv := mkModelVersion (mkRegisteredModel "M") 5)).
  reflexivity.
Defined.

Lemma delete_new_model_rows n now db :
  ~ In n (map rm_name (registered_models db)) ->
  owned_by n db = [] ->
  delete_model_rows n
    (mkDatabase (registered_models db ++ [new_model_row n now])
       (model_versions db)) = db.
Proof.
  intros Hfree Ho. unfold delete_model_rows.
  cbn [registered_models model_versions].
  rewrite filter_app. cbn [filter new_model_row rm_name].
  rewrite String.eqb_refl. cbn [negb]. rewrite app_nil_r.
  rewrite !filter_keeps_all; [apply database_eta | |].
  - intros x Hx. apply negb_true_iff.
    exact (filter_empty_all_false _ _ Ho x Hx).
  - intros x Hx. apply negb_true_iff. apply String.eqb_neq. intros E.
    apply Hfree. rewrite <- E. now apply in_map.
Qed.

(** X10. [delete_registered_model] undoes [create_registered_model]:
    when no version row carried the name, deleting the model a call has
    just registered leaves both tables exactly as they were before the
    call. *)
Theorem delete_undoes_create_registered_model :
  forall (given : option string) (now : Z) (sched sched' : list Concurrent)
         (db : Database) (e : RegisteredModel),
    outcome (create_registered_model given now sched db) = Ok e ->
    owned_by (name e) db = [] ->
    outcome (delete_registered_model e sched'
               (tables_after (create_registered_model given now sched db)))
      = Ok tt /\
    tables_after
      (delete_registered_model e sched'
         (tables_after (create_registered_model given now sched db)))
    = db.
Proof.
  intros given now sched sched' db e H Ho.
  destruct (create_registered_model_returned given now sched db H)
    as (n & -> & Hn & Hfree & _ & -> & ->).
  cbn [name] in *.
  pose proof (@matching_models_after_create n now db Hfree) as Hm.
  rewrite (@delete_registered_model_run (mkRegisteredModel n) sched' _
             (new_model_row n now) Hm).
  unfold outcome, tables_after. cbn [fst snd name].
  split; [reflexivity | now apply delete_new_model_rows].
Qed.

Lemma delete_undoes_create_registered_model_witness :
  tables_after
    (delete_registered_model (mkRegisteredModel "New") []
       (tables_after (create_registered_model (Some "New") 7 [] sample_db)))
  = sample_db.
Proof.
  apply (delete_undoes_create_registered_model (Some "New") 7 [] []
           sample_db (e := mkRegisteredModel "New")); reflexivity.
Defined.

(** X11. The first version of a freshly registered model is 1: after
    [create_registered_model] has returned for a name that no version
    row carried, [create_model_version] for it, called with no
    concurrent transaction, returns version 1, and that version is then
    the only one the model has. *)
Theorem fresh_model_starts_at_version_one :
  forall (given : option string) (now : Z) (sched : list Concurrent)
         (db : Database) (e : RegisteredModel)
         (source run_id : string) (now' : Z),
    outcome (create_registered_model given now sched db) = Ok e ->
    owned_by (name e) db = [] ->
    outcome (create_model_version (name e) source run_id now' []
               (tables_after (create_registered_model given now sched db)))
      = Ok (mkModelVersion e 1) /\
    owned_by (name e)
      (tables_after
         (create_model_version (name e) source run_id now' []
            (tables_after (create_registered_model given now sched db))))
      = [new_version_row (name e) source run_id now' 1].
Proof.
  intros given now sched db e source run_id now' H Ho.
  destruct (create_registered_model_returned given now sched db H)
    as (n & -> & Hn & Hfree & _ & -> & ->).
  cbn [name] in *.
  pose proof (@matching_models_after_create n now db Hfree) as Hm.
  assert (Hd : owned_by n
                 (mkDatabase
                    (registered_models db ++ [new_model_row n now])
                    (model_versions db)) = [])
    by exact Ho.
  rewrite (@create_model_version_alone n source run_id now' _ _ Hm).
  unfold outcome, tables_after. cbn [fst snd].
  rewrite owned_by_with_new_version, Hd. split; reflexivity.
Qed.

Lemma fresh_model_starts_at_version_one_witness :
  outcome (create_model_version "New" "s" "r" 8 []
             (tables_after
                (create_registered_model (Some "New") 7 [] sample_db)))
  = Ok (mkModelVersion (mkRegisteredModel "New") 1).
Proof.
  destruct (fresh_model_starts_at_version_one (Some "New") 7 [] sample_db
              (e := mkRegisteredModel "New") "s" "r" 8 eq_refl eq_refl)
    as [H _].
  exact H.
Defined.

(* ================================================================= *)
(** ** Version numbers after a deletion *)

Lemma owned_by_without n v db :
  owned_by n (without_version (n, v) db) =
  filter (fun x => negb (mv_version x =? v)) (owned_by n db).
Proof.
  unfold owned_by, without_version. cbn [model_versions].
  rewrite !filter_filter_and. apply filter_ext. intros x.
  unfold key_eqb, version_key. cbn [fst snd].
  destruct (String.eqb_spec (mv_name x) n) as [_|_]; cbn;
    rewrite ?andb_true_r, ?andb_false_r; reflexivity.
Qed.

(** X12. Version numbers are not kept apart across deletions: when the
    highest version [v] of a model has been deleted,
    [create_model_version] numbers the next version from what is left,
    so it returns a number that is at most [v], and again [v] itself
    when version [v - 1] exists. *)
Theorem version_number_reused_after_delete :
  forall (n source run_id : string) (v now : Z) (sched : list Concurrent)
         (db : Database) (r : SqlRegisteredModel) (row : SqlModelVersion),
    matching_models n db = [r] ->
    matching_versions (mkModelVersion (mkRegisteredModel n) v) db = [row] ->
    (forall x, In x (owned_by n db) -> mv_version x <= v) ->
    1 <= v ->
    exists v',
      outcome (create_model_version n source run_id now []
                 (tables_after
                    (delete_model_version
                       (mkModelVersion (mkRegisteredModel n) v) sched db)))
        = Ok (mkModelVersion (mkRegisteredModel n) v') /\
      v' <= v /\
      (In (v - 1) (map mv_version (owned_by n db)) -> v' = v).
Proof.
  intros n source run_id v now sched db r row Hm Hv Hmax Hpos.
  rewrite (delete_model_version_run _ sched db Hv).
  unfold tables_after, get_name.
  cbn [fst snd registered_model version name].
  assert (Hm' : matching_models n (without_version (n, v) db) = [r])
    by exact Hm.
  rewrite (@create_model_version_alone n source run_id now _ _ Hm').
  eexists. split; [reflexivity|].
  rewrite owned_by_without.
  set (rest := filter (fun x => negb (mv_version x =? v)) (owned_by n db)).
  assert (Hrest : forall z, In z (map mv_version rest) -> z <= v - 1).
  { intros z Hz. apply in_map_iff in Hz. destruct Hz as (x & <- & Hx).
    apply filter_In in Hx. destruct Hx as [Hx Hne].
    apply negb_true_iff, Z.eqb_neq in Hne. specialize (Hmax x Hx). lia. }
  destruct (next_version_is_max_plus_one (map loaded_version rest))
    as [H1 H2].
  rewrite map_map in H2. cbn [attrs loaded_version] in H2.
  destruct rest as [|x rest'] eqn:E.
  - rewrite (H1 eq_refl). split; [lia|].
    intros Hin. apply in_map_iff in Hin. destruct Hin as (y & Hy & Hin).
    assert (Hy' : In y rest).
    { apply filter_In. split; [assumption|].
      apply negb_true_iff, Z.eqb_neq. lia. }
    rewrite E in Hy'. destruct Hy'.
  - destruct H2 as (m & Hin & Hm2 & ->); [discriminate|].
    specialize (Hrest m Hin). split; [lia|].
    intros Hin1. apply in_map_iff in Hin1. destruct Hin1 as (y & Hy & Hin1).
    assert (Hy' : In (v - 1) (map mv_version rest)).
    { rewrite <- Hy. apply in_map. apply filter_In. split; [assumption|].
      apply negb_true_iff, Z.eqb_neq. lia. }
    rewrite E in Hy'. specialize (Hm2 _ Hy'). lia.
Qed.

Lemma version_number_reused_after_delete_witness :
  exists v',
    outcome (create_model_version "M" "s" "r" 9 []
               (tables_after
                  (delete_model_version
                     (mkModelVersion (mkRegisteredModel "M") 4) []
                     sample_db)))
      = Ok (mkModelVersion (mkRegisteredModel "M") v') /\
    v' = 4.
Proof.
  destruct (@version_number_reused_after_delete "M" "s" "r" 4 9 [] sample_db
              (mkSqlRegisteredModel "M" 10 10 None)
              (sample_version "M" 4 "Staging") eq_refl eq_refl)
    as (v' & Ho & _ & Hv).
  - intros x Hx. cbn in Hx.
    destruct Hx as [<-|[<-|[<-|[<-|[]]]]]; cbn; lia.
  - lia.
  - exists v'. split; [exact Ho|]. apply Hv. cbn. auto.
Defined.

(* ================================================================= *)
(** ** Updating a registered model *)

Lemma identity_update_applies c db v :
  version_keys_unique db ->
  In v (model_versions db) ->
  apply_write c db (UpdateVersion (version_key v) v) = Some db.
Proof.
  intros Hu Hv. cbn [apply_write]. rewrite key_eqb_refl. cbn [negb andb].
  f_equal. rewrite <- (database_eta db) at 3. f_equal.
  rewrite <- (map_id (model_versions db)) at 2.
  apply map_ext_in. intros x Hx.
  destruct (key_eqb (version_key x) (version_key v)) eqn:E; [|reflexivity].
  apply key_eqb_eq in E. symmetry. exact (unique_key_row Hu Hx Hv E).
Qed.

Lemma identity_updates_apply c db cs :
  version_keys_unique db ->
  (forall v, In v cs -> In v (model_versions db)) ->
  apply_writes c db (map (fun v => UpdateVersion (version_key v) v) cs)
  = Some db.
Proof.
  intros Hu. induction cs as [|v cs IH]; intros Hcs; [reflexivity|].
  cbn [map apply_writes].
  rewrite (@identity_update_applies c db v Hu (Hcs v (or_introl eq_refl))).
  apply IH. intros x Hx. apply Hcs. now right.
Qed.

Lemma update_without_rename_applies c db old description r :
  version_keys_unique db ->
  rm_name r = old ->
  apply_writes c db (update_writes old None description r db) =
    Some (mkDatabase
            (map (fun x => if (rm_name x =? old)%string
                           then updated_model None description r else x)
                 (registered_models db))
            (model_versions db)).
Proof.
  intros Hu Hr. unfold update_writes. cbn [apply_writes apply_write].
  cbn [updated_model rm_name]. rewrite Hr, String.eqb_refl. cbn [negb andb].
  apply identity_updates_apply.
  - exact Hu.
  - intros v Hv. cbn [model_versions]. unfold owned_by in Hv.
    apply filter_In in Hv. tauto.
Qed.

Lemma matching_models_after_update old n' r' R T :
  rm_name r' = old ->
  matching_models n'
    (mkDatabase
       (map (fun x => if (rm_name x =? old)%string then r' else x) R) T)
  = map (fun x => if (rm_name x =? old)%string then r' else x)
        (matching_models n' (mkDatabase R T)).
Proof.
  intros Hr. unfold matching_models. cbn [registered_models].
  rewrite filter_map_swap. f_equal. apply filter_ext. intros x.
  destruct (String.eqb_spec (rm_name x) old) as [E|_]; [|reflexivity].
  now rewrite Hr, E.
Qed.

(** X13. [update_registered_model] without a new name, on tables whose
    version keys are unique, returns the model under its name, touches
    no version row and no other registered model, and in the row of the
    model changes the description alone, and only when one is given:
    name, creation time and last update time stay, and with neither
    argument both tables are as before. *)
Theorem update_registered_model_description_only :
  forall (rm : RegisteredModel) (description : option string)
         (sched : list Concurrent) (db : Database) (r : SqlRegisteredModel),
    matching_models (name rm) db = [r] ->
    version_keys_unique db ->
    outcome (update_registered_model rm None description sched db)
      = Ok (mkRegisteredModel (name rm)) /\
    model_versions
      (tables_after (update_registered_model rm None description sched db))
      = model_versions db /\
    matching_models (name rm)
      (tables_after (update_registered_model rm None description sched db))
      = [mkSqlRegisteredModel (rm_name r) (rm_creation_time r)
           (rm_last_updated_time r)
           (match description with
            | Some d => Some d
            | None => rm_description r
            end)] /\
    (forall n',
       n' <> name rm ->
       matching_models n'
         (tables_after (update_registered_model rm None description sched db))
       = matching_models n' db) /\
    (description = None ->
     tables_after (update_registered_model rm None description sched db) = db).
Proof.
  intros rm description sched db r Hm Hu.
  pose proof (matching_models_name _ _ Hm) as Hr.
  rewrite (@update_registered_model_run_any rm None description sched db r Hm).
  rewrite (@update_without_rename_applies (hd nobody sched) db (name rm)
             description r Hu Hr).
  unfold outcome, tables_after. cbn [fst snd model_versions].
  assert (Hname : rm_name (updated_model None description r) = name rm)
    by exact Hr.
  assert (Hother : forall n',
             n' <> name rm ->
             matching_models n'
               (mkDatabase
                  (map (fun x => if (rm_name x =? name rm)%string
                                 then updated_model None description r else x)
                       (registered_models db))
                  (model_versions db))
             = matching_models n' db).
  { intros n' Hn'.
    rewrite (@matching_models_after_update (name rm) n' _ _ _ Hname).
    rewrite database_eta.
    rewrite <- (map_id (matching_models n' db)) at 2.
    apply map_ext_in. intros x Hx. apply filter_In in Hx.
    destruct Hx as [_ Hx]. apply String.eqb_eq in Hx.
    destruct (String.eqb_spec (rm_name x) (name rm)) as [E|_];
      [congruence | reflexivity]. }
  split; [reflexivity|]. split; [reflexivity|]. split; [|split].
  - rewrite (@matching_models_after_update (name rm) (name rm) _ _ _ Hname).
    rewrite database_eta, Hm. cbn [map]. unfold updated_model.
    rewrite !Hr, String.eqb_refl. reflexivity.
  - exact Hother.
  - intros ->. rewrite <- (database_eta db) at 3. f_equal.
    rewrite <- (map_id (registered_models db)) at 2.
    apply map_ext_in. intros x Hx.
    destruct (String.eqb_spec (rm_name x) (name rm)) as [E|_];
      [|reflexivity].
    assert (Hin : In x (matching_models (name rm) db)).
    { apply filter_In. split; [assumption | now apply String.eqb_eq]. }
    rewrite Hm in Hin. destruct Hin as [<-|[]]. now destruct r.
Qed.

Lemma update_registered_model_description_only_witness :
  matching_models "M"
    (tables_after
       (update_registered_model (mkRegisteredModel "M") None (Some "notes")
          [] sample_db))
  = [mkSqlRegisteredModel "M" 10 10 (Some "notes")] /\
  tables_after
    (update_registered_model (mkRegisteredModel "M") None None [] sample_db)
  = sample_db.
Proof.
  destruct (@update_registered_model_description_only
              (mkRegisteredModel "M") (Some "notes") [] sample_db
              (mkSqlRegisteredModel "M" 10 10 None) eq_refl
              (proj1 sample_db_well_formed))
    as (_ & _ & H1 & _).
  destruct (@update_registered_model_description_only
              (mkRegisteredModel "M") None [] sample_db
              (mkSqlRegisteredModel "M" 10 10 None) eq_refl
              (proj1 sample_db_well_formed))
    as (_ & _ & _ & _ & H2).
  split; [exact H1 | now apply H2].
Defined.

(** X14. [update_registered_model] to a new name that another
    registered model bears, or that a concurrent transaction has taken,
    raises AlreadyExists and changes nothing. *)
Theorem rename_to_taken_name_is_refused :
  forall (rm : RegisteredModel) (X : string) (description : option string)
         (sched : list Concurrent) (db : Database) (r : SqlRegisteredModel),
    matching_models (name rm) db = [r] ->
    X <> name rm ->
    In X (map rm_name (registered_models db))
    \/ In X (taken_models (hd nobody sched)) ->
    exists e,
      outcome (update_registered_model rm (Some X) description sched db)
        = Raise e /\
      is_AlreadyExists e /\
      tables_after (update_registered_model rm (Some X) description sched db)
        = db.
Proof.
  intros rm X description sched db r Hm Hne Ht.
  rewrite (@update_registered_model_run_any rm (Some X) description sched db
             r Hm).
  unfold update_writes. cbn [apply_writes apply_write updated_model rm_name].
  apply String.eqb_neq in Hne. rewrite Hne. cbn [negb andb].
  assert (E : mem_name X (map rm_name (registered_models db))
              || mem_name X (taken_models (hd nobody sched)) = true).
  { apply orb_true_iff.
    destruct Ht as [Ht|Ht]; [left | right]; now apply mem_name_In. }
  rewrite E. eexists. split; [reflexivity|].
  split; [apply is_AlreadyExists_intro | reflexivity].
Qed.

Lemma rename_to_taken_name_is_refused_witness :
  exists e,
    outcome (update_registered_model (mkRegisteredModel "M") (Some "Other")
               None [] sample_db) = Raise e /\
    is_AlreadyExists e /\
    tables_after (update_registered_model (mkRegisteredModel "M")
                    (Some "Other") None [] sample_db) = sample_db.
Proof.
  apply (@rename_to_taken_name_is_refused (mkRegisteredModel "M") "Other"
           None [] sample_db (mkSqlRegisteredModel "M" 10 10 None) eq_refl).
  - discriminate.
  - left. cbn. auto.
Defined.

(* ================================================================= *)
(** ** What an update of a version leaves alone *)

Lemma matching_versions_after_update mv' v new R T :
  version_key new = version_key v ->
  matching_versions mv'
    (mkDatabase R
       (map (fun x => if key_eqb (version_key x) (version_key v)
                      then new else x) T))
  = map (fun x => if key_eqb (version_key x) (version_key v) then new else x)
        (matching_versions mv' (mkDatabase R T)).
Proof.
  intros K. unfold matching_versions. cbn [model_versions].
  rewrite filter_map_swap. f_equal. apply filter_ext. intros x.
  destruct (key_eqb (version_key x) (version_key v)) eqn:E; [|reflexivity].
  apply key_eqb_eq in E. unfold version_key in *.
  injection K as K1 K2. injection E as E1 E2.
  now rewrite K1, K2, E1, E2.
Qed.

(** X15. When [update_model_version] returns, the registered models
    are untouched, every version under another key is matched as
    before, and the updated row keeps its name, number, timestamps,
    source and run id; its stage changes only when a stage is given and
    its description only when a description is given. *)
Theorem update_model_version_changes_only_what_is_given :
  forall (get_canonical_stage : string -> Exc string)
         (mv : ModelVersion) (stage description : option string)
         (sched : list Concurrent) (db : Database) (v : SqlModelVersion),
    matching_versions mv db = [v] ->
    outcome (update_model_version get_canonical_stage mv stage description
               sched db) = Ok tt ->
    registered_models
      (tables_after (update_model_version get_canonical_stage mv stage
                       description sched db))
      = registered_models db /\
    (forall mv',
       (get_name mv', version mv') <> (get_name mv, version mv) ->
       matching_versions mv'
         (tables_after (update_model_version get_canonical_stage mv stage
                          description sched db))
       = matching_versions mv' db) /\
    exists v',
      matching_versions mv
        (tables_after (update_model_version get_canonical_stage mv stage
                         description sched db)) = [v'] /\
      mv_name v' = mv_name v /\ mv_version v' = mv_version v /\
      mv_creation_time v' = mv_creation_time v /\
      mv_last_updated_time v' = mv_last_updated_time v /\
      mv_source v' = mv_source v /\ mv_run_id v' = mv_run_id v /\
      (stage = None -> mv_current_stage v' = mv_current_stage v) /\
      (description = None -> mv_description v' = mv_description v) /\
      (forall d, description = Some d -> mv_description v' = Some d).
Proof.
  intros gcs mv stage description sched db v Hv Ho.
  assert (Hc : exists canonical,
             match stage with
             | Some st => gcs st = Ok canonical
             | None => True
             end).
  { destruct stage as [st|]; [|now exists EmptyString].
    destruct (gcs st) as [c|e] eqn:G; [now exists c|].
    rewrite (@update_model_version_raises gcs mv st description sched db v e
               Hv G) in Ho. discriminate. }
  destruct Hc as [canonical Hc].
  rewrite (@update_model_version_stores gcs mv stage canonical description
             sched db v Hv Hc).
  unfold tables_after. cbn [fst snd registered_models].
  set (new := updated_version
                match stage with Some _ => Some canonical | None => None end
                description v).
  assert (K : version_key new = version_key v)
    by apply updated_version_key.
  split; [reflexivity|]. split.
  - intros mv' Hne.
    rewrite (@matching_versions_after_update mv' v new _ _ K).
    rewrite database_eta.
    rewrite <- (map_id (matching_versions mv' db)) at 2.
    apply map_ext_in. intros x Hx.
    destruct (key_eqb (version_key x) (version_key v)) eqn:E; [|reflexivity].
    apply key_eqb_eq in E. exfalso. apply Hne.
    assert (Hx' : matching_versions mv' db = matching_versions mv' db)
      by reflexivity.
    apply filter_In in Hx. destruct Hx as [_ Hp].
    apply andb_true_iff in Hp. destruct Hp as [Hn Hver].
    apply String.eqb_eq in Hn. apply Z.eqb_eq in Hver.
    rewrite <- Hn, <- Hver.
    rewrite <- (matching_versions_key _ _ Hv). exact E.
  - exists new.
    rewrite (@matching_versions_after_update mv v new _ _ K).
    rewrite database_eta, Hv. cbn [map]. rewrite key_eqb_refl.
    split; [reflexivity|]. unfold new.
    destruct stage, description; cbn; repeat split; intros; congruence.
Qed.

Lemma update_model_version_changes_only_what_is_given_witness :
  matching_versions (mkModelVersion (mkRegisteredModel "M") 3)
    (tables_after
       (update_model_version spec_get_canonical_stage
          (mkModelVersion (mkRegisteredModel "M") 2) (Some "archived") None
          [] sample_db))
  = [sample_version "M" 3 "Production"].
Proof.
  destruct (@update_model_version_changes_only_what_is_given
              spec_get_canonical_stage
              (mkModelVersion (mkRegisteredModel "M") 2) (Some "archived")
              None [] sample_db (sample_version "M" 2 "Staging")
              eq_refl eq_refl)
    as (_ & H & _).
  rewrite (H (mkModelVersion (mkRegisteredModel "M") 3)); [reflexivity|].
  discriminate.
Defined.

(* ================================================================= *)
(** ** Listing and searching *)

Lemma for_each_detailed rows (s : Session) :
  for_each rm_to_mlflow_detailed_entity (map loaded_model rows) s =
    (Ok (map (fun r =>
                mkRegisteredModelDetailed (rm_name r) (rm_creation_time r)
                  (rm_last_updated_time r) (rm_description r)
                  (map detailed
                     (latest_per_stage (owned_by (rm_name r) (view s)))))
             rows),
     Active s).
Proof.
  induction rows as [|r rows IH]; [reflexivity|].
  cbn [for_each map].
  rewrite (bind_ok _ _ _ (rm_to_mlflow_detailed_entity_loaded r s)).
  rewrite (bind_ok _ _ _ IH). reflexivity.
Qed.

(** The entry of a registered model in a listing. *)
Lemma list_registered_models_outcome sched db :
  outcome (list_registered_models sched db) =
    Ok (map (fun r =>
               mkRegisteredModelDetailed (rm_name r) (rm_creation_time r)
                 (rm_last_updated_time r) (rm_description r)
                 (map detailed (latest_per_stage (owned_by (rm_name r) db))))
            (registered_models db)).
Proof.
  unfold list_registered_models.
  match goal with
  | |- outcome (ManagedSessionMaker ?body _ _) = Ok ?res =>
      assert (B : body (mkSession db [] sched []) =
                  (Ok res, after Query_registered_models
                             (mkSession db [] sched [])))
  end.
  { unfold bind at 1, query_registered_models at 1.
    unfold bind at 1, effect at 1.
    cbn [on_session needs_transaction view pending schedule effects app].
    rewrite for_each_detailed. now rewrite filter_true. }
  rewrite (@managed_ok_reader _ _ sched db _ _ B); reflexivity.
Qed.

(** X16. [list_registered_models] returns one entry per registered
    model, in table order and under the same names, and the entry of
    every model whose name is unique is exactly what
    [get_registered_model_details] returns for it; for a store without
    models the list is empty. *)
Theorem list_registered_models_lists_the_details :
  forall (sched sched' : list Concurrent) (db : Database),
    exists l,
      outcome (list_registered_models sched db) = Ok l /\
      map rmd_name l = map rm_name (registered_models db) /\
      (registered_models db = [] -> l = []) /\
      (forall r,
         matching_models (rm_name r) db = [r] ->
         exists d,
           In d l /\
           outcome (get_registered_model_details
                      (mkRegisteredModel (rm_name r)) sched' db) = Ok d).
Proof.
  intros sched sched' db. eexists.
  split; [apply list_registered_models_outcome|]. split; [|split].
  - rewrite map_map. reflexivity.
  - intros ->. reflexivity.
  - intros r Hm. eexists. split.
    + apply in_map_iff. exists r. split; [reflexivity|].
      assert (Hin : In r (matching_models (rm_name r) db))
        by (rewrite Hm; now left).
      apply filter_In in Hin. tauto.
    + now rewrite (@get_registered_model_details_one
                     (mkRegisteredModel (rm_name r)) sched' db r Hm).
Qed.

Lemma matching_versions_of_row db x :
  version_keys_unique db ->
  In x (model_versions db) ->
  matching_versions
    (mkModelVersion (mkRegisteredModel (mv_name x)) (mv_version x)) db = [x].
Proof.
  unfold version_keys_unique, matching_versions, get_name.
  cbn [registered_model version name].
  induction (model_versions db) as [|a l IH]; intros Hu Hx; [destruct Hx|].
  cbn [map] in Hu. inversion Hu as [|? ? Hnotin Hu']; subst.
  cbn [filter].
  assert (P : forall y,
             (mv_name y =? mv_name x)%string && (mv_version y =? mv_version x)
             = key_eqb (version_key y) (version_key x)) by reflexivity.
  destruct Hx as [->|Hx].
  - rewrite P, key_eqb_refl. f_equal. apply filter_none. intros y Hy.
    rewrite P. apply not_true_is_false. intros E. apply key_eqb_eq in E.
    apply Hnotin. rewrite <- E. now apply in_map.
  - rewrite P.
    destruct (key_eqb (version_key a) (version_key x)) eqn:E.
    + apply key_eqb_eq in E. exfalso. apply Hnotin. rewrite E.
      now apply in_map.
    + now apply IH.
Qed.

Lemma search_items parse filter_string sched db page :
  outcome (search_model_versions parse filter_string sched db) = Ok page ->
  exists conds,
    items page =
      map detailed
        (filter (fun v => forallb (fun c => c v) conds) (model_versions db)).
Proof.
  unfold search_model_versions.
  destruct (parse filter_string) as [parsed|e]; [|discriminate].
  destruct (conditions_of filter_string parsed) as [conds|e]; [|discriminate].
  rewrite search_with_conditions. intros H. injection H as <-.
  now exists conds.
Qed.

(** X17. On tables whose version keys are unique, every entity that
    [search_model_versions] returns is a stored version, and
    [get_model_version_details] for its name and number returns that
    same entity. *)
Theorem searched_versions_can_be_fetched :
  forall (parse : option string -> Exc (list Comparison))
         (filter_string : option string) (sched sched' : list Concurrent)
         (db : Database) (page : PagedList ModelVersionDetailed)
         (d : ModelVersionDetailed),
    version_keys_unique db ->
    outcome (search_model_versions parse filter_string sched db) = Ok page ->
    In d (items page) ->
    outcome (get_model_version_details
               (mkModelVersion (mvd_registered_model d) (mvd_version d))
               sched' db) = Ok d.
Proof.
  intros parse fs sched sched' db page d Hu Ho Hd.
  destruct (search_items parse fs sched db Ho) as [conds Hi].
  rewrite Hi in Hd. apply in_map_iff in Hd. destruct Hd as (x & <- & Hx).
  apply filter_In in Hx. destruct Hx as [Hx _].
  cbn [detailed mvd_registered_model mvd_version].
  apply get_model_version_details_one.
  now apply matching_versions_of_row.
Qed.

Lemma searched_versions_can_be_fetched_witness :
  outcome (get_model_version_details
             (mkModelVersion (mkRegisteredModel "M") 3) [] sample_db)
  = Ok (detailed (sample_version "M" 3 "Production")).
Proof.
  apply (@searched_versions_can_be_fetched (table_parser []) None [] []
           sample_db
           (mkPagedList (map detailed (model_versions sample_db)) None)
           (detailed (sample_version "M" 3 "Production"))
           (proj1 sample_db_well_formed) eq_refl).
  cbn. auto.
Defined.

(* ================================================================= *)
(** ** Failures *)

Lemma answer_raise_inv {A} (f : A -> Response) (op : Op A) sched db e :
  outcome (answer f op sched db) = Raise e ->
  outcome (op sched db) = Raise e.
Proof.
  unfold answer, outcome.
  destruct (op sched db) as [[[a|e'] db'] t]; cbn; congruence.
Qed.

Lemma create_model_version_failure n source run_id now sched db e :
  outcome (create_model_version n source run_id now sched db) = Raise e ->
  tables_after (create_model_version n source run_id now sched db) = db.
Proof.
  intros H.
  destruct (none_one_many (matching_models n db)) as [Hm|[[r Hm]|Hm]].
  - pose proof (get_registered_model_none n (mkSession db [] sched []) Hm) as L.
    now destruct (create_model_version_lookup_raises n source run_id now
                    sched db L (or_introl eq_refl)) as [_ Ht].
  - rewrite (create_model_version_cases n source run_id now sched db Hm)
      in *.
    destruct (conflict n db sched 0); cbn in H; [reflexivity|discriminate].
  - pose proof (get_registered_model_many n (mkSession db [] sched []) Hm) as L.
    now destruct (create_model_version_lookup_raises n source run_id now
                    sched db L (or_intror eq_refl)) as [_ Ht].
Qed.

(** X18. An operation of the store that raises has changed nothing:
    both tables are as they were before the call. *)
Theorem failed_operation_changes_nothing :
  forall (h : Helpers) (r : Request) (sched : list Concurrent)
         (db : Database) (e : Exn),
    outcome (call h r sched db) = Raise e ->
    tables_after (call h r sched db) = db.
Proof.
  intros h r sched db e H.
  destruct r; cbn [call] in *; rewrite answer_tables;
    apply answer_raise_inv in H;
    try (apply managed_tables_on_raise with (e := e); exact H).
  - unfold create_registered_model in *.
    destruct name0 as [nm|]; [|reflexivity].
    destruct (nm =? EmptyString)%string; [reflexivity|].
    apply managed_tables_on_raise with (e := e). exact H.
  - now apply (create_model_version_failure _ _ _ _ _ _ H).
  - apply search_model_versions_reads.
Qed.

Lemma failed_operation_changes_nothing_witness :
  tables_after
    (call (spec_helpers [])
       (Update_registered_model (mkRegisteredModel "M") (Some "Other") None)
       [] sample_db)
  = sample_db.
Proof.
  apply (@failed_operation_changes_nothing (spec_helpers [])
           (Update_registered_model (mkRegisteredModel "M") (Some "Other")
              None)
           [] sample_db
           (MlflowException
              "Registered Model (name=Other) already exists. Error: IntegrityError"
              (Some RESOURCE_ALREADY_EXISTS))).
  reflexivity.
Defined.

Lemma is_MlflowException_intro m c :
  is_MlflowException (MlflowException m c).
Proof. now exists m, c. Qed.

#[local] Hint Resolve is_MlflowException_intro : core.

Lemma model_lookup_failure {A} (P : Exn -> Prop) (rest : SqlRM -> M A)
    n sched db e :
  (forall m c, c <> Some INVALID_STATE -> P (MlflowException m c)) ->
  (forall m, (1 < List.length (matching_models n db))%nat ->
             P (MlflowException m (Some INVALID_STATE))) ->
  (forall r, matching_models n db = [r] ->
             outcome (ManagedSessionMaker (bind (_get_registered_model n) rest)
                        sched db) = Raise e ->
             P e) ->
  outcome (ManagedSessionMaker (bind (_get_registered_model n) rest)
             sched db) = Raise e ->
  P e.
Proof.
  intros Hcoded Hmany Hone H.
  destruct (none_one_many (matching_models n db)) as [Hm|[[r Hm]|Hm]].
  - pose proof (get_registered_model_none n (mkSession db [] sched []) Hm) as L.
    destruct (managed_lookup_raises _ rest sched db L) as [Ho _].
    rewrite Ho in H. injection H as <-. apply Hcoded. discriminate.
  - now apply (Hone r).
  - pose proof (get_registered_model_many n (mkSession db [] sched []) Hm) as L.
    destruct (managed_lookup_raises _ rest sched db L) as [Ho _].
    rewrite Ho in H. injection H as <-. now apply Hmany.
Qed.

Lemma version_lookup_failure {A} (P : Exn -> Prop) (rest : SqlMV -> M A)
    mv sched db e :
  (forall m c, c <> Some INVALID_STATE -> P (MlflowException m c)) ->
  (forall m, (1 < List.length (matching_versions mv db))%nat ->
             P (MlflowException m (Some INVALID_STATE))) ->
  (forall v, matching_versions mv db = [v] ->
             outcome (ManagedSessionMaker (bind (_get_sql_model_version mv) rest)
                        sched db) = Raise e ->
             P e) ->
  outcome (ManagedSessionMaker (bind (_get_sql_model_version mv) rest)
             sched db) = Raise e ->
  P e.
Proof.
  intros Hcoded Hmany Hone H.
  destruct (none_one_many (matching_versions mv db)) as [Hm|[[v Hm]|Hm]].
  - pose proof (get_sql_model_version_none mv (mkSession db [] sched []) Hm)
      as L.
    destruct (managed_lookup_raises _ rest sched db L) as [Ho _].
    rewrite Ho in H. injection H as <-. apply Hcoded. discriminate.
  - now apply (Hone v).
  - pose proof (get_sql_model_version_many mv (mkSession db [] sched []) Hm)
      as L.
    destruct (managed_lookup_raises _ rest sched db L) as [Ho _].
    rewrite Ho in H. injection H as <-. now apply Hmany.
Qed.

Lemma for_each_lift_cases {A B} (f : A -> Exc B) l :
  (exists out, Forall2 (fun a b => f a = Ok b) l out) \/
  (exists a e,
     In a l /\ f a = Raise e /\
     forall s, for_each (fun a => lift (f a)) l s = (Raise e, s)).
Proof.
  induction l as [|a l IH].
  - left. exists []. constructor.
  - destruct (f a) as [b|e] eqn:Fa.
    + destruct IH as [[out Hout]|(a' & e & Hin & He & Hrun)].
      * left. exists (b :: out). now constructor.
      * right. exists a', e. split; [now right|]. split; [exact He|].
        intros s. cbn [for_each]. unfold bind at 1, lift at 1. rewrite Fa.
        unfold bind at 1. now rewrite Hrun.
    + right. exists a, e. split; [now left|]. split; [exact Fa|].
      intros s. cbn [for_each]. unfold bind at 1, lift at 1. now rewrite Fa.
Qed.

Lemma get_latest_versions_rejected gcs dflt rm stages sched db r e :
  matching_models (name rm) db = [r] ->
  (forall s, for_each (fun a => lift (gcs a)) (requested_stages dflt stages) s
             = (Raise e, s)) ->
  outcome (get_latest_versions gcs dflt rm stages sched db) = Raise e.
Proof.
  intros Hm Hf. unfold get_latest_versions.
  match goal with
  | |- outcome (ManagedSessionMaker ?body _ _) = _ =>
      assert (B : body (mkSession db [] sched []) =
                  (Raise e, after Query_registered_models
                              (mkSession db [] sched [])))
  end.
  { rewrite (bind_ok _ _ _
               (get_registered_model_one (name rm) (mkSession db [] sched []) Hm)).
    unfold bind at 1. cbn -[for_each latest_per_stage].
    assert (E : (if is_empty_stages stages
                 then for_each (fun stage => lift (gcs stage)) dflt
                 else for_each (fun stage => lift (gcs stage))
                        (match stages with Some l => l | None => [] end))
                = for_each (fun stage => lift (gcs stage))
                    (requested_stages dflt stages)).
    { destruct stages as [[|x l]|]; reflexivity. }
    unfold bind at 1. rewrite E, Hf. reflexivity. }
  rewrite (managed_raise _ sched db B). reflexivity.
Qed.

(** X19. When a requested stage, or a default one, is rejected by
    [get_canonical_stage], [get_latest_versions] for an existing model
    raises an error that [get_canonical_stage] raised for one of the
    requested stages, and changes nothing; when none is rejected it
    returns. *)
Theorem get_latest_versions_rejects_unknown_stage :
  forall (get_canonical_stage : string -> Exc string)
         (DEFAULT_STAGES : list string)
         (rm : RegisteredModel) (stages : option (list string))
         (sched : list Concurrent) (db : Database) (r : SqlRegisteredModel),
    matching_models (name rm) db = [r] ->
    ((exists st e, In st (requested_stages DEFAULT_STAGES stages)
                   /\ get_canonical_stage st = Raise e) ->
     exists st e,
       In st (requested_stages DEFAULT_STAGES stages) /\
       get_canonical_stage st = Raise e /\
       outcome (get_latest_versions get_canonical_stage DEFAULT_STAGES
                  rm stages sched db) = Raise e /\
       tables_after (get_latest_versions get_canonical_stage DEFAULT_STAGES
                       rm stages sched db) = db) /\
    ((forall st, In st (requested_stages DEFAULT_STAGES stages) ->
                 exists c, get_canonical_stage st = Ok c) ->
     exists result,
       outcome (get_latest_versions get_canonical_stage DEFAULT_STAGES
                  rm stages sched db) = Ok result).
Proof.
  intros gcs dflt rm stages sched db r Hm. split.
  - intros (st & e & Hin & He).
    destruct (for_each_lift_cases gcs (requested_stages dflt stages))
      as [[out Hout]|(a & e' & Ha & He' & Hrun)].
    + exfalso. clear - Hout Hin He.
      induction Hout as [|a b l out Hab _ IH]; [destruct Hin|].
      destruct Hin as [->|Hin]; [congruence | auto].
    + exists a, e'. split; [exact Ha|]. split; [exact He'|]. split.
      * now apply get_latest_versions_rejected with (r := r).
      * apply get_latest_versions_reads.
  - intros Hall.
    destruct (for_each_lift_cases gcs (requested_stages dflt stages))
      as [[out Hout]|(a & e' & Ha & He' & _)].
    + eexists. eapply get_latest_versions_outcome; eassumption.
    + destruct (Hall a Ha) as [c Hc]. congruence.
Qed.

Lemma get_latest_versions_rejects_unknown_stage_witness :
  exists st e,
    In st ["Staging"; "nightly"] /\
    spec_get_canonical_stage st = Raise e /\
    outcome (get_latest_versions spec_get_canonical_stage
               spec_DEFAULT_STAGES_FOR_GET_LATEST_VERSIONS
               (mkRegisteredModel "M") (Some ["Staging"; "nightly"])
               [] sample_db) = Raise e.
Proof.
  destruct (@get_latest_versions_rejects_unknown_stage
              spec_get_canonical_stage
              spec_DEFAULT_STAGES_FOR_GET_LATEST_VERSIONS
              (mkRegisteredModel "M") (Some ["Staging"; "nightly"])
              [] sample_db (mkSqlRegisteredModel "M" 10 10 None) eq_refl)
    as [H _].
  destruct H as (st & e & H1 & H2 & H3 & _).
  - exists "nightly". eexists. split; [cbn; auto | reflexivity].
  - exists st, e. auto.
Defined.

Lemma conditions_of_failure fs parsed e :
  conditions_of fs parsed = Raise e ->
  exists m, e = MlflowException m (Some INVALID_PARAMETER_VALUE).
Proof.
  destruct parsed as [|c [|c' rest]].
  - discriminate.
  - rewrite conditions_of_one.
    destruct (negb _); [intros H; injection H as <-; eauto|].
    destruct (column_of (key c)); [discriminate|].
    intros H; injection H as <-; eauto.
  - rewrite conditions_of_many by (cbn; lia).
    intros H; injection H as <-; eauto.
Qed.

Lemma create_model_version_raised (P : Exn -> Prop) n source run_id now
    sched db e :
  (forall m c, c <> Some INVALID_STATE -> P (MlflowException m c)) ->
  (forall m, (1 < List.length (matching_models n db))%nat ->
             P (MlflowException m (Some INVALID_STATE))) ->
  (conflict n db sched 0 = true -> P (InvalidRequestError inactive_text)) ->
  outcome (create_model_version n source run_id now sched db) = Raise e ->
  P e.
Proof.
  intros Hcoded Hmany Hconflict H.
  destruct (none_one_many (matching_models n db)) as [Hm|[[r Hm]|Hm]].
  - pose proof (get_registered_model_none n (mkSession db [] sched []) Hm) as L.
    destruct (create_model_version_lookup_raises n source run_id now sched db
                L (or_introl eq_refl)) as [Ho _].
    rewrite Ho in H. injection H as <-. apply Hcoded. discriminate.
  - rewrite (create_model_version_cases n source run_id now sched db Hm)
      in H.
    destruct (conflict n db sched 0); cbn in H; [|discriminate].
    injection H as <-. now apply Hconflict.
  - pose proof (get_registered_model_many n (mkSession db [] sched []) Hm) as L.
    destruct (create_model_version_lookup_raises n source run_id now sched db
                L (or_intror eq_refl)) as [Ho _].
    rewrite Ho in H. injection H as <-. now apply Hmany.
Qed.

(** Where the exception of a failed operation comes from: a helper
    raised it, or the store did, with the code [INVALID_STATE] only when
    a lookup matched more than one row, or the session did, when
    [create_model_version] went on after a flush that failed. *)
Lemma call_raised (P : Exn -> Prop) h r sched db e :
  (forall stage e, h_get_canonical_stage h stage = Raise e -> P e) ->
  (forall filter_string e, h_parse_filter h filter_string = Raise e -> P e) ->
  (forall m c, c <> Some INVALID_STATE -> P (MlflowException m c)) ->
  (forall n m, (1 < List.length (matching_models n db))%nat ->
               P (MlflowException m (Some INVALID_STATE))) ->
  (forall mv m, (1 < List.length (matching_versions mv db))%nat ->
                P (MlflowException m (Some INVALID_STATE))) ->
  (forall n source run_id now,
     r = Create_model_version n source run_id now ->
     conflict n db sched 0 = true ->
     P (InvalidRequestError inactive_text)) ->
  outcome (call h r sched db) = Raise e ->
  P e.
Proof.
  intros Hstage Hparse Hcoded Hmodels Hversions Hsession H.
  destruct r as [onm now | rm new_name description | rm | | rm | rm stages
                 | nm source run_id now | mv stage description | mv | mv | mv
                 | filter_string];
    cbn [call] in H; apply answer_raise_inv in H.
  - (* create_registered_model *)
    destruct onm as [nm|];
      [|cbn in H; injection H as <-; apply Hcoded; discriminate].
    destruct (String.eqb_spec nm EmptyString) as [->|Hn];
      [cbn in H; injection H as <-; apply Hcoded; discriminate|].
    rewrite (create_registered_model_run now sched db Hn) in H.
    destruct (_ || _); cbn in H; [|discriminate].
    injection H as <-. apply Hcoded. discriminate.
  - (* update_registered_model *)
    unfold update_registered_model in H.
    revert H. apply model_lookup_failure; [exact Hcoded | intros m; apply Hmodels|].
    intros r Hm H.
    fold (update_registered_model rm new_name description sched db) in H.
    rewrite (@update_registered_model_run_any rm new_name description sched
               db r Hm) in H.
    destruct (apply_writes _ _ _); cbn in H; [discriminate|].
    injection H as <-. apply Hcoded. discriminate.
  - (* delete_registered_model *)
    unfold delete_registered_model in H.
    revert H. apply model_lookup_failure; [exact Hcoded | intros m; apply Hmodels|].
    intros r Hm H.
    fold (delete_registered_model rm sched db) in H.
    rewrite (@delete_registered_model_run rm sched db r Hm) in H.
    discriminate.
  - (* list_registered_models *)
    rewrite list_registered_models_outcome in H. discriminate.
  - (* get_registered_model_details *)
    unfold get_registered_model_details in H.
    revert H. apply model_lookup_failure; [exact Hcoded | intros m; apply Hmodels|].
    intros r Hm H.
    fold (get_registered_model_details rm sched db) in H.
    rewrite (@get_registered_model_details_one rm sched db r Hm) in H.
    discriminate.
  - (* get_latest_versions *)
    unfold get_latest_versions in H.
    revert H. apply model_lookup_failure; [exact Hcoded | intros m; apply Hmodels|].
    intros r Hm H.
    fold (get_latest_versions (h_get_canonical_stage h) (h_DEFAULT_STAGES h)
            rm stages sched db) in H.
    destruct (for_each_lift_cases (h_get_canonical_stage h)
                (requested_stages (h_DEFAULT_STAGES h) stages))
      as [[out Hout]|(a & e' & Ha & He' & Hrun)].
    + rewrite (@get_latest_versions_outcome _ _ _ _ sched db r out Hm Hout)
        in H.
      discriminate.
    + rewrite (@get_latest_versions_rejected _ _ _ _ sched db r e' Hm Hrun)
        in H.
      injection H as <-. now apply (Hstage a).
  - (* create_model_version *)
    revert H. apply create_model_version_raised;
      [exact Hcoded | intros m; apply Hmodels |].
    now apply (Hsession nm source run_id now).
  - (* update_model_version *)
    unfold update_model_version in H.
    revert H.
    apply version_lookup_failure; [exact Hcoded | intros m; apply Hversions|].
    intros v Hv H.
    fold (update_model_version (h_get_canonical_stage h) mv
            stage description sched db) in H.
    destruct stage as [st|].
    + destruct (h_get_canonical_stage h st) as [c|e'] eqn:G.
      * rewrite (@update_model_version_stores _ mv (Some st) c
                   description sched db v Hv G) in H.
        discriminate.
      * rewrite (@update_model_version_raises _ mv st
                   description sched db v e' Hv G) in H.
        injection H as <-. now apply (Hstage st).
    + rewrite (@update_model_version_stores _ mv None
                 EmptyString description sched db v Hv I) in H.
      discriminate.
  - (* delete_model_version *)
    unfold delete_model_version in H.
    revert H.
    apply version_lookup_failure; [exact Hcoded | intros m; apply Hversions|].
    intros v Hv H.
    fold (delete_model_version mv sched db) in H.
    rewrite (@delete_model_version_run mv sched db v Hv) in H.
    discriminate.
  - (* get_model_version_details *)
    unfold get_model_version_details in H.
    revert H.
    apply version_lookup_failure; [exact Hcoded | intros m; apply Hversions|].
    intros v Hv H.
    fold (get_model_version_details mv sched db) in H.
    rewrite (@get_model_version_details_one mv sched db v Hv) in H.
    discriminate.
  - (* get_model_version_download_uri *)
    unfold get_model_version_download_uri in H.
    revert H.
    apply version_lookup_failure; [exact Hcoded | intros m; apply Hversions|].
    intros v Hv H.
    fold (get_model_version_download_uri mv sched db) in H.
    rewrite (@get_model_version_download_uri_one mv sched db v Hv) in H.
    discriminate.
  - (* search_model_versions *)
    unfold search_model_versions in H.
    destruct (h_parse_filter h filter_string) as [parsed|e'] eqn:Pf.
    + destruct (conditions_of filter_string parsed) as [conds|e''] eqn:C.
      * rewrite search_with_conditions in H. discriminate.
      * cbn in H. injection H as <-.
        destruct (conditions_of_failure filter_string parsed C) as [m ->].
        apply Hcoded. discriminate.
    + cbn in H. injection H as <-. now apply (Hparse filter_string).
Qed.


Lemma spec_helpers_raise_MlflowException table :
  helpers_raise_MlflowException (spec_helpers table).
Proof.
  split; cbn.
  - intros stage e. unfold spec_get_canonical_stage.
    destruct (find _ _); [discriminate|].
    intros H. injection H as <-. apply is_MlflowException_intro.
  - intros fs e. unfold table_parser.
    destruct fs as [[|c f]|]; try discriminate.
    destruct (find _ _); [discriminate|].
    intros H. injection H as <-. apply is_MlflowException_intro.
Defined.


(* ================================================================= *)
(** ** The constraints of the schema *)

Lemma NoDup_map_filter {A K} (f : A -> K) (p : A -> bool) l :
  NoDup (map f l) -> NoDup (map f (filter p l)).
Proof.
  induction l as [|a l IH]; intros H; [constructor|].
  cbn in H. inversion H as [|? ? Hnotin Hnd]; subst.
  cbn [filter]. destruct (p a); [|now apply IH].
  cbn [map]. constructor; [|now apply IH].
  intros Hin. apply Hnotin. apply in_map_iff in Hin.
  destruct Hin as (x & Hx & Hin). apply filter_In in Hin.
  rewrite <- Hx. apply in_map. tauto.
Qed.

Lemma NoDup_map_injective_on {A B} (g : A -> B) l :
  (forall x y, In x l -> In y l -> g x = g y -> x = y) ->
  NoDup l -> NoDup (map g l).
Proof.
  induction l as [|a l IH]; intros Hinj H; [constructor|].
  inversion H as [|? ? Hnotin Hnd]; subst.
  cbn [map]. constructor.
  - intros Hin. apply in_map_iff in Hin. destruct Hin as (x & Hx & Hin).
    apply Hnotin.
    rewrite <- (Hinj x a (or_intror Hin) (or_introl eq_refl) Hx).
    exact Hin.
  - apply IH; [|exact Hnd]. intros x y Hx Hy. apply Hinj; now right.
Qed.

Lemma NoDup_snoc {A} (l : list A) a :
  NoDup l -> ~ In a l -> NoDup (l ++ [a]).
Proof.
  intros H Ha. apply NoDup_app; [exact H | repeat constructor; auto |].
  intros x Hx [<-|[]]. contradiction.
Qed.

(** With a unique key, a lookup by key matches one row at most. *)
Lemma at_most_one_by_key {A K} (f : A -> K) (p : A -> bool) k l :
  (forall x, p x = true -> f x = k) ->
  NoDup (map f l) ->
  (List.length (filter p l) <= 1)%nat.
Proof.
  intros Hp. induction l as [|a l IH]; intros H; [cbn; lia|].
  cbn in H. inversion H as [|? ? Hnotin Hnd]; subst.
  cbn [filter]. destruct (p a) eqn:Pa; [|now apply IH].
  rewrite (@filter_none _ p l); [cbn; lia|].
  intros x Hx. destruct (p x) eqn:Px; [|reflexivity].
  exfalso. apply Hnotin. rewrite (Hp a Pa), <- (Hp x Px). now apply in_map.
Qed.

Lemma one_model_per_name n db :
  model_names_unique db ->
  (List.length (matching_models n db) <= 1)%nat.
Proof.
  apply at_most_one_by_key with (k := n).
  intros x Hx. now apply String.eqb_eq.
Qed.

Lemma one_version_per_key mv db :
  version_keys_unique db ->
  (List.length (matching_versions mv db) <= 1)%nat.
Proof.
  apply at_most_one_by_key with (k := (get_name mv, version mv)).
  intros x Hx. apply andb_true_iff in Hx. destruct Hx as [Hn Hv].
  apply String.eqb_eq in Hn. apply Z.eqb_eq in Hv.
  unfold version_key. now rewrite Hn, Hv.
Qed.

Lemma well_formed_registered n now db :
  ~ In n (map rm_name (registered_models db)) ->
  well_formed db ->
  well_formed
    (mkDatabase (registered_models db ++ [new_model_row n now])
       (model_versions db)).
Proof.
  intros Hn (Hm & Hk & Hf). split; [|split].
  - unfold model_names_unique. cbn [registered_models].
    rewrite map_app. cbn [map]. now apply NoDup_snoc.
  - exact Hk.
  - intros v Hv. destruct (Hf v Hv) as (r & Hr & Hrn).
    exists r. split; [|exact Hrn]. cbn [registered_models].
    apply in_or_app. now left.
Qed.

Lemma well_formed_with_new_version n source run_id now db r :
  matching_models n db = [r] ->
  well_formed db ->
  well_formed (with_new_version n source run_id now db).
Proof.
  intros Hr (Hm & Hk & Hf). split; [|split].
  - exact Hm.
  - unfold version_keys_unique, with_new_version. cbn [model_versions].
    rewrite map_app. cbn [map]. apply NoDup_snoc; [exact Hk|].
    intros Hin. apply mem_key_In in Hin.
    unfold new_version_row, version_key at 1 in Hin.
    cbn [mv_name mv_version] in Hin.
    now rewrite next_version_is_free in Hin.
  - intros v Hv. unfold with_new_version in Hv. cbn [model_versions] in Hv.
    apply in_app_or in Hv. destruct Hv as [Hv|[<-|[]]].
    + exact (Hf v Hv).
    + exists r. split; [|exact (matching_models_name _ _ Hr)].
      assert (Hin : In r (matching_models n db)) by (rewrite Hr; now left).
      apply filter_In in Hin. tauto.
Qed.

Lemma well_formed_delete_model_rows n db :
  well_formed db -> well_formed (delete_model_rows n db).
Proof.
  intros (Hm & Hk & Hf). split; [|split].
  - now apply NoDup_map_filter.
  - now apply NoDup_map_filter.
  - intros v Hv. cbn [delete_model_rows model_versions] in Hv.
    apply filter_In in Hv. destruct Hv as [Hv Hp].
    destruct (Hf v Hv) as (r & Hr & Hrn).
    exists r. split; [|exact Hrn].
    cbn [delete_model_rows registered_models]. apply filter_In.
    split; [exact Hr|]. now rewrite Hrn.
Qed.

Lemma well_formed_without_version k db :
  well_formed db -> well_formed (without_version k db).
Proof.
  intros (Hm & Hk & Hf). split; [|split].
  - exact Hm.
  - now apply NoDup_map_filter.
  - intros v Hv. cbn [without_version model_versions] in Hv.
    apply filter_In in Hv. exact (Hf v (proj1 Hv)).
Qed.

Lemma version_key_updated_version stage description v :
  version_key (updated_version stage description v) = version_key v.
Proof. destruct stage, description; reflexivity. Qed.

Lemma well_formed_version_replaced v v' db :
  version_key v' = version_key v ->
  well_formed db ->
  well_formed
    (mkDatabase (registered_models db)
       (map (fun x => if key_eqb (version_key x) (version_key v) then v' else x)
            (model_versions db))).
Proof.
  intros Hv' (Hm & Hk & Hf).
  assert (Hsame : forall x,
             version_key (if key_eqb (version_key x) (version_key v)
                          then v' else x) = version_key x).
  { intros x. destruct (key_eqb _ _) eqn:E; [|reflexivity].
    apply key_eqb_eq in E. congruence. }
  split; [|split].
  - exact Hm.
  - unfold version_keys_unique. cbn [model_versions].
    rewrite map_map. rewrite (map_ext _ version_key Hsame). exact Hk.
  - intros w Hw. cbn [model_versions] in Hw. apply in_map_iff in Hw.
    destruct Hw as (x & <- & Hx).
    destruct (Hf x Hx) as (r & Hr & Hrn).
    exists r. split; [exact Hr|]. rewrite Hrn.
    destruct (key_eqb (version_key x) (version_key v)) eqn:E; [|reflexivity].
    apply key_eqb_eq in E. rewrite <- Hv' in E.
    unfold version_key in E. now injection E as -> _.
Qed.

Lemma with_name_same n v : mv_name v = n -> with_name n v = v.
Proof. intros <-. now destruct v. Qed.

(** A rename to a name no registered model has, or to the name the model
    has, keeps the constraints. *)
Lemma well_formed_renamed old new r' db :
  rm_name r' = new ->
  new = old \/ ~ In new (map rm_name (registered_models db)) ->
  well_formed db ->
  well_formed
    (mkDatabase
       (map (fun x => if (rm_name x =? old)%string then r' else x)
            (registered_models db))
       (map (fun v => if (mv_name v =? old)%string then with_name new v else v)
            (model_versions db))).
Proof.
  intros Hr' Hfree (Hm & Hk & Hf).
  set (g := fun n : string => if (n =? old)%string then new else n).
  assert (Hg : forall n n',
             In n (map rm_name (registered_models db)) ->
             In n' (map rm_name (registered_models db)) ->
             g n = g n' -> n = n').
  { intros n n' Hn Hn'. unfold g.
    destruct (String.eqb_spec n old) as [->|En],
             (String.eqb_spec n' old) as [->|En']; intros E; auto.
    - subst n'. destruct Hfree as [->|Hfree]; [reflexivity | contradiction].
    - subst n. destruct Hfree as [->|Hfree]; [reflexivity | contradiction]. }
  split; [|split].
  - unfold model_names_unique. cbn [registered_models]. rewrite map_map.
    rewrite (map_ext _ (fun x => g (rm_name x))).
    + rewrite <- (map_map rm_name g).
      now apply NoDup_map_injective_on.
    + intros x. unfold g.
      now destruct (rm_name x =? old)%string.
  - unfold version_keys_unique. cbn [model_versions]. rewrite map_map.
    rewrite (map_ext _ (fun v => (fun k : VersionKey => (g (fst k), snd k))
                                   (version_key v))).
    + rewrite <- (map_map version_key
                    (fun k : VersionKey => (g (fst k), snd k))).
      apply NoDup_map_injective_on; [|exact Hk].
      intros [n ver] [n' ver'] Hin Hin' E. cbn [fst snd] in E.
      injection E as En Ev. subst ver'. f_equal.
      apply Hg; [| |exact En].
      * apply in_map_iff in Hin. destruct Hin as (x & Hx & Hin).
        destruct (Hf x Hin) as (r & Hr & Hrn).
        unfold version_key in Hx. injection Hx as <- _.
        rewrite <- Hrn. now apply in_map.
      * apply in_map_iff in Hin'. destruct Hin' as (x & Hx & Hin').
        destruct (Hf x Hin') as (r & Hr & Hrn).
        unfold version_key in Hx. injection Hx as <- _.
        rewrite <- Hrn. now apply in_map.
    + intros v. unfold g, version_key. cbn [fst snd].
      now destruct (mv_name v =? old)%string.
  - intros w Hw. cbn [model_versions] in Hw. apply in_map_iff in Hw.
    destruct Hw as (v & <- & Hv).
    destruct (Hf v Hv) as (r & Hr & Hrn).
    cbn [registered_models].
    destruct (String.eqb_spec (mv_name v) old) as [En|En].
    + exists r'. split; [|now rewrite Hr'].
      apply in_map_iff. exists r. split; [|exact Hr].
      now rewrite Hrn, En, String.eqb_refl.
    + exists r. split; [|exact Hrn].
      apply in_map_iff. exists r. split; [|exact Hr].
      rewrite Hrn. destruct (String.eqb_spec (mv_name v) old); congruence.
Qed.

Lemma model_lookup_tables {A} (P : Database -> Prop) (rest : SqlRM -> M A)
    n sched db :
  P db ->
  (forall r, matching_models n db = [r] ->
             P (tables_after
                  (ManagedSessionMaker (bind (_get_registered_model n) rest)
                     sched db))) ->
  P (tables_after
       (ManagedSessionMaker (bind (_get_registered_model n) rest) sched db)).
Proof.
  intros Hdb Hone.
  destruct (none_one_many (matching_models n db)) as [Hm|[[r Hm]|Hm]].
  - pose proof (get_registered_model_none n (mkSession db [] sched []) Hm) as L.
    destruct (managed_lookup_raises _ rest sched db L) as [_ Ht].
    now rewrite Ht.
  - now apply (Hone r).
  - pose proof (get_registered_model_many n (mkSession db [] sched []) Hm) as L.
    destruct (managed_lookup_raises _ rest sched db L) as [_ Ht].
    now rewrite Ht.
Qed.

Lemma version_lookup_tables {A} (P : Database -> Prop) (rest : SqlMV -> M A)
    mv sched db :
  P db ->
  (forall v, matching_versions mv db = [v] ->
             P (tables_after
                  (ManagedSessionMaker (bind (_get_sql_model_version mv) rest)
                     sched db))) ->
  P (tables_after
       (ManagedSessionMaker (bind (_get_sql_model_version mv) rest) sched db)).
Proof.
  intros Hdb Hone.
  destruct (none_one_many (matching_versions mv db)) as [Hm|[[v Hm]|Hm]].
  - pose proof (get_sql_model_version_none mv (mkSession db [] sched []) Hm)
      as L.
    destruct (managed_lookup_raises _ rest sched db L) as [_ Ht].
    now rewrite Ht.
  - now apply (Hone v).
  - pose proof (get_sql_model_version_many mv (mkSession db [] sched []) Hm)
      as L.
    destruct (managed_lookup_raises _ rest sched db L) as [_ Ht].
    now rewrite Ht.
Qed.

Lemma update_registered_model_keeps_well_formed rm new_name description
    sched db :
  well_formed db ->
  well_formed
    (tables_after (update_registered_model rm new_name description sched db)).
Proof.
  intros W. unfold update_registered_model.
  apply model_lookup_tables; [exact W|]. intros r Hm.
  fold (update_registered_model rm new_name description sched db).
  rewrite (@update_registered_model_run_any rm new_name description sched db
             r Hm).
  pose proof (matching_models_name _ _ Hm) as Hr.
  destruct W as (Wm & Wk & Wf).
  destruct new_name as [new|].
  - destruct (apply_writes _ db _) as [db'|] eqn:E;
      [|cbn; now repeat split].
    cbn [tables_after fst snd].
    change (update_writes (name rm) (Some new) description r db)
      with (rename_writes (name rm) new description r db) in E.
    destruct (rename_applied _ _ _ _ _ Wk E) as (HR & HT & Hfree).
    rewrite <- (database_eta db'), HR, HT.
    apply well_formed_renamed; [reflexivity | exact Hfree | now repeat split].
  - rewrite (@update_without_rename_applies _ db (name rm) description r Wk Hr).
    cbn [tables_after fst snd].
    rewrite <- (map_id (model_versions db)).
    rewrite (map_ext_in id
               (fun v => if (mv_name v =? name rm)%string
                         then with_name (name rm) v else v)).
    + apply well_formed_renamed;
        [exact Hr | now left | now repeat split].
    + intros v _. unfold id.
      destruct (String.eqb_spec (mv_name v) (name rm)) as [En|_];
        [|reflexivity].
      symmetry. now apply with_name_same.
Qed.

Lemma call_keeps_well_formed h r sched db :
  well_formed db -> well_formed (tables_after (call h r sched db)).
Proof.
  intros W.
  destruct r as [onm now | rm new_name description | rm | | rm | rm stages
                 | nm source run_id now | mv stage description | mv | mv | mv
                 | filter_string];
    cbn [call]; rewrite answer_tables.
  - destruct onm as [nm|]; [|exact W].
    destruct (String.eqb_spec nm EmptyString) as [->|Hn]; [exact W|].
    rewrite (create_registered_model_run now sched db Hn).
    destruct (_ || _) eqn:G; [exact W|].
    cbn [tables_after fst snd]. apply well_formed_registered; [|exact W].
    apply orb_false_iff in G. destruct G as [G _].
    intros Hin. apply mem_name_In in Hin. congruence.
  - now apply update_registered_model_keeps_well_formed.
  - unfold delete_registered_model.
    apply model_lookup_tables; [exact W|]. intros r Hm.
    fold (delete_registered_model rm sched db).
    rewrite (@delete_registered_model_run rm sched db r Hm).
    now apply well_formed_delete_model_rows.
  - unfold list_registered_models. rewrite managed_reader; [exact W|].
    apply reads_only_bind; auto with readers. intros.
    apply reads_only_for_each; auto with readers.
  - unfold get_registered_model_details. rewrite managed_reader; [exact W|].
    apply reads_only_bind; auto with readers.
  - now rewrite get_latest_versions_reads.
  - destruct (outcome (create_model_version nm source run_id now sched db))
      as [created|e] eqn:O.
    + destruct (create_model_version_returned _ _ _ _ _ _ O)
        as ([r Hm] & _ & Ht).
      rewrite Ht. now apply well_formed_with_new_version with (r := r).
    + now rewrite (create_model_version_failure _ _ _ _ _ _ O).
  - unfold update_model_version.
    apply version_lookup_tables; [exact W|]. intros v Hv.
    fold (update_model_version (h_get_canonical_stage h) mv stage description
            sched db).
    destruct stage as [st|].
    + destruct (h_get_canonical_stage h st) as [c|e] eqn:G.
      * rewrite (@update_model_version_stores _ mv (Some st) c description
                   sched db v Hv G).
        cbn [tables_after fst snd].
        apply well_formed_version_replaced; [|exact W].
        apply version_key_updated_version.
      * now rewrite (@update_model_version_raises _ mv st description sched
                       db v e Hv G).
    + rewrite (@update_model_version_stores _ mv None EmptyString description
                 sched db v Hv I).
      cbn [tables_after fst snd].
      apply well_formed_version_replaced; [|exact W].
      apply version_key_updated_version.
  - unfold delete_model_version.
    apply version_lookup_tables; [exact W|]. intros v Hv.
    fold (delete_model_version mv sched db).
    rewrite (@delete_model_version_run mv sched db v Hv).
    now apply well_formed_without_version.
  - unfold get_model_version_details. rewrite managed_reader; [exact W|].
    apply reads_only_bind; auto with readers.
  - unfold get_model_version_download_uri.
    rewrite managed_reader; [exact W|].
    apply reads_only_bind; auto with readers.
  - now rewrite search_model_versions_reads.
Qed.

Lemma run_keeps_well_formed h steps db :
  well_formed db -> well_formed (run h steps db).
Proof.
  revert db. induction steps as [|step steps IH]; intros db W; [exact W|].
  cbn [run fold_left]. apply IH. now apply call_keeps_well_formed.
Qed.

Lemma empty_db_well_formed : well_formed empty_db.
Proof.
  split; [|split].
  - constructor.
  - constructor.
  - intros v [].
Defined.

(** X21. The operations of the store keep the constraints of the schema:
    on tables where the names of the registered models are unique, the
    keys (name, version) of the versions are unique and every version
    carries the name of a registered model, the same holds after any
    series of calls, whatever each returns or raises and whichever
    concurrent transactions run beside it; so a lookup by name, or by
    name and version, then matches one row at most. *)
Theorem operations_keep_the_schema_constraints :
  forall (h : Helpers) (steps : list (Request * list Concurrent))
         (db : Database),
    well_formed db ->
    well_formed (run h steps db) /\
    (forall n, (List.length (matching_models n (run h steps db)) <= 1)%nat) /\
    (forall mv,
       (List.length (matching_versions mv (run h steps db)) <= 1)%nat).
Proof.
  intros h steps db W.
  pose proof (run_keeps_well_formed h steps W) as (Hm & Hk & Hf).
  split; [now repeat split|]. split.
  - intros n. now apply one_model_per_name.
  - intros mv. now apply one_version_per_key.
Qed.

Lemma operations_keep_the_schema_constraints_witness :
  well_formed
    (run (spec_helpers [])
       [(Create_registered_model (Some "A") 1, []);
        (Create_model_version "A" "s3://a" "run1" 2, [mkConcurrent [] [("A", 1)]]);
        (Create_model_version "A" "s3://b" "run2" 3, []);
        (Update_registered_model (mkRegisteredModel "A") (Some "B") None, []);
        (Delete_model_version (mkModelVersion (mkRegisteredModel "B") 1), [])]
       empty_db).
Proof.
  apply (@operations_keep_the_schema_constraints (spec_helpers [])
           [(Create_registered_model (Some "A") 1, []);
            (Create_model_version "A" "s3://a" "run1" 2,
             [mkConcurrent [] [("A", 1)]]);
            (Create_model_version "A" "s3://b" "run2" 3, []);
            (Update_registered_model (mkRegisteredModel "A") (Some "B") None,
             []);
            (Delete_model_version (mkModelVersion (mkRegisteredModel "B") 1),
             [])]
           empty_db empty_db_well_formed).
Defined.

(** X22. On tables that satisfy the constraints of the schema, and so on
    any tables the operations of the store have made of them, no
    operation raises an error with the code [INVALID_STATE], unless a
    helper it imports raises one: the lookups never find a second row. *)
Theorem INVALID_STATE_needs_broken_tables :
  forall (h : Helpers) (steps : list (Request * list Concurrent))
         (db : Database) (r : Request) (sched : list Concurrent) (e : Exn),
    well_formed db ->
    (forall stage e', h_get_canonical_stage h stage = Raise e' ->
                      ~ is_InvalidState e') ->
    (forall filter_string e', h_parse_filter h filter_string = Raise e' ->
                              ~ is_InvalidState e') ->
    outcome (call h r sched (run h steps db)) = Raise e ->
    ~ is_InvalidState e.
Proof.
  intros h steps db r sched e W Hstage Hparse.
  pose proof (run_keeps_well_formed h steps W) as (Hm & Hk & _).
  apply (@call_raised (fun x => ~ is_InvalidState x)).
  - exact Hstage.
  - exact Hparse.
  - intros m c Hc [m' E]. congruence.
  - intros n m Hl. pose proof (one_model_per_name n Hm). lia.
  - intros mv m Hl. pose proof (one_version_per_key mv Hk). lia.
  - intros n source run_id now _ _ [m E]. discriminate E.
Qed.

Lemma spec_helpers_never_InvalidState table :
  (forall stage e', h_get_canonical_stage (spec_helpers table) stage = Raise e' ->
                    ~ is_InvalidState e') /\
  (forall filter_string e',
     h_parse_filter (spec_helpers table) filter_string = Raise e' ->
     ~ is_InvalidState e').
Proof.
  split; cbn.
  - intros stage e'. unfold spec_get_canonical_stage.
    destruct (find _ _); [discriminate|].
    intros H [m E]. rewrite E in H. discriminate H.
  - intros fs e'. unfold table_parser.
    destruct fs as [[|c f]|]; try discriminate.
    destruct (find _ _); [discriminate|].
    intros H [m E]. rewrite E in H. discriminate H.
Defined.

Lemma INVALID_STATE_needs_broken_tables_witness :
  ~ is_InvalidState
      (MlflowException "Model Version (name=A, version3) not found"
         (Some RESOURCE_DOES_NOT_EXIST)).
Proof.
  apply (@INVALID_STATE_needs_broken_tables (spec_helpers [])
           [(Create_registered_model (Some "A") 1, []);
            (Create_model_version "A" "s3://a" "run1" 2, [])]
           empty_db
           (Get_model_version_details
              (mkModelVersion (mkRegisteredModel "A") 3))
           []
           _ empty_db_well_formed
           (proj1 (spec_helpers_never_InvalidState []))
           (proj2 (spec_helpers_never_InvalidState []))).
  reflexivity.
Defined.

(* ================================================================= *)
(** ** The check of the tables at start-up *)

(** X23. [_verify_registry_tables_exist] returns exactly when the table
    of registered models and the table of model versions are both among
    the tables the engine reports, in whatever order and beside whatever
    other tables; otherwise it raises an [MlflowException] without an
    error code that asks for a manual upgrade. *)
Theorem verify_registry_tables_exist_when_both_present :
  forall (registered_models_tablename model_versions_tablename : string)
         (table_names : list string),
    (_verify_registry_tables_exist registered_models_tablename
       model_versions_tablename table_names = Ok tt
     <-> In registered_models_tablename table_names
         /\ In model_versions_tablename table_names) /\
    (~ (In registered_models_tablename table_names
        /\ In model_versions_tablename table_names) ->
     _verify_registry_tables_exist registered_models_tablename
       model_versions_tablename table_names
     = Raise (MlflowException
                "Database migration in unexpected state. Run manual upgrade."
                None)).
Proof.
  intros rmt mvt names. unfold _verify_registry_tables_exist.
  cbn [existsb].
  destruct (mem_name rmt names) eqn:E1, (mem_name mvt names) eqn:E2;
    cbn [negb orb]; (split; [split|]).
  all: try discriminate.
  all: try (intros _; split; now apply mem_name_In).
  all: try reflexivity.
  all: try (intros [H1 H2]; apply mem_name_In in H1, H2; congruence).
  intros H. exfalso. apply H. split; now apply mem_name_In.
Qed.
